(** * Video-to-Subtitle: the transcription-to-subtitle pipeline

    A shallow embedding of [SubtitleTranscriber] (SubtitleTranscriber.py):
    [load_model], [format_timestamp] and [run], together with the parts of
    the Python runtime they call (binary64 floats, [datetime.timedelta],
    [os.path.splitext], [str.strip], [str.lower], [json.dump]). *)

From Stdlib Require Import ZArith String Ascii List Lia SpecFloat.
From stdpp Require Import gmap strings list pretty.

Local Open Scope string_scope.
Local Open Scope list_scope.
Local Open Scope Z_scope.

(** ** Python exceptions and results *)

(** An exception is its class name and its message ([str(e)]). *)
Record exn := Exn { exn_class : string; exn_msg : string }.

Inductive result (A : Type) :=
| Ok (a : A)
| Raise (e : exn).
Arguments Ok {A} a.
Arguments Raise {A} e.

#[global] Instance result_ret : MRet result := fun A a => Ok a.
#[global] Instance result_bind : MBind result := fun A B k r =>
  match r with
  | Ok a => k a
  | Raise e => Raise e
  end.

(** ** Python floats: IEEE 754 binary64 *)

Abbreviation float := spec_float.

Module PyFloat.

Definition prec : Z := 53.
Definition emax : Z := 1024.

(** [float(z)] for an int [z]: the nearest binary64 number. *)
Definition of_Z (z : Z) : float := binary_normalize prec emax z 0 false.

(** [x * y] on floats. *)
Definition mul (x y : float) : float := SFmul prec emax x y.

(** [a / b] on ints (true division): the quotient correctly rounded.
    Python raises ZeroDivisionError for [b = 0]. *)
Definition int_true_div (a b : Z) : result float :=
  match b with
  | Z0 => Raise (Exn "ZeroDivisionError" "division by zero")
  | _ =>
    match a with
    | Z0 => Ok (S754_zero false)
    | _ =>
      let '(q, e, l) :=
        SFdiv_core_binary prec emax (Z.abs a) 0 (Z.abs b) 0 in
      Ok (binary_round_aux prec emax (xorb (a <? 0) (b <? 0)) q e l)
    end
  end.

(** A decimal literal [m]e-[k] with [m] and [10^k] below [2^53], as the
    parser reads it: the nearest binary64 number to [m / 10^k]. *)
Definition decimal (m : Z) (k : Z) : float :=
  SFdiv prec emax (of_Z m) (of_Z (10 ^ k)).

(** [int(x)]: truncation toward zero; NaN and the infinities raise. *)
Definition to_int (x : float) : result Z :=
  match x with
  | S754_zero _ => Ok 0
  | S754_finite s m e =>
    let a := match e with
             | Zneg p => Z.shiftr (Zpos m) (Zpos p)
             | _ => Z.shiftl (Zpos m) e
             end in
    Ok (if s then - a else a)
  | S754_infinity _ =>
    Raise (Exn "OverflowError" "cannot convert float infinity to integer")
  | S754_nan =>
    Raise (Exn "ValueError" "cannot convert float NaN to integer")
  end.

(** C's [modf]: the fractional and the integral part, both with the sign
    of [x], both exact. *)
Definition modf (x : float) : float * float :=
  match x with
  | S754_finite s m (Zneg p) =>
    let ip := Z.shiftr (Zpos m) (Zpos p) in
    let fp := Z.land (Zpos m) (Z.ones (Zpos p)) in
    (binary_normalize prec emax (if s then - fp else fp) (Zneg p) s,
     binary_normalize prec emax (if s then - ip else ip) 0 s)
  | S754_finite s _ _ => (S754_zero s, x)
  | S754_infinity s => (S754_zero s, x)
  | _ => (x, x)
  end.

Definition is_zero (x : float) : bool :=
  match x with S754_zero _ => true | _ => false end.

Definition is_finite (x : float) : bool :=
  match x with S754_zero _ | S754_finite _ _ _ => true | _ => false end.

(** [0 <= x] as Python compares floats. *)
Definition nonneg (x : float) : bool := SFleb (S754_zero false) x.

(** The position of [|x|] against one half, for a finite [x]. *)
Definition compare_half (x : float) : comparison :=
  match x with
  | S754_finite _ m e =>
    match e with
    | Zneg p => Z.compare (Zpos m~0) (Z.shiftl 1 (Zpos p))
    | _ => Gt
    end
  | _ => Lt
  end.

Definition sign (x : float) : bool :=
  match x with
  | S754_zero s | S754_infinity s | S754_finite s _ _ => s
  | S754_nan => false
  end.

End PyFloat.

(** ** Python strings

    A [str] is modelled by its UTF-8 encoding, which is what [open(...,
    encoding="utf-8")] writes. *)

Module PyStr.

Definition of_bytes (l : list N) : string :=
  string_of_list_ascii (map ascii_of_N l).

(** [str.lower] on the ASCII letters. Outside ASCII, only U+0130 and
    U+212A have a lower case with an ASCII letter in it ([i] and [k]);
    none of the literals this program compares with holds either. *)
Definition lower_char (c : ascii) : ascii :=
  let n := N_of_ascii c in
  if ((65 <=? n) && (n <=? 90))%N then ascii_of_N (n + 32) else c.

Fixpoint lower (s : string) : string :=
  match s with
  | EmptyString => EmptyString
  | String c s' => String (lower_char c) (lower s')
  end.

(** [needle in hay]. *)
Fixpoint contains (needle hay : string) : bool :=
  String.prefix needle hay ||
  match hay with
  | EmptyString => false
  | String _ hay' => contains needle hay'
  end.

(** The characters [str.isspace] accepts, UTF-8 encoded. *)
Definition whitespace : list string :=
  map of_bytes
    [ [9]; [10]; [11]; [12]; [13]; [28]; [29]; [30]; [31]; [32];
      [194; 133]; [194; 160]; [225; 154; 128];
      [226; 128; 128]; [226; 128; 129]; [226; 128; 130]; [226; 128; 131];
      [226; 128; 132]; [226; 128; 133]; [226; 128; 134]; [226; 128; 135];
      [226; 128; 136]; [226; 128; 137]; [226; 128; 138];
      [226; 128; 168]; [226; 128; 169]; [226; 128; 175];
      [226; 129; 159]; [227; 128; 128] ]%N.

Fixpoint drop (n : nat) (s : string) : string :=
  match n, s with
  | S n', String _ s' => drop n' s'
  | _, _ => s
  end.

Fixpoint take (n : nat) (s : string) : string :=
  match n, s with
  | S n', String c s' => String c (take n' s')
  | _, _ => EmptyString
  end.

(** One leading token of [tokens], when [s] starts with one. *)
Definition leading (tokens : list string) (s : string) : option string :=
  List.find (fun t => String.prefix t s) tokens.

Fixpoint lstrip_with (tokens : list string) (fuel : nat) (s : string) : string :=
  match fuel with
  | O => s
  | S fuel' =>
    match leading tokens s with
    | Some t => lstrip_with tokens fuel' (drop (String.length t) s)
    | None => s
    end
  end.

Definition lstrip (s : string) : string :=
  lstrip_with whitespace (String.length s) s.

Definition rstrip (s : string) : string :=
  String.rev
    (lstrip_with (map String.rev whitespace) (String.length s) (String.rev s)).

(** [s.strip()]. *)
Definition strip (s : string) : string := rstrip (lstrip s).

Fixpoint zeros (n : nat) : string :=
  match n with
  | O => EmptyString
  | S n' => String "0" (zeros n')
  end.

(** [f"{z:0w}"]: sign first, then zeros up to the width [w]. *)
Definition format_zero (w : nat) (z : Z) : string :=
  let digits := pretty (Z.abs_N z) in
  let sign := if Z.ltb z 0 then "-" else "" in
  sign +:+ zeros (w - String.length sign - String.length digits) +:+ digits.

(** [str(z)] for an int. *)
Definition of_int (z : Z) : string := pretty z.

End PyStr.

(** ** [datetime.timedelta] *)

Module Datetime.

Record timedelta := Timedelta { days : Z; seconds : Z; microseconds : Z }.

Definition us_per_second : Z := 1000000.
Definition seconds_per_day : Z := 86400.
Definition max_delta_days : Z := 999999999.

(** A count of microseconds normalised into days, seconds and
    microseconds; the days are bounded. *)
Definition microseconds_to_delta (us : Z) : result timedelta :=
  let s := us / us_per_second in
  let d := s / seconds_per_day in
  if (Z.abs d <=? max_delta_days) then
    Ok (Timedelta d (s mod seconds_per_day) (us mod us_per_second))
  else
    Raise (Exn "OverflowError"
             ("days=" +:+ PyStr.of_int d +:+ "; must have magnitude <= 999999999")).

(** The left-over fraction of a microsecond, rounded to a whole one, to
    the even total when it is one half. *)
Definition round_leftover (x_is_odd : bool) (leftover : float) : Z :=
  let unit := if PyFloat.sign leftover then -1 else 1 in
  match PyFloat.compare_half leftover with
  | Lt => 0
  | Gt => unit
  | Eq => if x_is_odd then unit else 0
  end.

(** [timedelta(seconds=x)] for a float [x]: the integral part is taken
    exactly, the fractional part is scaled to microseconds in floating
    point and rounded half to even. *)
Definition of_seconds (x : float) : result timedelta :=
  let '(fracpart, intpart) := PyFloat.modf x in
  ip ← PyFloat.to_int intpart;
  let sum := ip * us_per_second in
  if PyFloat.is_zero fracpart then microseconds_to_delta sum
  else
    let dnum := PyFloat.mul (PyFloat.of_Z us_per_second) fracpart in
    let '(leftover, intpart') := PyFloat.modf dnum in
    ip' ← PyFloat.to_int intpart';
    let y := sum + ip' in
    microseconds_to_delta (y + round_leftover (Z.odd y) leftover).

Definition to_microseconds (td : timedelta) : Z :=
  (days td * seconds_per_day + seconds td) * us_per_second + microseconds td.

(** [td.total_seconds()]. *)
Definition total_seconds (td : timedelta) : result float :=
  PyFloat.int_true_div (to_microseconds td) us_per_second.

End Datetime.

(** ** [SubtitleTranscriber.format_timestamp] *)

Definition format_timestamp (seconds : float) (separator : string) : result string :=
  td ← Datetime.of_seconds seconds;
  ts ← Datetime.total_seconds td;
  total_seconds ← PyFloat.to_int ts;
  let hours := total_seconds / 3600 in
  let minutes := (total_seconds mod 3600) / 60 in
  let secs := total_seconds mod 60 in
  ms ← PyFloat.int_true_div (Datetime.microseconds td) 1000;
  millis ← PyFloat.to_int ms;
  Ok (PyStr.format_zero 2 hours +:+ ":" +:+ PyStr.format_zero 2 minutes +:+ ":"
      +:+ PyStr.format_zero 2 secs +:+ separator +:+ PyStr.format_zero 3 millis).

(** ** [os.path] *)

Module OsPath.

(** [posixpath] has the separator [/]; [ntpath] has [\] and also [/]. *)
Inductive flavour := Posix | Nt.

Definition slash : ascii := ascii_of_N 47.
Definition backslash : ascii := ascii_of_N 92.
Definition extsep : ascii := ascii_of_N 46.

Definition is_sep (fl : flavour) (c : ascii) : bool :=
  match fl with
  | Posix => Ascii.eqb c slash
  | Nt => Ascii.eqb c backslash || Ascii.eqb c slash
  end.

(** The index of the last character that satisfies [p]. *)
Fixpoint rindex (p : ascii -> bool) (s : string) : option nat :=
  match s with
  | EmptyString => None
  | String c s' =>
    match rindex p s' with
    | Some i => Some (S i)
    | None => if p c then Some O else None
    end
  end.

(** [s.rfind(...)]: the last index, or -1. *)
Definition rfind (p : ascii -> bool) (s : string) : Z :=
  match rindex p s with
  | Some i => Z.of_nat i
  | None => -1
  end.

Fixpoint all_dots (s : string) : bool :=
  match s with
  | EmptyString => true
  | String c s' => Ascii.eqb c extsep && all_dots s'
  end.

(** [genericpath._splitext]: split at the last dot of the last
    component, unless only dots come before it in that component. *)
Definition splitext (fl : flavour) (p : string) : string * string :=
  let sepIndex := rfind (is_sep fl) p in
  let dotIndex := rfind (Ascii.eqb extsep) p in
  if dotIndex >? sepIndex then
    let filenameIndex := sepIndex + 1 in
    if all_dots (PyStr.take (Z.to_nat (dotIndex - filenameIndex))
                   (PyStr.drop (Z.to_nat filenameIndex) p))
    then (p, EmptyString)
    else (PyStr.take (Z.to_nat dotIndex) p, PyStr.drop (Z.to_nat dotIndex) p)
  else (p, EmptyString).

End OsPath.

(** ** The ASR engine, as [run] sees it *)

Record segment := Segment {
  seg_start : float;
  seg_end : float;
  seg_text : string
}.

Record transcription_info := TranscriptionInfo {
  language : string;
  language_probability : float
}.

(** What one [next()] on the lazy segment sequence does before the
    sequence is exhausted: it yields a segment, or the engine fails. *)
Inductive seg_event :=
| Yield (s : segment)
| EngineFault (e : exn).

(** Values of the keyword arguments [transcribe] receives. *)
Inductive pyval :=
| PyInt (z : Z)
| PyString (s : string).

Record whisper_model := WhisperModel {
  transcribe :
    string -> gmap string pyval -> result (list seg_event * transcription_info)
}.

(** ** Log lines

    One constructor per [log_callback(...)] call of the source; the
    arguments are the values the f-string interpolates. *)
Inductive log_line :=
| LogLoadingModel (model_size device : string)
| LogFirstRunDownload
| LogModelLoaded
| LogMissingGpuLibrary
| LogModelLoadFailed (msg : string)
| LogRule
| LogStartTime
| LogProcessingFile (file_path : string)
| LogTaskMode (translate : bool)
| LogOutputFormat (output_format : string)
| LogPromptEnabled (initial_prompt : string)
| LogDetectedLanguage (info : transcription_info)
| LogCancelled
| LogSegment (log_timestamp text : string)
| LogEndTime
| LogDuration
| LogSaved (output_path : string).

(** ** The world: disk, file handles, and the history of effects *)

Inductive event :=
| EvLog (l : log_line)
| EvNewModel (model_size device compute_type : string)
| EvTranscribe (file_path : string) (options : gmap string pyval)
| EvYield (i : nat)
| EvPoll (cancelled : bool)
| EvOpen (path : string)
| EvWrite (path data : string)
| EvClose (path : string).

Record world := World {
  self_model : option whisper_model;  (* [self.model] *)
  disk : gmap string string;          (* the paths that exist, with their content *)
  open_handles : list string;         (* the paths of the file objects not yet closed *)
  io_count : nat;                     (* [open] and [write] calls so far *)
  trace : list event                  (* the effects so far, oldest first *)
}.

(** What the caller and the platform provide. *)
Record env := Env {
  os_flavour : OsPath.flavour;
  model_size : string;
  device : string;
  compute_type : string;
  (** [WhisperModel(model_size, device=..., compute_type=...)]. *)
  new_whisper_model : string -> string -> string -> result whisper_model;
  (** [cancel_check_callback]; its n-th call returns [f n]. *)
  cancel_check_callback : option (nat -> bool);
  (** The n-th [open] or [write] fails with [e] when this is [Some e]. *)
  io_fault : nat -> option exn;
  (** [float.__repr__] as [json] prints a float. *)
  float_repr : float -> string
}.

(** ** A state and exception monad *)

Definition M (A : Type) : Type := world -> result A * world.

#[global] Instance M_ret : MRet M := fun A a w => (Ok a, w).
#[global] Instance M_bind : MBind M := fun A B k m w =>
  match m w with
  | (Ok a, w') => k a w'
  | (Raise e, w') => (Raise e, w')
  end.

Definition raise {A} (e : exn) : M A := fun w => (Raise e, w).

Definition lift {A} (r : result A) : M A := fun w => (r, w).

Definition get : M world := fun w => (Ok w, w).

Definition modify (f : world -> world) : M unit := fun w => (Ok tt, f w).

Definition emit (ev : event) : M unit :=
  modify (fun w => World (self_model w) (disk w) (open_handles w) (io_count w)
                     (trace w ++ [ev])).

Definition log_callback (l : log_line) : M unit := emit (EvLog l).

(** [try: body except Exception as e: handler(e)]. *)
Definition try_except {A} (body : M A) (handler : exn -> M A) : M A := fun w =>
  match body w with
  | (Ok a, w') => (Ok a, w')
  | (Raise e, w') => handler e w'
  end.

(** [try: ... finally: cleanup] around a block that first binds a local
    variable ([acquire], the variable stays [None] when it raises) and then
    runs [body]; [cleanup] reads the variable on every exit. *)
Definition try_finally {H A} (acquire : M (option H)) (body : option H -> M A)
    (cleanup : option H -> M unit) : M A := fun w =>
  match acquire w with
  | (Raise e, w1) =>
    match cleanup None w1 with
    | (Ok _, w2) => (Raise e, w2)
    | (Raise e', w2) => (Raise e', w2)
    end
  | (Ok h, w1) =>
    let '(r, w2) := body h w1 in
    match cleanup h w2 with
    | (Ok _, w3) => (r, w3)
    | (Raise e', w3) => (Raise e', w3)
    end
  end.

(** ** Files *)

(** One [open] or [write] reaches the device: it fails when the
    environment says so. *)
Definition io_step (E : env) : M unit := fun w =>
  let w' := World (self_model w) (disk w) (open_handles w) (S (io_count w))
              (trace w) in
  match io_fault E (io_count w) with
  | Some e => (Raise e, w')
  | None => (Ok tt, w')
  end.

(** [os.path.exists(path)]. *)
Definition path_exists (w : world) (path : string) : bool :=
  bool_decide (is_Some (disk w !! path)).

(** [open(path, "w", encoding="utf-8")]: the file is created or emptied. *)
Definition open_w (E : env) (path : string) : M string :=
  io_step E;;
  modify (fun w => World (self_model w) (<[path := EmptyString]> (disk w))
                     (path :: open_handles w) (io_count w) (trace w));;
  emit (EvOpen path);;
  mret path.

(** [handle.write(data)]. *)
Definition write (E : env) (handle : string) (data : string) : M unit :=
  io_step E;;
  modify (fun w => World (self_model w)
                     (<[handle := default EmptyString (disk w !! handle) +:+ data]> (disk w))
                     (open_handles w) (io_count w) (trace w));;
  emit (EvWrite handle data).

Fixpoint remove_first (x : string) (l : list string) : list string :=
  match l with
  | [] => []
  | y :: l' => if String.eqb x y then l' else y :: remove_first x l'
  end.

(** [handle.close()]. *)
Definition close (handle : string) : M unit :=
  modify (fun w => World (self_model w) (disk w)
                     (remove_first handle (open_handles w)) (io_count w) (trace w));;
  emit (EvClose handle).

(** ** Characters the f-strings of the source escape *)

Definition nl : string := String (ascii_of_N 10) EmptyString.
Definition tab : string := String (ascii_of_N 9) EmptyString.
Definition dquote : string := String (ascii_of_N 34) EmptyString.
Definition bslash : string := String OsPath.backslash EmptyString.

(** ** [json.dump(json_results, f, ensure_ascii=False, indent=2)] *)

Module Json.

Record record := Record_ {
  id : Z;
  start : float;
  end_ : float;
  text : string
}.

Definition hex_digit (n : N) : ascii :=
  if (n <? 10)%N then ascii_of_N (48 + n) else ascii_of_N (87 + n).

(** [ESCAPE_DCT] of [json.encoder]: the quote, the backslash and the
    control characters; every other character, ASCII or not, is kept. *)
Definition escape_char (c : ascii) : string :=
  let n := N_of_ascii c in
  if (n =? 34)%N then bslash +:+ dquote
  else if (n =? 92)%N then bslash +:+ bslash
  else if (n =? 10)%N then bslash +:+ "n"
  else if (n =? 13)%N then bslash +:+ "r"
  else if (n =? 9)%N then bslash +:+ "t"
  else if (n =? 8)%N then bslash +:+ "b"
  else if (n =? 12)%N then bslash +:+ "f"
  else if (n <? 32)%N then
    bslash +:+ "u00" +:+ String (hex_digit (n / 16)) (String (hex_digit (n mod 16)) EmptyString)
  else String c EmptyString.

Fixpoint escape (s : string) : string :=
  match s with
  | EmptyString => EmptyString
  | String c s' => escape_char c +:+ escape s'
  end.

Definition encode_string (s : string) : string := dquote +:+ escape s +:+ dquote.

Definition key (k : string) : string := dquote +:+ k +:+ dquote +:+ ": ".

(** One dict of the list, at nesting level 1 of a 2-space indent. *)
Definition encode_record (float_repr : float -> string) (r : record) : string :=
  "{" +:+ nl +:+
  "    " +:+ key "id" +:+ PyStr.of_int (id r) +:+ "," +:+ nl +:+
  "    " +:+ key "start" +:+ float_repr (start r) +:+ "," +:+ nl +:+
  "    " +:+ key "end" +:+ float_repr (end_ r) +:+ "," +:+ nl +:+
  "    " +:+ key "text" +:+ encode_string (text r) +:+ nl +:+
  "  }".

Fixpoint join (sep : string) (l : list string) : string :=
  match l with
  | [] => EmptyString
  | [x] => x
  | x :: l' => x +:+ sep +:+ join sep l'
  end.

Definition dumps (float_repr : float -> string) (l : list record) : string :=
  match l with
  | [] => "[]"
  | _ =>
    "[" +:+ nl +:+ "  " +:+
    join ("," +:+ nl +:+ "  ") (map (encode_record float_repr) l) +:+
    nl +:+ "]"
  end.

End Json.

(** ** [SubtitleTranscriber.load_model] *)

Definition friendly_msg : string :=
  "啟動 GPU 模式失敗。" +:+ nl +:+
  "原因: 找不到必要的 NVIDIA 驅動程式或 cuDNN 函式庫。" +:+ nl +:+
  "解決方案: 請將「運算單元」切換為 'cpu' 模式。".

(** The test on [str(e).lower()] in the [except] branch. *)
Definition is_gpu_library_error (error_str : string) : bool :=
  PyStr.contains "cudnn" error_str || PyStr.contains "cublas" error_str
  || PyStr.contains "load symbol" error_str || PyStr.contains "dll" error_str.

Definition set_model (m : whisper_model) : M unit :=
  modify (fun w => World (Some m) (disk w) (open_handles w) (io_count w) (trace w)).

Definition load_model (E : env) : M unit :=
  log_callback (LogLoadingModel (model_size E) (device E));;
  log_callback LogFirstRunDownload;;
  try_except
    (emit (EvNewModel (model_size E) (device E) (compute_type E));;
     m ← lift (new_whisper_model E (model_size E) (device E) (compute_type E));
     set_model m;;
     log_callback LogModelLoaded)
    (fun e =>
       let error_str := PyStr.lower (exn_msg e) in
       if is_gpu_library_error error_str then
         log_callback LogMissingGpuLibrary;;
         raise (Exn "RuntimeError" friendly_msg)
       else
         log_callback (LogModelLoadFailed (exn_msg e));;
         raise e).

(** ** [SubtitleTranscriber.run] *)

(** Truth value of [initial_prompt]: [None] and the empty string are false. *)
Definition truthy (initial_prompt : option string) : bool :=
  match initial_prompt with
  | Some s => negb (String.eqb s EmptyString)
  | None => false
  end.

(** The keyword arguments of [self.model.transcribe] (lines 86-91). *)
Definition transcribe_options (initial_prompt : option string) (task : string)
    : gmap string pyval :=
  let options := <["task" := PyString task]> (<["beam_size" := PyInt 5]> ∅) in
  if truthy initial_prompt
  then <["initial_prompt" := PyString (default EmptyString initial_prompt)]> options
  else options.

(** The file extension and the first output path (lines 99-104). *)
Definition ext_of (output_format : string) : string :=
  "." +:+ PyStr.lower output_format.

Definition suffix_of (task : string) : string :=
  if String.eqb task "translate" then ".en" else EmptyString.

Definition base_output_path (fl : OsPath.flavour) (file_path task output_format : string)
    : string :=
  fst (OsPath.splitext fl file_path) +:+ suffix_of task +:+ ext_of output_format.

(** The numbering loop (lines 108-112), run for at most [fuel] rounds:
    [None] when [output_path] still exists after them. *)
Fixpoint number_until_free (fl : OsPath.flavour) (exists_ : string -> bool)
    (base ext : string) (fuel : nat) (counter : Z) (output_path : string)
    : option string :=
  if exists_ output_path then
    match fuel with
    | O => None
    | S fuel' =>
      let path_no_ext := fst (OsPath.splitext fl base) in
      number_until_free fl exists_ base ext fuel' (counter + 1)
        (path_no_ext +:+ "_" +:+ PyStr.of_int counter +:+ ext)
    end
  else Some output_path.

(** The output path of a run (lines 98-112). *)
Definition resolve_output_path (fl : OsPath.flavour) (exists_ : string -> bool)
    (fuel : nat) (file_path task output_format : string) : option string :=
  let base := base_output_path fl file_path task output_format in
  number_until_free fl exists_ base (ext_of output_format) fuel 1 base.

Definition interrupted_marker : string := nl +:+ "[Interrupted by User]" +:+ nl.

(** [cancel_check_callback and cancel_check_callback()], at the [n]-th
    round of the loop. *)
Definition poll (E : env) (n : nat) : M bool :=
  match cancel_check_callback E with
  | None => mret false
  | Some f => emit (EvPoll (f n));; mret (f n)
  end.

(** The body of the loop after the cancellation check (lines 137-174);
    [fmt] is [output_format.lower()]. *)
Definition process_segment (E : env) (fmt : string) (file_handle : option string)
    (i : nat) (seg : segment) (json_results : list Json.record)
    : M (list Json.record) :=
  let text := PyStr.strip (seg_text seg) in
  let start_sec := seg_start seg in
  let end_sec := seg_end seg in
  log_timestamp ← lift (format_timestamp start_sec ",");
  log_callback (LogSegment log_timestamp text);;
  if String.eqb fmt "json" then
    mret (json_results ++ [Json.Record_ (Z.of_nat i) start_sec end_sec text])
  else
    match file_handle with
    | Some h =>
      (if String.eqb fmt "txt" then
         write E h (text +:+ nl)
       else if String.eqb fmt "tsv" then
         start_ms ← lift (PyFloat.to_int (PyFloat.mul start_sec (PyFloat.of_Z 1000)));
         end_ms ← lift (PyFloat.to_int (PyFloat.mul end_sec (PyFloat.of_Z 1000)));
         write E h (PyStr.of_int start_ms +:+ tab +:+ PyStr.of_int end_ms +:+ tab
                    +:+ text +:+ nl)
       else
         let separator := if String.eqb fmt "vtt" then "." else "," in
         start_time_str ← lift (format_timestamp start_sec separator);
         end_time_str ← lift (format_timestamp end_sec separator);
         if String.eqb fmt "srt" then
           write E h (PyStr.of_int (Z.of_nat i + 1) +:+ nl);;
           write E h (start_time_str +:+ " --> " +:+ end_time_str +:+ nl);;
           write E h (text +:+ nl +:+ nl)
         else if String.eqb fmt "vtt" then
           write E h (start_time_str +:+ " --> " +:+ end_time_str +:+ nl);;
           write E h (text +:+ nl +:+ nl)
         else mret tt);;
      mret json_results
    | None => mret json_results
    end.

(** How the loop ends: the sequence is exhausted, or [return None]. *)
Inductive flow :=
| Exhausted (json_results : list Json.record)
| ReturnNone.

(** [for i, segment in enumerate(segments)] (lines 129-174). *)
Fixpoint consume (E : env) (fmt : string) (file_handle : option string)
    (i : nat) (segments : list seg_event) (json_results : list Json.record)
    : M flow :=
  match segments with
  | [] => mret (Exhausted json_results)
  | EngineFault e :: _ => raise e
  | Yield seg :: segments' =>
    emit (EvYield i);;
    cancelled ← poll E i;
    if (cancelled : bool) then
      log_callback LogCancelled;;
      match file_handle with
      | Some h => write E h interrupted_marker
      | None => mret tt
      end;;
      mret ReturnNone
    else
      json_results' ← process_segment E fmt file_handle i seg json_results;
      consume E fmt file_handle (S i) segments' json_results'
  end.

(** The [try] block and its [finally] (lines 117-183). *)
Definition write_output (E : env) (fmt output_path : string)
    (segments : list seg_event) : M flow :=
  try_finally
    (if negb (String.eqb fmt "json") then
       h ← open_w E output_path; mret (Some h)
     else mret None)
    (fun file_handle =>
       match file_handle with
       | Some h =>
         if String.eqb fmt "vtt" then write E h ("WEBVTT" +:+ nl +:+ nl)
         else if String.eqb fmt "tsv" then
           write E h ("start" +:+ tab +:+ "end" +:+ tab +:+ "text" +:+ nl)
         else mret tt
       | None => mret tt
       end;;
       r ← consume E fmt file_handle 0 segments [];
       match r with
       | Exhausted json_results =>
         if String.eqb fmt "json" then
           try_finally (f ← open_w E output_path; mret (Some f))
             (fun f =>
                match f with
                | Some f => write E f (Json.dumps (float_repr E) json_results)
                | None => mret tt
                end)
             (fun f => match f with Some f => close f | None => mret tt end);;
           mret r
         else mret r
       | ReturnNone => mret r
       end)
    (fun file_handle =>
       match file_handle with
       | Some h => close h
       | None => mret tt
       end).

Definition run (E : env) (file_path : string) (output_format : string)
    (initial_prompt : option string) (task : string) : M (option string) :=
  w0 ← get;
  match self_model w0 with
  | None => load_model E
  | Some _ => mret tt
  end;;
  log_callback LogRule;;
  log_callback LogStartTime;;
  log_callback (LogProcessingFile file_path);;
  log_callback (LogTaskMode (String.eqb task "translate"));;
  log_callback (LogOutputFormat output_format);;
  (if truthy initial_prompt && String.eqb task "transcribe" then
     log_callback (LogPromptEnabled (default EmptyString initial_prompt))
   else mret tt);;
  let options := transcribe_options initial_prompt task in
  w1 ← get;
  model ← match self_model w1 with
          | Some m => mret m
          | None => raise (Exn "AttributeError"
                             "'NoneType' object has no attribute 'transcribe'")
          end;
  emit (EvTranscribe file_path options);;
  '(segments, info) ← lift (transcribe model file_path options);
  log_callback (LogDetectedLanguage info);;
  w2 ← get;
  output_path ←
    match resolve_output_path (os_flavour E) (path_exists w2)
            (S (size (disk w2))) file_path task output_format with
    | Some p => mret p
    | None => raise (Exn "NonTermination" "while os.path.exists(output_path)")
    end;
  r ← write_output E (PyStr.lower output_format) output_path segments;
  match r with
  | ReturnNone => mret None
  | Exhausted _ =>
    log_callback LogRule;;
    log_callback LogEndTime;;
    log_callback LogDuration;;
    log_callback (LogSaved output_path);;
    mret (Some output_path)
  end.

(** * The reference description

    The definitions the properties are stated with: the worlds a run leaves
    behind, the record shapes of the formats, and the inputs of the
    examples. *)

(** The world after one more event. *)
Definition record_event (ev : event) (w : world) : world :=
  World (self_model w) (disk w) (open_handles w) (io_count w) (trace w ++ [ev]).

Definition record_events (evs : list event) (w : world) : world :=
  World (self_model w) (disk w) (open_handles w) (io_count w) (trace w ++ evs).

(** The failure [load_model] raises for a constructor failure [e]. *)
Definition classify_load_error (e : exn) : exn :=
  if is_gpu_library_error (PyStr.lower (exn_msg e))
  then Exn "RuntimeError" friendly_msg
  else e.

Definition load_error_log (e : exn) : log_line :=
  if is_gpu_library_error (PyStr.lower (exn_msg e))
  then LogMissingGpuLibrary
  else LogModelLoadFailed (exn_msg e).

Definition load_events (E : env) : list event :=
  [EvLog (LogLoadingModel (model_size E) (device E)); EvLog LogFirstRunDownload;
   EvNewModel (model_size E) (device E) (compute_type E)].

Ltac unfold_monad :=
  unfold mbind, M_bind, mret, M_ret, log_callback, emit, modify, lift, raise,
    get, set_model, try_except in *.

(** An engine that shows which prompt it was given: its only segment
    carries the prompt as text, or [plain] without one. *)
Definition prompt_echo_engine : whisper_model :=
  WhisperModel (fun _ options =>
    let text := match options !! "initial_prompt" with
                | Some (PyString p) => p
                | _ => "plain"
                end in
    Ok ([Yield (Segment (PyFloat.of_Z 0) (PyFloat.of_Z 1) text)],
        TranscriptionInfo "zh" (PyFloat.of_Z 1))).

Definition posix_env (model : whisper_model) (cancel : option (nat -> bool)) : env :=
  Env OsPath.Posix "small" "cpu" "int8" (fun _ _ _ => Ok model) cancel
    (fun _ => None) (fun _ => "0.0").

Definition cold_world : world := World None ∅ [] 0 [].

(** The last component of a path: what follows the last separator. *)
Definition basename (fl : OsPath.flavour) (p : string) : string :=
  PyStr.drop (Z.to_nat (OsPath.rfind (OsPath.is_sep fl) p + 1)) p.

(** No dot and no separator in a string. *)
Definition plain (fl : OsPath.flavour) (s : string) : bool :=
  match OsPath.rindex (Ascii.eqb OsPath.extsep) s,
        OsPath.rindex (OsPath.is_sep fl) s with
  | None, None => true
  | _, _ => false
  end.

(** The paths the claim names: the first candidate for [n = 0], and the
    candidate numbered [n] after it. *)
Definition candidate (fl : OsPath.flavour) (file_path task output_format : string)
    (n : nat) : string :=
  let stem := fst (OsPath.splitext fl file_path) in
  match n with
  | O => stem +:+ suffix_of task +:+ ext_of output_format
  | S _ =>
    stem +:+ suffix_of task +:+ "_" +:+ PyStr.of_int (Z.of_nat n)
    +:+ ext_of output_format
  end.

(** The source takes the stem of a numbered path from the first candidate. *)
Definition numbered (fl : OsPath.flavour) (base ext : string) (counter : Z) : string :=
  fst (OsPath.splitext fl base) +:+ "_" +:+ PyStr.of_int counter +:+ ext.

(** The paths the loop tries, in the order it tries them (lines 104-111):
    the first candidate, then the numbered paths the source builds from it,
    from 1 on. *)
Definition tried (fl : OsPath.flavour) (file_path task output_format : string)
    (n : nat) : string :=
  let base := base_output_path fl file_path task output_format in
  match n with
  | O => base
  | S _ => numbered fl base (ext_of output_format) (Z.of_nat n)
  end.

(** The disk of the examples below: the first candidate is taken. *)
Definition world_with (paths : list string) : world :=
  World None (list_to_map ((fun p => (p, EmptyString)) <$> paths)) [] 0 [].

(** The header a streaming destination starts with. *)
Definition header (fmt : string) : list string :=
  if String.eqb fmt "vtt" then ["WEBVTT" +:+ nl +:+ nl]
  else if String.eqb fmt "tsv" then ["start" +:+ tab +:+ "end" +:+ tab +:+ "text" +:+ nl]
  else [].

(** The strings written for the segment at position [i], one per [write]. *)
Definition segment_chunks (fmt : string) (i : nat) (seg : segment)
    : result (list string) :=
  let text := PyStr.strip (seg_text seg) in
  if String.eqb fmt "json" then Ok []
  else if String.eqb fmt "txt" then Ok [text +:+ nl]
  else if String.eqb fmt "tsv" then
    start_ms ← PyFloat.to_int (PyFloat.mul (seg_start seg) (PyFloat.of_Z 1000));
    end_ms ← PyFloat.to_int (PyFloat.mul (seg_end seg) (PyFloat.of_Z 1000));
    Ok [PyStr.of_int start_ms +:+ tab +:+ PyStr.of_int end_ms +:+ tab +:+ text +:+ nl]
  else
    let separator := if String.eqb fmt "vtt" then "." else "," in
    start_time_str ← format_timestamp (seg_start seg) separator;
    end_time_str ← format_timestamp (seg_end seg) separator;
    if String.eqb fmt "srt" then
      Ok [PyStr.of_int (Z.of_nat i + 1) +:+ nl;
          start_time_str +:+ " --> " +:+ end_time_str +:+ nl;
          text +:+ nl +:+ nl]
    else if String.eqb fmt "vtt" then
      Ok [start_time_str +:+ " --> " +:+ end_time_str +:+ nl; text +:+ nl +:+ nl]
    else Ok [].

(** The record a [json] run keeps for the segment at position [i]. *)
Definition segment_record (i : nat) (seg : segment) : Json.record :=
  Json.Record_ (Z.of_nat i) (seg_start seg) (seg_end seg) (PyStr.strip (seg_text seg)).

Fixpoint records_from (i : nat) (segs : list segment) : list Json.record :=
  match segs with
  | [] => []
  | seg :: segs' => segment_record i seg :: records_from (S i) segs'
  end.

Definition new_records (fmt : string) (i : nat) (segs : list segment)
    : list Json.record :=
  if String.eqb fmt "json" then records_from i segs else [].

(** The [json] document as the description words it: the list of all
    records in the order of arrival, one record per segment, two spaces of
    indentation per level, a comma and a new line between two records;
    [encode_text] is what stands between the quotes of a text. *)
Definition json_field (name value : string) : string :=
  "    " +:+ dquote +:+ name +:+ dquote +:+ ": " +:+ value.

Definition json_record (encode_text : string -> string) (float_repr : float -> string)
    (i : nat) (seg : segment) : string :=
  "  {" +:+ nl
  +:+ json_field "id" (pretty (Z.of_nat i)) +:+ "," +:+ nl
  +:+ json_field "start" (float_repr (seg_start seg)) +:+ "," +:+ nl
  +:+ json_field "end" (float_repr (seg_end seg)) +:+ "," +:+ nl
  +:+ json_field "text"
        (dquote +:+ encode_text (PyStr.strip (seg_text seg)) +:+ dquote) +:+ nl
  +:+ "  }".

Fixpoint json_more (encode_text : string -> string) (float_repr : float -> string)
    (i : nat) (segs : list segment) : string :=
  match segs with
  | [] => EmptyString
  | seg :: segs' =>
    "," +:+ nl +:+ json_record encode_text float_repr i seg
    +:+ json_more encode_text float_repr (S i) segs'
  end.

Definition json_document (encode_text : string -> string)
    (float_repr : float -> string) (segs : list segment) : string :=
  match segs with
  | [] => "[]"
  | seg :: segs' =>
    "[" +:+ nl +:+ json_record encode_text float_repr 0 seg
    +:+ json_more encode_text float_repr 1 segs' +:+ nl +:+ "]"
  end.

(** A text with nothing to escape in it: no quote, no backslash and no
    control character. Every byte of a character outside ASCII is of this
    kind. *)
Definition json_plain_char (c : ascii) : bool :=
  let n := N_of_ascii c in
  ((32 <=? n) && negb (n =? 34) && negb (n =? 92))%N.

Fixpoint json_plain (s : string) : bool :=
  match s with
  | EmptyString => true
  | String c s' => json_plain_char c && json_plain s'
  end.

(** A segment the run can process: its log line and its chunks format. *)
Definition renders (fmt : string) (i : nat) (seg : segment) : Prop :=
  exists log_timestamp chunks,
    format_timestamp (seg_start seg) "," = Ok log_timestamp
    /\ segment_chunks fmt i seg = Ok chunks.

(** The answer of the n-th cancellation poll. *)
Definition cancelled (E : env) (n : nat) : bool :=
  match cancel_check_callback E with
  | Some f => f n
  | None => false
  end.

Definition poll_events (E : env) (n : nat) : list event :=
  match cancel_check_callback E with
  | Some f => [EvPoll (f n)]
  | None => []
  end.

(** The world after a [write] that succeeds. *)
Definition apply_write (h data : string) (w : world) : world :=
  World (self_model w)
    (<[h := default EmptyString (disk w !! h) +:+ data]> (disk w))
    (open_handles w) (S (io_count w)) (trace w ++ [EvWrite h data]).

Definition apply_writes (file_handle : option string) (chunks : list string)
    (w : world) : world :=
  match file_handle with
  | Some h => foldl (fun w d => apply_write h d w) w chunks
  | None => w
  end.

(** The world after an [open] that succeeds. *)
Definition apply_open (path : string) (w : world) : world :=
  World (self_model w) (<[path := EmptyString]> (disk w))
    (path :: open_handles w) (S (io_count w)) (trace w ++ [EvOpen path]).

Definition apply_close (h : string) (w : world) : world :=
  World (self_model w) (disk w) (remove_first h (open_handles w)) (io_count w)
    (trace w ++ [EvClose h]).

(** The world after the segment at position [i] was processed. *)
Definition after_segment (E : env) (fmt : string) (file_handle : option string)
    (i : nat) (seg : segment) (w : world) : world :=
  match format_timestamp (seg_start seg) ",", segment_chunks fmt i seg with
  | Ok log_timestamp, Ok chunks =>
    apply_writes file_handle chunks
      (record_events
         ([EvYield i] ++ poll_events E i
          ++ [EvLog (LogSegment log_timestamp (PyStr.strip (seg_text seg)))]) w)
  | _, _ => w
  end.

Fixpoint after_segments (E : env) (fmt : string) (file_handle : option string)
    (i : nat) (segs : list segment) (w : world) : world :=
  match segs with
  | [] => w
  | seg :: segs' =>
    after_segments E fmt file_handle (S i) segs'
      (after_segment E fmt file_handle i seg w)
  end.

(** The effects of [run] up to the call of the engine (lines 74-94). *)
Definition start_events (file_path output_format : string)
    (initial_prompt : option string) (task : string) : list event :=
  [EvLog LogRule; EvLog LogStartTime; EvLog (LogProcessingFile file_path);
   EvLog (LogTaskMode (String.eqb task "translate"));
   EvLog (LogOutputFormat output_format)]
  ++ (if truthy initial_prompt && String.eqb task "transcribe"
      then [EvLog (LogPromptEnabled (default EmptyString initial_prompt))]
      else [])
  ++ [EvTranscribe file_path (transcribe_options initial_prompt task)].

(** The closing log lines (lines 189-192). *)
Definition end_events (output_path : string) : list event :=
  [EvLog LogRule; EvLog LogEndTime; EvLog LogDuration; EvLog (LogSaved output_path)].

Definition concat_strings (l : list string) : string := foldr String.append EmptyString l.

(** The effects of processing the segment at position [i], in order. *)
Definition segment_events (E : env) (fmt : string) (file_handle : option string)
    (i : nat) (seg : segment) : list event :=
  match format_timestamp (seg_start seg) ",", segment_chunks fmt i seg with
  | Ok log_timestamp, Ok chunks =>
    [EvYield i] ++ poll_events E i
    ++ [EvLog (LogSegment log_timestamp (PyStr.strip (seg_text seg)))]
    ++ match file_handle with
       | Some h => EvWrite h <$> chunks
       | None => []
       end
  | _, _ => []
  end.

Fixpoint segments_events (E : env) (fmt : string) (file_handle : option string)
    (i : nat) (segs : list segment) : list event :=
  match segs with
  | [] => []
  | seg :: segs' =>
    segment_events E fmt file_handle i seg
    ++ segments_events E fmt file_handle (S i) segs'
  end.

(** The text written for the segment at position [i]. *)
Definition segment_written (fmt : string) (i : nat) (seg : segment) : string :=
  match format_timestamp (seg_start seg) ",", segment_chunks fmt i seg with
  | Ok _, Ok chunks => concat_strings chunks
  | _, _ => EmptyString
  end.

Fixpoint segments_written (fmt : string) (i : nat) (segs : list segment) : string :=
  match segs with
  | [] => EmptyString
  | seg :: segs' => segment_written fmt i seg +:+ segments_written fmt (S i) segs'
  end.

(** The world when the engine has answered and its language is logged. *)
Definition started_world (file_path output_format : string)
    (initial_prompt : option string) (task : string) (info : transcription_info)
    (w : world) : world :=
  record_events
    (start_events file_path output_format initial_prompt task
     ++ [EvLog (LogDetectedLanguage info)]) w.

(** The world a run leaves when it consumed [segs] and the sequence ended. *)
Definition completed_world (E : env) (fmt output_path : string)
    (segs : list segment) (w : world) : world :=
  record_events (end_events output_path)
    (if String.eqb fmt "json" then
       apply_close output_path
         (apply_write output_path (Json.dumps (float_repr E) (records_from 0 segs))
            (apply_open output_path (after_segments E fmt None 0 segs w)))
     else
       apply_close output_path
         (after_segments E fmt (Some output_path) 0 segs
            (apply_writes (Some output_path) (header fmt)
               (apply_open output_path w)))).

(** The world a run leaves when the poll before segment [length segs]
    said stop. *)
Definition interrupted_world (E : env) (fmt output_path : string)
    (segs : list segment) (w : world) : world :=
  let stop := [EvYield (length segs)] ++ poll_events E (length segs)
              ++ [EvLog LogCancelled] in
  if String.eqb fmt "json" then
    record_events stop (after_segments E fmt None 0 segs w)
  else
    apply_close output_path
      (apply_write output_path interrupted_marker
         (record_events stop
            (after_segments E fmt (Some output_path) 0 segs
               (apply_writes (Some output_path) (header fmt)
                  (apply_open output_path w))))).

(** The positions of the segments the engine yielded, in order. *)
Definition yields (evs : list event) : list nat :=
  omap (fun ev => match ev with EvYield i => Some i | _ => None end) evs.

(** A computation that leaves the set of open handles as it found it,
    however it ends. *)
Definition handles_kept {A} (m : M A) : Prop :=
  forall w, open_handles (snd (m w)) = open_handles w.

(** The strings written, in order. *)
Definition writes (evs : list event) : list string :=
  omap (fun ev => match ev with EvWrite _ d => Some d | _ => None end) evs.

(** None of the five formats the writer knows. *)
Definition unknown_format (fmt : string) : bool :=
  negb (String.eqb fmt "srt" || String.eqb fmt "vtt" || String.eqb fmt "txt"
        || String.eqb fmt "tsv" || String.eqb fmt "json").

(** [t] is the value of the finite [x] rounded toward zero: with
    [x = ± m * 2^e] and [t = ± a], [a <= m * 2^e < a + 1]. *)
Definition truncated (x : float) (t : Z) : Prop :=
  match x with
  | S754_zero _ => t = 0
  | S754_finite s m e =>
    exists a : Z,
      t = (if s then - a else a) /\ 0 <= a
      /\ a * 2 ^ Z.max 0 (- e) <= Zpos m * 2 ^ Z.max 0 e
         < (a + 1) * 2 ^ Z.max 0 (- e)
  | _ => False
  end.

(** Two segments in Chinese, with blanks around the text. *)
Definition two_segments_zh : list segment :=
  [Segment (PyFloat.decimal 0 1) (PyFloat.decimal 15 1) " 你好，世界";
   Segment (PyFloat.decimal 15 1) (PyFloat.decimal 30 1) "字幕 "].

(** [repr] on the times of these segments, and the platform of that run. *)
Definition repr_of_halves (x : float) : string :=
  if SFeqb x (PyFloat.decimal 0 1) then "0.0"
  else if SFeqb x (PyFloat.decimal 15 1) then "1.5"
  else if SFeqb x (PyFloat.decimal 30 1) then "3.0"
  else "nan".

Definition zh_engine : whisper_model :=
  WhisperModel (fun _ _ =>
    Ok (Yield <$> two_segments_zh, TranscriptionInfo "zh" (PyFloat.of_Z 1))).

Definition zh_env : env :=
  Env OsPath.Posix "small" "cpu" "int8" (fun _ _ _ => Ok zh_engine)
    None (fun _ => None) repr_of_halves.

(** Five segments of one and a half seconds each. *)
Definition five_segments : list segment :=
  [Segment (PyFloat.decimal 0 1) (PyFloat.decimal 15 1) " Hello";
   Segment (PyFloat.decimal 15 1) (PyFloat.decimal 30 1) " World ";
   Segment (PyFloat.decimal 30 1) (PyFloat.decimal 45 1) "three";
   Segment (PyFloat.decimal 45 1) (PyFloat.decimal 60 1) "four";
   Segment (PyFloat.decimal 60 1) (PyFloat.decimal 75 1) "five"].

(** An engine that yields the given sequence for every file. *)
Definition fixed_engine (segments : list seg_event) : whisper_model :=
  WhisperModel (fun _ _ => Ok (segments, TranscriptionInfo "en" (PyFloat.of_Z 1))).

Definition warm_world (m : whisper_model) : world := World (Some m) ∅ [] 0 [].

(** The poll says stop from its third call on. *)
Definition stop_before_third (n : nat) : bool := Nat.leb 2 n.

(** An engine that cannot be built for want of a GPU library. *)
Definition no_gpu_env : env :=
  Env OsPath.Posix "small" "cuda" "float16"
    (fun _ _ _ => Raise (Exn "RuntimeError" "Library libcublas.so.12 is not found"))
    None (fun _ => None) (fun _ => "0.0").

Ltac render_all H :=
  let j := fresh "j" in
  let s := fresh "s" in
  intros j s H;
  repeat (destruct j as [|j]; [injection H as <-; eexists; eexists; split;
                                vm_compute; reflexivity|]);
  discriminate H.

(** ** Time codes and binary64 roundings *)

(** Powers of two as atoms, for [lia] and [nia]. *)
Ltac pow_atoms :=
  repeat match goal with
         | |- context [2 ^ ?e] =>
           let x := fresh "pw" in set (x := 2 ^ e) in *; clearbody x
         | H : context [2 ^ ?e] |- _ =>
           let x := fresh "pw" in set (x := 2 ^ e) in *; clearbody x
         end.

Abbreviation fexp64 := (fexp PyFloat.prec PyFloat.emax).

(** The float a mantissa and an exponent give once they are brought to the
    format: the last step of [binary_round_aux]. *)
Definition fit (m e : Z) : float :=
  let e' := e + Z.max 0 (fexp64 (Zdigits2 m + e) - e) in
  match m / 2 ^ (e' - e) with
  | Z0 => S754_zero false
  | Zpos p => if e' <=? 971 then S754_finite false p e' else S754_infinity false
  | Zneg _ => S754_nan
  end.

(** A non-negative mantissa with its exponent, as a float. *)
Definition finite_or_zero (m e : Z) : float :=
  match m with
  | Z0 => S754_zero false
  | Zpos p => S754_finite false p e
  | Zneg _ => S754_nan
  end.

(** The time code of a whole number of microseconds (lines 57-62). *)
Definition clock (us : Z) (separator : string) : string :=
  let total_seconds := us / 1000000 in
  PyStr.format_zero 2 (total_seconds / 3600) +:+ ":"
  +:+ PyStr.format_zero 2 ((total_seconds mod 3600) / 60) +:+ ":"
  +:+ PyStr.format_zero 2 (total_seconds mod 60) +:+ separator
  +:+ PyStr.format_zero 3 ((us mod 1000000) / 1000).

(** [us] is the finite non-negative [x] in microseconds, within half a
    microsecond and [2^-32]: with [x = m * 2^e],
    [|us - 10^6 * m * 2^e| < 1/2 + 2^-32]. *)
Definition rounds_to_microseconds (x : float) (us : Z) : Prop :=
  match x with
  | S754_zero _ => us = 0
  | S754_finite false m e =>
    2 ^ 32 * Z.abs (us * 2 ^ Z.max 0 (- e) - 1000000 * Zpos m * 2 ^ Z.max 0 e)
    < (2 ^ 31 + 1) * 2 ^ Z.max 0 (- e)
  | _ => False
  end.

(** A decimal digit. *)
Definition is_digit (c : ascii) : bool :=
  let n := N_of_ascii c in ((48 <=? n) && (n <=? 57))%N.

Fixpoint all_digits (s : string) : bool :=
  match s with
  | EmptyString => true
  | String c s' => is_digit c && all_digits s'
  end.

(** A field of a time code: decimal digits only, [width] of them, or at
    least [width] when the field is [open]. *)
Definition field (open : bool) (width : nat) (s : string) : bool :=
  all_digits s
  && (if open then Nat.leb width (String.length s)
      else Nat.eqb (String.length s) width).

(** The layout [HH:MM:SS<sep>mmm]: hours of two digits or more, minutes
    and seconds of two, milliseconds of three. *)
Definition time_code (separator : string) (s : string) : Prop :=
  exists hh mm ss mmm,
    s = hh +:+ ":" +:+ mm +:+ ":" +:+ ss +:+ separator +:+ mmm
    /\ field true 2 hh = true /\ field false 2 mm = true
    /\ field false 2 ss = true /\ field false 3 mmm = true.

(** ** Relations between the world before and after a computation *)

(** [m] takes every world to one that [R] relates to it, however it ends. *)
Definition keeps {A} (R : world -> world -> Prop) (m : M A) : Prop :=
  forall w, R w (snd (m w)).

(** The disk is the same except at [out]. *)
Definition same_except (out : string) (w w' : world) : Prop :=
  forall p, p <> out -> disk w' !! p = disk w !! p.

(** No file is removed. *)
Definition files_stay (w w' : world) : Prop :=
  forall p, is_Some (disk w !! p) -> is_Some (disk w' !! p).

(** The history grows by events that satisfy [P]. *)
Definition extends_with (P : event -> Prop) (w w' : world) : Prop :=
  exists new, trace w' = trace w ++ new /\ Forall P new.

(** [self.model] is the same. *)
Definition same_model (w w' : world) : Prop := self_model w' = self_model w.

(** The events of the [try] block of a run that writes to [out]: the
    loop's events, and [open], [write] and [close] of [out] only. *)
Definition output_event (out : string) (ev : event) : Prop :=
  match ev with
  | EvOpen p | EvWrite p _ | EvClose p => p = out
  | EvNewModel _ _ _ | EvTranscribe _ _ => False
  | EvLog _ | EvYield _ | EvPoll _ => True
  end.

(** The elementary steps of the world. *)
Definition bump_io (w : world) : world :=
  World (self_model w) (disk w) (open_handles w) (S (io_count w)) (trace w).

Definition with_file (path content : string) (w : world) : world :=
  World (self_model w) (<[path := content]> (disk w)) (open_handles w) (io_count w)
    (trace w).

Definition with_handles (l : list string) (w : world) : world :=
  World (self_model w) (disk w) l (io_count w) (trace w).

Definition with_model (m : whisper_model) (w : world) : world :=
  World (Some m) (disk w) (open_handles w) (io_count w) (trace w).

(** The engine a run works with: the loaded one, or a new one. *)
Definition engine_of (E : env) (w : world) : result whisper_model :=
  match self_model w with
  | Some m => Ok m
  | None => new_whisper_model E (model_size E) (device E) (compute_type E)
  end.

(** The events of loading, when the run had to load. *)
Definition load_part (E : env) (w : world) : list event :=
  match self_model w with
  | Some _ => []
  | None => load_events E ++ [EvLog LogModelLoaded]
  end.

(** The end of a run, from the outcome of its [try] block (lines 185-194). *)
Definition finish (output_path : string) (rw : result flow * world)
    : result (option string) * world :=
  match rw with
  | (Ok ReturnNone, w) => (Ok None, w)
  | (Ok (Exhausted _), w) =>
    (Ok (Some output_path), record_events (end_events output_path) w)
  | (Raise e, w) => (Raise e, w)
  end.

(** A run, step by step: the engine, the call, the path, the [try] block. *)
Definition run_steps (E : env) (file_path output_format : string)
    (initial_prompt : option string) (task : string) (w : world)
    : result (option string) * world :=
  match engine_of E w with
  | Raise e =>
    (Raise (classify_load_error e),
     record_events (load_events E ++ [EvLog (load_error_log e)]) w)
  | Ok m =>
    let w1 := record_events
                (load_part E w
                 ++ start_events file_path output_format initial_prompt task)
                (with_model m w) in
    match transcribe m file_path (transcribe_options initial_prompt task) with
    | Raise e => (Raise e, w1)
    | Ok (segments, info) =>
      let w2 := record_event (EvLog (LogDetectedLanguage info)) w1 in
      match resolve_output_path (os_flavour E) (path_exists w)
              (S (size (disk w))) file_path task output_format with
      | None =>
        (Raise (Exn "NonTermination" "while os.path.exists(output_path)"), w2)
      | Some output_path =>
        finish output_path
          (write_output E (PyStr.lower output_format) output_path segments w2)
      end
    end
  end.

(** The engine calls and the engine constructions in a history. *)
Definition engine_calls (evs : list event) : list (string * gmap string pyval) :=
  omap (fun ev => match ev with EvTranscribe f o => Some (f, o) | _ => None end) evs.

Definition engines_built (evs : list event) : list (string * string * string) :=
  omap (fun ev => match ev with EvNewModel a b c => Some (a, b, c) | _ => None end) evs.

(** The engine yields two segments and fails at the third. *)
Definition two_then_fault : list seg_event :=
  (Yield <$> take 2 five_segments) ++ [EngineFault (Exn "RuntimeError" "decoder failed")].

(** * Properties *)

(** ** Strings *)

Lemma str_app_nil_l (s : string) : EmptyString +:+ s = s.
Proof. reflexivity. Qed.

Lemma str_app_cons (c : ascii) (s t : string) : String c s +:+ t = String c (s +:+ t).
Proof. reflexivity. Qed.

Lemma str_app_nil_r (s : string) : s +:+ EmptyString = s.
Proof. induction s as [|c s IH]; [reflexivity|]. rewrite str_app_cons, IH. reflexivity. Qed.

Lemma str_app_assoc (s t u : string) : (s +:+ t) +:+ u = s +:+ (t +:+ u).
Proof.
  induction s as [|c s IH]; [reflexivity|].
  rewrite !str_app_cons, IH. reflexivity.
Qed.

Lemma str_length_app (s t : string) :
  String.length (s +:+ t) = (String.length s + String.length t)%nat.
Proof.
  induction s as [|c s IH]; [reflexivity|].
  rewrite str_app_cons. simpl. rewrite IH. reflexivity.
Qed.

(** Cancellation of a common ending. *)
Lemma str_app_inv_tail (s1 s2 t : string) : s1 +:+ t = s2 +:+ t -> s1 = s2.
Proof.
  revert s2. induction s1 as [|c s1 IH]; intros [|d s2] H.
  - reflexivity.
  - apply (f_equal String.length) in H. rewrite str_app_nil_l, str_length_app in H.
    simpl in H. lia.
  - apply (f_equal String.length) in H. rewrite str_app_nil_l, str_length_app in H.
    simpl in H. lia.
  - rewrite !str_app_cons in H. injection H as -> H. f_equal. apply IH, H.
Qed.

(** ** The monad *)

Lemma bind_unfold {A B} (m : M A) (k : A -> M B) (w : world) :
  (m ≫= k) w = match m w with
               | (Ok a, w') => k a w'
               | (Raise e, w') => (Raise e, w')
               end.
Proof. reflexivity. Qed.

Lemma bind_ok {A B} (m : M A) (k : A -> M B) (w w' : world) (a : A) :
  m w = (Ok a, w') -> (m ≫= k) w = k a w'.
Proof. intros H. rewrite bind_unfold, H. reflexivity. Qed.

Lemma bind_raise {A B} (m : M A) (k : A -> M B) (w w' : world) (e : exn) :
  m w = (Raise e, w') -> (m ≫= k) w = (Raise e, w').
Proof. intros H. rewrite bind_unfold, H. reflexivity. Qed.

Lemma ret_unfold {A} (a : A) (w : world) : @mret M _ A a w = (Ok a, w).
Proof. reflexivity. Qed.

Lemma emit_spec (ev : event) (w : world) : emit ev w = (Ok tt, record_event ev w).
Proof. reflexivity. Qed.

Lemma record_events_nil (w : world) : record_events [] w = w.
Proof. destruct w. unfold record_events. simpl. rewrite List.app_nil_r. reflexivity. Qed.

Lemma record_events_app (evs evs' : list event) (w : world) :
  record_events evs' (record_events evs w) = record_events (evs ++ evs') w.
Proof. unfold record_events. simpl. rewrite <- List.app_assoc. reflexivity. Qed.

Lemma record_event_events (ev : event) (w : world) :
  record_event ev w = record_events [ev] w.
Proof. reflexivity. Qed.

(** ** Engine initialisation *)

Lemma load_model_fails (E : env) (e : exn) (w : world) :
  new_whisper_model E (model_size E) (device E) (compute_type E) = Raise e ->
  load_model E w =
    (Raise (classify_load_error e),
     record_events (load_events E ++ [EvLog (load_error_log e)]) w).
Proof.
  intros H. unfold load_model, classify_load_error, load_error_log, record_events.
  unfold_monad. simpl. rewrite H.
  destruct (is_gpu_library_error _); simpl;
    rewrite <- !List.app_assoc; reflexivity.
Qed.

Lemma load_model_succeeds (E : env) (m : whisper_model) (w : world) :
  new_whisper_model E (model_size E) (device E) (compute_type E) = Ok m ->
  load_model E w =
    (Ok tt,
     World (Some m) (disk w) (open_handles w) (io_count w)
       (trace w ++ load_events E ++ [EvLog LogModelLoaded])).
Proof.
  intros H. unfold load_model. unfold_monad. simpl. rewrite H. simpl.
  rewrite <- !List.app_assoc. reflexivity.
Qed.

(** C8: with no engine yet, [run] starts by building one. When that fails,
    the run fails at once: the error is the remediation message (switch to
    'cpu') as a RuntimeError when the lower-cased message names a GPU
    library, and the constructor's own exception otherwise; the disk and
    the file handles are as before and no file was opened. When it
    succeeds, the run goes on as a run with that engine. *)
Theorem run_initializes_engine_first (E : env) (file_path output_format : string)
    (initial_prompt : option string) (task : string) (w : world) :
  self_model w = None ->
  (forall e,
     new_whisper_model E (model_size E) (device E) (compute_type E) = Raise e ->
     run E file_path output_format initial_prompt task w =
       (Raise (if is_gpu_library_error (PyStr.lower (exn_msg e))
               then Exn "RuntimeError" friendly_msg else e),
        World None (disk w) (open_handles w) (io_count w)
          (trace w ++ load_events E ++ [EvLog (load_error_log e)])))
  /\ (forall m,
        new_whisper_model E (model_size E) (device E) (compute_type E) = Ok m ->
        run E file_path output_format initial_prompt task w =
          run E file_path output_format initial_prompt task
            (World (Some m) (disk w) (open_handles w) (io_count w)
               (trace w ++ load_events E ++ [EvLog LogModelLoaded])))
  /\ PyStr.contains "'cpu'" friendly_msg = true.
Proof.
  intros Hnone. split; [|split].
  - intros e He. unfold run. rewrite bind_unfold. unfold get at 1.
    rewrite Hnone. rewrite bind_unfold, (load_model_fails E e w He).
    unfold record_events, classify_load_error. rewrite Hnone. reflexivity.
  - intros m Hm. unfold run at 1. rewrite bind_unfold. unfold get at 1.
    rewrite Hnone. rewrite bind_unfold, (load_model_succeeds E m w Hm).
    unfold run. rewrite bind_unfold. unfold get at 1. simpl self_model.
    rewrite bind_unfold. reflexivity.
  - vm_compute. reflexivity.
Qed.

(** ** The prompt and the task *)

Lemma transcribe_options_prompt (c : ascii) (s task : string) :
  transcribe_options (Some (String c s)) task !! "initial_prompt"
  = Some (PyString (String c s)).
Proof. unfold transcribe_options. simpl. apply lookup_insert_eq. Qed.

(** C1 (what the code does): a non-empty [initial_prompt] is passed to the
    engine for every task, [translate] included; only the log line
    announcing the prompt depends on the task. On the echo engine a
    translate run writes the prompt as the subtitle text. *)
Theorem translate_run_passes_prompt :
  (forall c s task,
     transcribe_options (Some (String c s)) task !! "initial_prompt"
     = Some (PyString (String c s)))
  /\ (let '(r, w) := run (posix_env prompt_echo_engine None) "a.mp4" "txt"
                       (Some "PROMPT") "translate" cold_world in
      r = Ok (Some "a.en.txt")
      /\ disk w !! "a.en.txt" = Some ("PROMPT" +:+ nl)
      /\ EvTranscribe "a.mp4" (transcribe_options (Some "PROMPT") "translate")
         ∈ trace w
      /\ EvLog (LogPromptEnabled "PROMPT") ∉ trace w).
Proof.
  split; [apply transcribe_options_prompt|].
  vm_compute. repeat split; try reflexivity.
  - apply list_elem_of_In. vm_compute. tauto.
  - intros H%list_elem_of_In. vm_compute in H.
    repeat (destruct H as [H|H]; [discriminate H|]). exact H.
Qed.

(** ** The output path *)

Lemma take_app_exact (a b : string) : PyStr.take (String.length a) (a +:+ b) = a.
Proof.
  induction a as [|c a IH]; simpl.
  - destruct b; reflexivity.
  - rewrite IH. reflexivity.
Qed.

Lemma drop_app_exact (a b : string) : PyStr.drop (String.length a) (a +:+ b) = b.
Proof.
  induction a as [|c a IH]; simpl.
  - destruct b; reflexivity.
  - exact IH.
Qed.

Lemma drop_app_le (n : nat) (a b : string) :
  (n <= String.length a)%nat -> PyStr.drop n (a +:+ b) = PyStr.drop n a +:+ b.
Proof.
  revert a. induction n as [|n IH]; intros a Hn.
  - destruct a, b; reflexivity.
  - destruct a as [|c a]; simpl in Hn; [lia|].
    rewrite str_app_cons. simpl. apply IH. lia.
Qed.

Lemma length_drop (n : nat) (a : string) :
  String.length (PyStr.drop n a) = (String.length a - n)%nat.
Proof.
  revert a. induction n as [|n IH]; intros a.
  - destruct a; simpl; lia.
  - destruct a as [|c a]; simpl; [reflexivity|]. apply IH.
Qed.

Lemma take_drop_app (n : nat) (a b : string) :
  (n <= String.length a)%nat ->
  PyStr.take (String.length a - n) (PyStr.drop n (a +:+ b)) = PyStr.drop n a.
Proof.
  intros Hn. rewrite drop_app_le by exact Hn.
  rewrite <- (length_drop n a). apply take_app_exact.
Qed.

Lemma rindex_app (p : ascii -> bool) (a b : string) :
  OsPath.rindex p (a +:+ b) =
    match OsPath.rindex p b with
    | Some i => Some (String.length a + i)%nat
    | None => OsPath.rindex p a
    end.
Proof.
  induction a as [|c a IH].
  - rewrite str_app_nil_l. simpl. destruct (OsPath.rindex p b); reflexivity.
  - rewrite str_app_cons. simpl. rewrite IH.
    destruct (OsPath.rindex p b); reflexivity.
Qed.

Lemma rindex_lt (p : ascii -> bool) (s : string) (i : nat) :
  OsPath.rindex p s = Some i -> (i < String.length s)%nat.
Proof.
  revert i. induction s as [|c s IH]; intros i; simpl; [discriminate|].
  destruct (OsPath.rindex p s) as [j|].
  - intros [= <-]. specialize (IH j eq_refl). lia.
  - destruct (p c); [|discriminate]. intros [= <-]. lia.
Qed.

Lemma extsep_not_sep (fl : OsPath.flavour) : OsPath.is_sep fl OsPath.extsep = false.
Proof. destruct fl; reflexivity. Qed.

(** [splitext] undoes the appending of a plain extension, when the file
    name before it is not made of dots only. *)
Lemma splitext_app_ext (fl : OsPath.flavour) (a e : string) :
  plain fl e = true ->
  OsPath.all_dots (basename fl a) = false ->
  OsPath.splitext fl (a +:+ "." +:+ e) = (a, "." +:+ e).
Proof.
  unfold plain. intros Hplain Hname.
  destruct (OsPath.rindex (Ascii.eqb OsPath.extsep) e) eqn:Hdot; [discriminate|].
  destruct (OsPath.rindex (OsPath.is_sep fl) e) eqn:Hsep; [discriminate|].
  unfold OsPath.splitext, OsPath.rfind.
  rewrite !rindex_app. change ("." +:+ e) with (String OsPath.extsep e).
  simpl OsPath.rindex. rewrite Hdot, Hsep.
  replace (OsPath.is_sep fl ".") with false by (destruct fl; reflexivity).
  unfold basename, OsPath.rfind in Hname.
  destruct (OsPath.rindex (OsPath.is_sep fl) a) as [j|] eqn:Hj.
  - apply rindex_lt in Hj.
    replace (Z.of_nat (String.length a + 0) >? Z.of_nat j) with true
      by (symmetry; apply Z.gtb_lt; lia).
    replace (Z.to_nat (Z.of_nat (String.length a + 0) - (Z.of_nat j + 1)))
      with (String.length a - S j)%nat by lia.
    replace (Z.to_nat (Z.of_nat j + 1)) with (S j) in * by lia.
    rewrite take_drop_app by lia. rewrite Hname.
    replace (Z.to_nat (Z.of_nat (String.length a + 0))) with (String.length a) by lia.
    rewrite take_app_exact, drop_app_exact. reflexivity.
  - replace (Z.of_nat (String.length a + 0) >? -1) with true
      by (symmetry; apply Z.gtb_lt; lia).
    replace (Z.to_nat (Z.of_nat (String.length a + 0) - (-1 + 1)))
      with (String.length a - 0)%nat by lia.
    replace (Z.to_nat (-1 + 1)) with 0%nat in * by lia.
    rewrite take_drop_app by lia. rewrite Hname.
    replace (Z.to_nat (Z.of_nat (String.length a + 0))) with (String.length a) by lia.
    rewrite take_app_exact, drop_app_exact. reflexivity.
Qed.

Lemma take_drop_eq (n : nat) (s : string) : PyStr.take n s +:+ PyStr.drop n s = s.
Proof.
  revert s. induction n as [|n IH]; intros s.
  - destruct s; reflexivity.
  - destruct s as [|c s]; [reflexivity|]. simpl. rewrite str_app_cons, IH. reflexivity.
Qed.

Lemma length_take (n : nat) (s : string) :
  (n <= String.length s)%nat -> String.length (PyStr.take n s) = n.
Proof.
  revert s. induction n as [|n IH]; intros s Hn.
  - destruct s; reflexivity.
  - destruct s as [|c s]; simpl in *; [lia|]. rewrite IH by lia. reflexivity.
Qed.

Lemma drop_take (f d : nat) (s : string) :
  PyStr.drop f (PyStr.take d s) = PyStr.take (d - f) (PyStr.drop f s).
Proof.
  revert d s. induction f as [|f IH]; intros d s.
  - rewrite Nat.sub_0_r. destruct s, d; reflexivity.
  - destruct d as [|d]; destruct s as [|c s]; simpl; try reflexivity.
    + destruct (d - f)%nat; reflexivity.
    + apply IH.
Qed.

(** Cutting a string after its last match keeps the last match. *)
Lemma rindex_take (p : ascii -> bool) (s : string) (d : nat) :
  (d <= String.length s)%nat ->
  (forall j, OsPath.rindex p s = Some j -> (j < d)%nat) ->
  OsPath.rindex p (PyStr.take d s) = OsPath.rindex p s.
Proof.
  intros Hd Hlt. rewrite <- (take_drop_eq d s) at 2. rewrite rindex_app.
  destruct (OsPath.rindex p (PyStr.drop d s)) as [i|] eqn:Hi; [|reflexivity].
  exfalso. specialize (Hlt (String.length (PyStr.take d s) + i)%nat).
  rewrite <- (take_drop_eq d s) in Hlt at 1. rewrite rindex_app, Hi in Hlt.
  specialize (Hlt eq_refl). rewrite length_take in Hlt by exact Hd. lia.
Qed.

(** The stem of a file whose name is not made of dots has such a name. *)
Lemma basename_stem (fl : OsPath.flavour) (file_path : string) :
  OsPath.all_dots (basename fl file_path) = false ->
  OsPath.all_dots (basename fl (fst (OsPath.splitext fl file_path))) = false.
Proof.
  intros Hname. unfold OsPath.splitext.
  destruct (_ >? _) eqn:Hgt; [|exact Hname].
  destruct (OsPath.all_dots (PyStr.take _ _)) eqn:Hdots; [exact Hname|]. simpl fst.
  apply Z.gtb_lt in Hgt. unfold OsPath.rfind in *.
  destruct (OsPath.rindex (Ascii.eqb OsPath.extsep) file_path) as [d|] eqn:Hd.
  2:{ destruct (OsPath.rindex (OsPath.is_sep fl) file_path); lia. }
  pose proof (rindex_lt _ _ _ Hd) as Hdlen.
  unfold basename, OsPath.rfind. rewrite Nat2Z.id.
  rewrite rindex_take.
  - rewrite drop_take.
    destruct (OsPath.rindex (OsPath.is_sep fl) file_path) as [j|].
    + replace (Z.to_nat (Z.of_nat d - (Z.of_nat j + 1)))
        with (d - Z.to_nat (Z.of_nat j + 1))%nat in Hdots by lia.
      exact Hdots.
    + replace (Z.to_nat (Z.of_nat d - (-1 + 1)))
        with (d - Z.to_nat (-1 + 1))%nat in Hdots by lia.
      exact Hdots.
  - lia.
  - intros j Hj. rewrite Hj in Hgt. lia.
Qed.

Lemma all_dots_app_en (x : string) : OsPath.all_dots (x +:+ ".en") = false.
Proof.
  induction x as [|c x IH]; [reflexivity|].
  rewrite str_app_cons. simpl. rewrite IH. apply andb_false_r.
Qed.

(** With the [.en] suffix the name is never made of dots only. *)
Lemma basename_en (fl : OsPath.flavour) (a : string) :
  OsPath.all_dots (basename fl (a +:+ ".en")) = false.
Proof.
  unfold basename, OsPath.rfind. rewrite rindex_app.
  replace (OsPath.rindex (OsPath.is_sep fl) ".en") with (@None nat)
    by (destruct fl; reflexivity).
  destruct (OsPath.rindex (OsPath.is_sep fl) a) as [j|] eqn:Hj.
  - apply rindex_lt in Hj. rewrite drop_app_le by lia. apply all_dots_app_en.
  - change (Z.to_nat (-1 + 1)) with 0%nat.
    rewrite drop_app_le by lia. apply all_dots_app_en.
Qed.

Lemma numbered_inj (fl : OsPath.flavour) (base ext : string) (c c' : Z) :
  numbered fl base ext c = numbered fl base ext c' -> c = c'.
Proof.
  unfold numbered. intros H. apply String.app_inj in H.
  rewrite !str_app_cons, !str_app_nil_l in H. injection H as H.
  apply app_inv_tail in H || apply str_app_inv_tail in H.
  apply (inj pretty) in H. exact H.
Qed.

Lemma number_until_free_free (fl : OsPath.flavour) (exists_ : string -> bool)
    (base ext : string) (fuel : nat) (c : Z) (p : string) :
  exists_ p = false ->
  number_until_free fl exists_ base ext fuel c p = Some p.
Proof. intros H. destruct fuel; simpl; rewrite H; reflexivity. Qed.

(** The loop returns the first numbered path that does not exist, when
    the fuel reaches it. *)
Lemma number_until_free_first (fl : OsPath.flavour) (exists_ : string -> bool)
    (base ext : string) (k : nat) :
  forall (fuel : nat) (c : Z) (p : string),
    exists_ p = true ->
    (forall j, (j < k)%nat -> exists_ (numbered fl base ext (c + Z.of_nat j)) = true) ->
    exists_ (numbered fl base ext (c + Z.of_nat k)) = false ->
    (k < fuel)%nat ->
    number_until_free fl exists_ base ext fuel c p
    = Some (numbered fl base ext (c + Z.of_nat k)).
Proof.
  induction k as [|k IH]; intros fuel c p Hp Hbefore Hfree Hfuel.
  - destruct fuel as [|fuel]; [lia|]. simpl. rewrite Hp.
    rewrite Z.add_0_r in *. apply number_until_free_free. exact Hfree.
  - destruct fuel as [|fuel]; [lia|]. simpl. rewrite Hp.
    replace (c + Z.of_nat (S k)) with ((c + 1) + Z.of_nat k) in * by lia.
    apply IH.
    + specialize (Hbefore 0%nat ltac:(lia)). rewrite Z.add_0_r in Hbefore.
      exact Hbefore.
    + intros j Hj. specialize (Hbefore (S j) ltac:(lia)).
      replace (c + Z.of_nat (S j)) with (c + 1 + Z.of_nat j) in Hbefore by lia.
      exact Hbefore.
    + exact Hfree.
    + lia.
Qed.

(** The first [false] of a boolean sequence, below a bound. *)
Lemma first_false (f : nat -> bool) (n : nat) :
  (forall j, (j < n)%nat -> f j = true)
  \/ exists k, (k < n)%nat /\ f k = false /\ forall j, (j < k)%nat -> f j = true.
Proof.
  induction n as [|n [IH|(k & Hk & Hf & Hb)]].
  - left. intros j Hj. lia.
  - destruct (f n) eqn:Hn.
    + left. intros j Hj. destruct (decide (j = n)) as [->|]; [exact Hn|].
      apply IH. lia.
    + right. exists n. split; [lia|]. split; [exact Hn|exact IH].
  - right. exists k. split; [lia|]. split; assumption.
Qed.

(** More distinct paths than the disk holds cannot all exist. *)
Lemma not_all_exist (w : world) (cand : nat -> string) :
  (forall i j, cand i = cand j -> i = j) ->
  ~ (forall j, (j < S (size (disk w)))%nat -> path_exists w (cand j) = true).
Proof.
  intros Hinj Hall.
  set (l := cand <$> seq 0 (S (size (disk w)))).
  assert (NoDup l) as Hnd.
  { apply NoDup_fmap_2; [intros i j; apply Hinj|apply NoDup_seq]. }
  assert (list_to_set l ⊆ dom (disk w)) as Hsub.
  { intros p Hp. apply elem_of_list_to_set in Hp.
    apply list_elem_of_fmap in Hp as (j & -> & Hj). apply elem_of_seq in Hj.
    specialize (Hall j ltac:(lia)). unfold path_exists in Hall.
    apply bool_decide_eq_true in Hall. apply elem_of_dom. exact Hall. }
  apply subseteq_size in Hsub.
  rewrite size_list_to_set in Hsub by exact Hnd.
  rewrite size_dom in Hsub. unfold l in Hsub.
  rewrite length_fmap, length_seq in Hsub. lia.
Qed.

Lemma suffix_of_translate (task : string) :
  suffix_of task = ".en" <-> task = "translate".
Proof.
  unfold suffix_of. destruct (String.eqb_spec task "translate") as [->|Hne].
  - split; reflexivity.
  - split; [discriminate|]. intros ->. contradiction.
Qed.

(** The loop returns the first path it tries that does not exist, and it
    finds one before it has tried more paths than the disk has files: for
    every source path, task and format. *)
Lemma resolve_output_path_tried (fl : OsPath.flavour) (w : world)
    (file_path task output_format : string) :
  exists n : nat,
    resolve_output_path fl (path_exists w) (S (size (disk w)))
      file_path task output_format
    = Some (tried fl file_path task output_format n)
    /\ path_exists w (tried fl file_path task output_format n) = false
    /\ (forall j, (j < n)%nat ->
          path_exists w (tried fl file_path task output_format j) = true).
Proof.
  unfold resolve_output_path, tried.
  set (base := base_output_path fl file_path task output_format).
  set (ext := ext_of output_format).
  destruct (path_exists w base) eqn:Hbase.
  - destruct (first_false
                (fun j => path_exists w (numbered fl base ext (1 + Z.of_nat j)))
                (S (size (disk w)))) as [Hall|(k & Hk & Hfree & Hbefore)].
    + exfalso. revert Hall. apply not_all_exist.
      intros i j Hij. apply numbered_inj in Hij. lia.
    + exists (S k).
      replace (Z.of_nat (S k)) with (1 + Z.of_nat k) by lia.
      split; [|split].
      * apply number_until_free_first; assumption.
      * exact Hfree.
      * intros [|j] Hj; [exact Hbase|].
        replace (Z.of_nat (S j)) with (1 + Z.of_nat j) by lia.
        apply Hbefore. lia.
  - exists 0%nat. split; [|split].
    + apply number_until_free_free. exact Hbase.
    + exact Hbase.
    + intros j Hj. lia.
Qed.

(** For a format without a dot or a separator and a source whose file
    name is not empty and not made of dots only (or any source when the
    task is [translate]), the numbered paths the source builds are
    [<stem><suffix>_<n>.<ext>]. *)
Lemma tried_candidate (fl : OsPath.flavour) (file_path task output_format : string) :
  plain fl (PyStr.lower output_format) = true ->
  String.eqb task "translate" || negb (OsPath.all_dots (basename fl file_path)) = true ->
  forall n, tried fl file_path task output_format n
            = candidate fl file_path task output_format n.
Proof.
  intros Hplain Hname [|n]; [reflexivity|].
  set (stem := fst (OsPath.splitext fl file_path)).
  set (base := base_output_path fl file_path task output_format).
  set (ext := ext_of output_format).
  assert (OsPath.splitext fl base = (stem +:+ suffix_of task, ext)) as Hsplit.
  { unfold base, base_output_path, ext, ext_of. fold stem.
    rewrite <- str_app_assoc. apply splitext_app_ext; [exact Hplain|].
    unfold suffix_of. destruct (String.eqb task "translate").
    - apply basename_en.
    - rewrite str_app_nil_r. apply basename_stem.
      simpl in Hname. apply negb_true_iff in Hname. exact Hname. }
  unfold tried, candidate, numbered. fold base ext stem. rewrite Hsplit. simpl fst.
  rewrite str_app_assoc. reflexivity.
Qed.

(** C3 (as the code has it). For every source path, task and format: the
    resolver returns the first path that does not exist among the paths it
    tries, in the order it tries them; the first of them is the candidate
    [<stem><suffix>.<ext>], with the suffix [.en] exactly for [translate];
    the loop ends within as many rounds as the disk has paths, plus one.
    The paths after the first are numbered from 1 in increasing order; they
    are [<stem><suffix>_<n>.<ext>] when the format has no dot and no
    separator in it and the file name of the source is not empty and not
    made of dots only, or the task is [translate]. (In general the number
    goes in front of the extension [os.path.splitext] finds in the first
    candidate.) *)
Theorem resolve_output_path_first_free (fl : OsPath.flavour) (w : world)
    (file_path task output_format : string) :
  (exists n : nat,
     resolve_output_path fl (path_exists w) (S (size (disk w)))
       file_path task output_format
     = Some (tried fl file_path task output_format n)
     /\ path_exists w (tried fl file_path task output_format n) = false
     /\ (forall j, (j < n)%nat ->
           path_exists w (tried fl file_path task output_format j) = true))
  /\ tried fl file_path task output_format 0
     = fst (OsPath.splitext fl file_path) +:+ suffix_of task
       +:+ "." +:+ PyStr.lower output_format
  /\ (forall n, (1 <= n)%nat ->
        tried fl file_path task output_format n
        = fst (OsPath.splitext fl (tried fl file_path task output_format 0))
          +:+ "_" +:+ PyStr.of_int (Z.of_nat n) +:+ "." +:+ PyStr.lower output_format)
  /\ (suffix_of task = ".en" <-> task = "translate")
  /\ (plain fl (PyStr.lower output_format) = true ->
      String.eqb task "translate"
      || negb (OsPath.all_dots (basename fl file_path)) = true ->
      forall n, tried fl file_path task output_format n
                = candidate fl file_path task output_format n).
Proof.
  split; [apply resolve_output_path_tried|].
  split; [reflexivity|].
  split; [intros [|n] Hn; [lia|reflexivity]|].
  split; [apply suffix_of_translate|].
  apply tried_candidate.
Qed.

(** C3 as stated fails for a source named with dots only, and for a format
    with a dot in it: the numbered path is built from the first candidate
    split once more, not from [<stem><suffix>]. *)
Lemma resolve_output_path_counterexample :
  (resolve_output_path OsPath.Posix (path_exists (world_with ["....srt"])) 2
     "..." "transcribe" "srt" = Some "....srt_1.srt"
   /\ candidate OsPath.Posix "..." "transcribe" "srt" 0 = "....srt"
   /\ candidate OsPath.Posix "..." "transcribe" "srt" 1 = "..._1.srt"
   /\ path_exists (world_with ["....srt"]) "..._1.srt" = false)
  /\ (resolve_output_path OsPath.Posix (path_exists (world_with ["a.tar.gz"])) 2
        "a.mp4" "transcribe" "tar.gz" = Some "a.tar_1.tar.gz"
      /\ candidate OsPath.Posix "a.mp4" "transcribe" "tar.gz" 0 = "a.tar.gz"
      /\ candidate OsPath.Posix "a.mp4" "transcribe" "tar.gz" 1 = "a_1.tar.gz"
      /\ path_exists (world_with ["a.tar.gz"]) "a_1.tar.gz" = false).
Proof. vm_compute. repeat split; reflexivity. Qed.

Lemma resolve_output_path_first_free_witness :
  exists n : nat,
    resolve_output_path OsPath.Posix
      (path_exists (world_with ["/v/a.srt"; "/v/a_1.srt"]))
      (S (size (disk (world_with ["/v/a.srt"; "/v/a_1.srt"]))))
      "/v/a.mp4" "transcribe" "SRT"
    = Some (candidate OsPath.Posix "/v/a.mp4" "transcribe" "SRT" n)
    /\ path_exists (world_with ["/v/a.srt"; "/v/a_1.srt"])
         (candidate OsPath.Posix "/v/a.mp4" "transcribe" "SRT" n) = false
    /\ (forall j, (j < n)%nat ->
          path_exists (world_with ["/v/a.srt"; "/v/a_1.srt"])
            (candidate OsPath.Posix "/v/a.mp4" "transcribe" "SRT" j) = true)
    /\ (suffix_of "transcribe" = ".en" <-> "transcribe" = "translate").
Proof.
  destruct (resolve_output_path_first_free OsPath.Posix
              (world_with ["/v/a.srt"; "/v/a_1.srt"]) "/v/a.mp4" "transcribe" "SRT")
    as ((n & Hres & Hfree & Hbefore) & _ & _ & Hsuffix & Hshape).
  specialize (Hshape eq_refl eq_refl).
  exists n. rewrite <- (Hshape n). split; [exact Hres|]. split; [exact Hfree|].
  split; [|exact Hsuffix]. intros j Hj. rewrite <- (Hshape j). apply Hbefore, Hj.
Defined.

(** ** What a run writes: the reference description

    The record shapes of the five formats as pure functions, and the world
    a run leaves behind when nothing fails. *)

(** ** The loop, step by step *)

Section NoIoFault.

Variable E : env.
Hypothesis no_io_fault : forall n, io_fault E n = None.

Lemma io_step_ok (w : world) :
  io_step E w =
    (Ok tt, World (self_model w) (disk w) (open_handles w) (S (io_count w)) (trace w)).
Proof. unfold io_step. rewrite no_io_fault. reflexivity. Qed.

Lemma write_ok (h data : string) (w : world) :
  write E h data w = (Ok tt, apply_write h data w).
Proof.
  unfold write. rewrite bind_unfold, io_step_ok. reflexivity.
Qed.

Lemma open_w_ok (path : string) (w : world) :
  open_w E path w = (Ok path, apply_open path w).
Proof.
  unfold open_w. rewrite bind_unfold, io_step_ok. reflexivity.
Qed.

Lemma writes_ok {A} (h : string) (chunks : list string) (k : M A) (w : world) :
  (foldr (fun d m => write E h d;; m) k chunks) w
  = k (apply_writes (Some h) chunks w).
Proof.
  revert w. induction chunks as [|d chunks IH]; intros w; [reflexivity|].
  simpl. rewrite bind_unfold, write_ok. apply IH.
Qed.

Lemma poll_spec (i : nat) (w : world) :
  poll E i w = (Ok (cancelled E i), record_events (poll_events E i) w).
Proof.
  unfold poll, cancelled, poll_events.
  destruct (cancel_check_callback E); [reflexivity|].
  rewrite record_events_nil. reflexivity.
Qed.

(** One segment that renders is processed without failure. *)
Lemma process_segment_renders (fmt : string) (file_handle : option string)
    (i : nat) (seg : segment) (acc : list Json.record) (w : world)
    (log_timestamp : string) (chunks : list string) :
  (file_handle = None <-> fmt = "json") ->
  format_timestamp (seg_start seg) "," = Ok log_timestamp ->
  segment_chunks fmt i seg = Ok chunks ->
  process_segment E fmt file_handle i seg acc w =
    (Ok (acc ++ new_records fmt i [seg]),
     apply_writes file_handle chunks
       (record_event
          (EvLog (LogSegment log_timestamp (PyStr.strip (seg_text seg)))) w)).
Proof.
  intros Hfh Hts Hchunks. unfold process_segment, new_records, segment_chunks in *.
  rewrite bind_unfold. unfold lift at 1. rewrite Hts.
  rewrite bind_unfold. unfold log_callback at 1. rewrite emit_spec.
  set (w1 := record_event _ w).
  destruct (String.eqb_spec fmt "json") as [Hjson|Hjson].
  { injection Hchunks as <-. destruct file_handle; reflexivity. }
  destruct file_handle as [h|].
  2:{ exfalso. apply Hjson. apply (proj1 Hfh). reflexivity. }
  rewrite List.app_nil_r.
  destruct (String.eqb fmt "txt").
  { injection Hchunks as <-. rewrite bind_unfold, write_ok. reflexivity. }
  destruct (String.eqb fmt "tsv").
  { destruct (PyFloat.to_int (PyFloat.mul (seg_start seg) _)) as [s|]; [|discriminate].
    destruct (PyFloat.to_int (PyFloat.mul (seg_end seg) _)) as [e|]; [|discriminate].
    injection Hchunks as <-. unfold lift. rewrite !bind_unfold.
    rewrite write_ok. reflexivity. }
  set (separator := if String.eqb fmt "vtt" then "." else ",") in *.
  destruct (format_timestamp (seg_start seg) separator) as [s|]; [|discriminate].
  destruct (format_timestamp (seg_end seg) separator) as [e|]; [|discriminate].
  simpl in Hchunks. unfold lift. rewrite !bind_unfold.
  destruct (String.eqb fmt "srt").
  { injection Hchunks as <-.
    repeat (rewrite bind_unfold || rewrite write_ok || cbn beta iota).
    reflexivity. }
  destruct (String.eqb fmt "vtt").
  { injection Hchunks as <-.
    repeat (rewrite bind_unfold || rewrite write_ok || cbn beta iota).
    reflexivity. }
  injection Hchunks as <-. reflexivity.
Qed.

End NoIoFault.

Lemma new_records_cons (fmt : string) (i : nat) (seg : segment) (segs : list segment) :
  new_records fmt i (seg :: segs)
  = new_records fmt i [seg] ++ new_records fmt (S i) segs.
Proof. unfold new_records. destruct (String.eqb fmt "json"); reflexivity. Qed.

Lemma new_records_nil (fmt : string) (i : nat) : new_records fmt i [] = [].
Proof. unfold new_records. destruct (String.eqb fmt "json"); reflexivity. Qed.

Section Loop.

Variable E : env.
Hypothesis no_io_fault : forall n, io_fault E n = None.

Variables (fmt : string) (file_handle : option string).
Hypothesis handle_iff : file_handle = None <-> fmt = "json".

(** The segments before the loop ends are processed one after the other. *)
Lemma consume_prefix (segs : list segment) :
  forall (i : nat) (acc : list Json.record) (w : world) (rest : list seg_event),
    (forall k, (k < length segs)%nat -> cancelled E (i + k) = false) ->
    (forall k seg, segs !! k = Some seg -> renders fmt (i + k) seg) ->
    consume E fmt file_handle i ((Yield <$> segs) ++ rest) acc w
    = consume E fmt file_handle (i + length segs) rest
        (acc ++ new_records fmt i segs)
        (after_segments E fmt file_handle i segs w).
Proof.
  induction segs as [|seg segs IH]; intros i acc w rest Hpoll Hrender.
  - simpl. rewrite Nat.add_0_r, new_records_nil, List.app_nil_r. reflexivity.
  - destruct (Hrender 0%nat seg eq_refl) as (ts & chunks & Hts & Hchunks).
    rewrite Nat.add_0_r in Hchunks.
    pose proof (Hpoll 0%nat ltac:(simpl; lia)) as Hp0. rewrite Nat.add_0_r in Hp0.
    simpl fmap. simpl app. simpl consume.
    rewrite bind_unfold, emit_spec, bind_unfold, poll_spec, Hp0.
    rewrite bind_unfold.
    rewrite (process_segment_renders E no_io_fault fmt file_handle i seg acc _
               ts chunks handle_iff Hts Hchunks).
    rewrite IH.
    + simpl length. rewrite Nat.add_succ_r. simpl after_segments.
      unfold after_segment. rewrite Hts, Hchunks.
      rewrite !record_event_events, !record_events_app.
      rewrite (new_records_cons fmt i seg segs), <- !List.app_assoc. reflexivity.
    + intros k Hk. rewrite Nat.add_succ_l, <- Nat.add_succ_r. apply Hpoll.
      simpl. lia.
    + intros k seg' Hk. rewrite Nat.add_succ_l, <- Nat.add_succ_r.
      apply Hrender. exact Hk.
Qed.

(** The poll says stop: the marker goes to the open destination, and the
    loop returns. *)
Lemma consume_cancelled (i : nat) (seg : segment) (rest : list seg_event)
    (acc : list Json.record) (w : world) :
  cancelled E i = true ->
  consume E fmt file_handle i (Yield seg :: rest) acc w
  = (Ok ReturnNone,
     apply_writes file_handle [interrupted_marker]
       (record_events ([EvYield i] ++ poll_events E i ++ [EvLog LogCancelled]) w)).
Proof.
  intros Hc. simpl consume.
  rewrite bind_unfold, emit_spec, bind_unfold, poll_spec, Hc.
  rewrite bind_unfold. unfold log_callback. rewrite emit_spec.
  rewrite !record_event_events, !record_events_app.
  destruct file_handle as [h|].
  - rewrite bind_unfold, write_ok by exact no_io_fault. reflexivity.
  - reflexivity.
Qed.

End Loop.

(** ** The [try] block *)

Section Output.

Variable E : env.
Hypothesis no_io_fault : forall n, io_fault E n = None.

Lemma close_spec (h : string) (w : world) : close h w = (Ok tt, apply_close h w).
Proof. reflexivity. Qed.

Lemma write_output_streaming (fmt output_path : string)
    (segments : list seg_event) (w : world) :
  fmt <> "json" ->
  write_output E fmt output_path segments w =
    let '(r, w') :=
      consume E fmt (Some output_path) 0 segments []
        (apply_writes (Some output_path) (header fmt) (apply_open output_path w)) in
    (r, apply_close output_path w').
Proof.
  intros Hfmt. unfold write_output, try_finally.
  destruct (String.eqb_spec fmt "json") as [|_]; [contradiction|].
  change (negb false) with true. cbv iota.
  rewrite bind_unfold, open_w_ok by exact no_io_fault.
  cbn beta iota. unfold mret at 1, M_ret at 1. cbn beta iota.
  rewrite bind_unfold. unfold header.
  destruct (String.eqb fmt "vtt"); [|destruct (String.eqb fmt "tsv")];
    try rewrite write_ok by exact no_io_fault;
    try (unfold mret at 1, M_ret at 1);
    cbn beta iota; rewrite bind_unfold; simpl apply_writes;
    destruct (consume _ _ _ _ _ _ _) as [[[recs|]|e] w']; reflexivity.
Qed.

Lemma write_output_json (output_path : string) (segments : list seg_event)
    (w : world) :
  write_output E "json" output_path segments w =
    match consume E "json" None 0 segments [] w with
    | (Ok (Exhausted recs), w') =>
      (Ok (Exhausted recs),
       apply_close output_path
         (apply_write output_path (Json.dumps (float_repr E) recs)
            (apply_open output_path w')))
    | (r, w') => (r, w')
    end.
Proof.
  unfold write_output, try_finally.
  change (String.eqb "json" "json") with true.
  change (negb true) with false. cbv iota.
  rewrite ret_unfold, bind_unfold, ret_unfold. cbn beta iota.
  rewrite bind_unfold.
  destruct (consume _ _ _ _ _ _ _) as [[[recs|]|e] w']; try reflexivity.
  rewrite bind_unfold. rewrite bind_unfold.
  rewrite open_w_ok by exact no_io_fault.
  cbn beta iota. rewrite ret_unfold. cbn beta iota.
  rewrite write_ok by exact no_io_fault. reflexivity.
Qed.

End Output.

(** ** A run with a warm engine *)

Lemma get_spec (w : world) : get w = (Ok w, w).
Proof. reflexivity. Qed.

Lemma run_warm (E : env) (file_path output_format : string)
    (initial_prompt : option string) (task : string) (w : world)
    (m : whisper_model) :
  self_model w = Some m ->
  run E file_path output_format initial_prompt task w =
    let w1 := record_events
                (start_events file_path output_format initial_prompt task) w in
    match transcribe m file_path (transcribe_options initial_prompt task) with
    | Raise e => (Raise e, w1)
    | Ok (segments, info) =>
      let w2 := record_event (EvLog (LogDetectedLanguage info)) w1 in
      match resolve_output_path (os_flavour E) (path_exists w)
              (S (size (disk w))) file_path task output_format with
      | None =>
        (Raise (Exn "NonTermination" "while os.path.exists(output_path)"), w2)
      | Some output_path =>
        match write_output E (PyStr.lower output_format) output_path segments w2 with
        | (Ok ReturnNone, w3) => (Ok None, w3)
        | (Ok (Exhausted _), w3) =>
          (Ok (Some output_path), record_events (end_events output_path) w3)
        | (Raise e, w3) => (Raise e, w3)
        end
      end
    end.
Proof.
  intros Hm. unfold run, log_callback, start_events.
  rewrite bind_unfold, get_spec, Hm. cbn beta iota.
  repeat (rewrite bind_unfold; (rewrite ret_unfold || rewrite emit_spec);
          cbn beta iota).
  rewrite bind_unfold.
  destruct (truthy initial_prompt && String.eqb task "transcribe");
    (rewrite ret_unfold || rewrite emit_spec); cbn beta iota;
    rewrite bind_unfold, get_spec; cbn beta iota;
    (replace (self_model _) with (Some m) by (symmetry; exact Hm));
    rewrite bind_unfold, ret_unfold; cbn beta iota;
    rewrite bind_unfold, emit_spec; cbn beta iota;
    rewrite bind_unfold; unfold lift at 1;
    rewrite !record_event_events, !record_events_app; simpl app;
    (destruct (transcribe m file_path _) as [[segments info]|e]; [|reflexivity]);
    cbn beta iota; rewrite bind_unfold, emit_spec; cbn beta iota;
    rewrite bind_unfold, get_spec; cbn beta iota;
    change (path_exists (record_event _ (record_events _ w))) with (path_exists w);
    change (disk (record_event _ (record_events _ w))) with (disk w);
    rewrite bind_unfold;
    (destruct (resolve_output_path _ _ _ _ _ _) as [p|]; [|reflexivity]);
    rewrite ret_unfold; cbn beta iota; rewrite bind_unfold;
    (destruct (write_output _ _ _ _ _) as [[[recs|]|e] w3]; try reflexivity);
    repeat (rewrite bind_unfold, emit_spec; cbn beta iota);
    rewrite ret_unfold, !record_event_events, !record_events_app; reflexivity.
Qed.

(** ** What the worlds of the reference description hold *)

Lemma apply_writes_trace (fh : option string) (chunks : list string) (w : world) :
  trace (apply_writes fh chunks w)
  = trace w ++ match fh with Some h => EvWrite h <$> chunks | None => [] end.
Proof.
  destruct fh as [h|]; simpl; [|rewrite List.app_nil_r; reflexivity].
  revert w. induction chunks as [|d chunks IH]; intros w; simpl.
  - rewrite List.app_nil_r. reflexivity.
  - rewrite IH. simpl. rewrite <- List.app_assoc. reflexivity.
Qed.

Lemma apply_writes_handles (fh : option string) (chunks : list string) (w : world) :
  open_handles (apply_writes fh chunks w) = open_handles w.
Proof.
  destruct fh as [h|]; simpl; [|reflexivity].
  revert w. induction chunks as [|d chunks IH]; intros w; simpl; [reflexivity|].
  rewrite IH. reflexivity.
Qed.

Lemma apply_writes_disk_none (chunks : list string) (w : world) :
  disk (apply_writes None chunks w) = disk w.
Proof. reflexivity. Qed.

Lemma apply_writes_disk (h : string) (chunks : list string) (w : world) (c : string) :
  disk w !! h = Some c ->
  disk (apply_writes (Some h) chunks w) = <[h := c +:+ concat_strings chunks]> (disk w).
Proof.
  revert w c. induction chunks as [|d chunks IH]; intros w c Hc.
  - simpl. rewrite str_app_nil_r. symmetry. apply insert_id. exact Hc.
  - change (apply_writes (Some h) (d :: chunks) w)
      with (apply_writes (Some h) chunks (apply_write h d w)).
    rewrite (IH _ (c +:+ d)).
    + simpl. rewrite Hc. simpl. rewrite insert_insert_eq, str_app_assoc. reflexivity.
    + simpl. rewrite Hc. simpl. apply lookup_insert_eq.
Qed.

Lemma after_segment_trace (E : env) (fmt : string) (fh : option string) (i : nat)
    (seg : segment) (w : world) :
  trace (after_segment E fmt fh i seg w) = trace w ++ segment_events E fmt fh i seg.
Proof.
  unfold after_segment, segment_events.
  destruct (format_timestamp _ _); [|rewrite List.app_nil_r; reflexivity].
  destruct (segment_chunks _ _ _); [|rewrite List.app_nil_r; reflexivity].
  rewrite apply_writes_trace. simpl. rewrite <- !List.app_assoc. simpl.
  rewrite <- !List.app_assoc. reflexivity.
Qed.

Lemma after_segments_trace (E : env) (fmt : string) (fh : option string)
    (segs : list segment) :
  forall (i : nat) (w : world),
    trace (after_segments E fmt fh i segs w)
    = trace w ++ segments_events E fmt fh i segs.
Proof.
  induction segs as [|seg segs IH]; intros i w; simpl.
  - rewrite List.app_nil_r. reflexivity.
  - rewrite IH, after_segment_trace, <- List.app_assoc. reflexivity.
Qed.

Lemma after_segments_handles (E : env) (fmt : string) (fh : option string)
    (segs : list segment) :
  forall (i : nat) (w : world),
    open_handles (after_segments E fmt fh i segs w) = open_handles w.
Proof.
  induction segs as [|seg segs IH]; intros i w; simpl; [reflexivity|].
  rewrite IH. unfold after_segment.
  destruct (format_timestamp _ _); [|reflexivity].
  destruct (segment_chunks _ _ _); [|reflexivity].
  rewrite apply_writes_handles. reflexivity.
Qed.

Lemma after_segments_disk_none (E : env) (fmt : string) (segs : list segment) :
  forall (i : nat) (w : world),
    disk (after_segments E fmt None i segs w) = disk w.
Proof.
  induction segs as [|seg segs IH]; intros i w; simpl; [reflexivity|].
  rewrite IH. unfold after_segment.
  destruct (format_timestamp _ _); [|reflexivity].
  destruct (segment_chunks _ _ _); reflexivity.
Qed.

Lemma after_segments_disk (E : env) (fmt h : string) (segs : list segment) :
  forall (i : nat) (w : world) (c : string),
    disk w !! h = Some c ->
    disk (after_segments E fmt (Some h) i segs w)
    = <[h := c +:+ segments_written fmt i segs]> (disk w).
Proof.
  induction segs as [|seg segs IH]; intros i w c Hc; simpl.
  - rewrite str_app_nil_r. symmetry. apply insert_id. exact Hc.
  - unfold after_segment, segment_written.
    destruct (format_timestamp _ _) as [ts|].
    2:{ rewrite (IH _ _ c Hc). reflexivity. }
    destruct (segment_chunks _ _ _) as [chunks|].
    2:{ rewrite (IH _ _ c Hc). reflexivity. }
    rewrite (IH _ _ (c +:+ concat_strings chunks)).
    + rewrite (apply_writes_disk h chunks _ c) by exact Hc.
      simpl. rewrite insert_insert_eq, str_app_assoc. reflexivity.
    + rewrite (apply_writes_disk h chunks _ c) by exact Hc.
      apply lookup_insert_eq.
Qed.

(** ** Whole runs *)

Section Run.

Variable E : env.
Hypothesis no_io_fault : forall n, io_fault E n = None.

Variables (file_path output_format : string) (initial_prompt : option string)
  (task : string) (w : world) (m : whisper_model).
Hypothesis warm : self_model w = Some m.

Variables (info : transcription_info) (output_path : string).
Hypothesis resolved :
  resolve_output_path (os_flavour E) (path_exists w) (S (size (disk w)))
    file_path task output_format = Some output_path.

#[local] Abbreviation fmt := (PyStr.lower output_format).

Lemma handle_iff_json : (@None string) = None <-> "json" = "json".
Proof. split; reflexivity. Qed.

Lemma handle_iff_streaming (h : string) : fmt <> "json" -> Some h = None <-> fmt = "json".
Proof. intros Hne. split; [discriminate|contradiction]. Qed.

(** A run whose sequence is exhausted. *)
Lemma run_completes (segs : list segment) :
  transcribe m file_path (transcribe_options initial_prompt task)
  = Ok (Yield <$> segs, info) ->
  (forall k, (k < length segs)%nat -> cancelled E k = false) ->
  (forall k seg, segs !! k = Some seg -> renders fmt k seg) ->
  run E file_path output_format initial_prompt task w
  = (Ok (Some output_path),
     completed_world E fmt output_path segs
       (started_world file_path output_format initial_prompt task info w)).
Proof.
  intros Hengine Hpoll Hrender.
  rewrite (run_warm E _ _ _ _ w m warm), Hengine, resolved. cbv zeta.
  rewrite record_event_events, record_events_app. fold fmt.
  fold (started_world file_path output_format initial_prompt task info w).
  set (w2 := started_world _ _ _ _ _ _).
  unfold completed_world.
  destruct (String.eqb_spec fmt "json") as [Hjson|Hjson].
  - rewrite Hjson in *. rewrite write_output_json by exact no_io_fault.
    rewrite <- (List.app_nil_r (Yield <$> segs)).
    rewrite (consume_prefix E no_io_fault "json" None handle_iff_json segs 0 [] w2 [])
      by assumption.
    simpl. unfold new_records. simpl. reflexivity.
  - rewrite write_output_streaming by assumption.
    rewrite <- (List.app_nil_r (Yield <$> segs)).
    rewrite (consume_prefix E no_io_fault fmt (Some output_path)
               (handle_iff_streaming output_path Hjson) segs 0 [] _ [])
      by assumption.
    simpl. reflexivity.
Qed.

(** A run cancelled before the segment at position [length segs]. *)
Lemma run_interrupted (segs : list segment) (seg : segment)
    (rest : list seg_event) :
  transcribe m file_path (transcribe_options initial_prompt task)
  = Ok ((Yield <$> segs) ++ Yield seg :: rest, info) ->
  (forall k, (k < length segs)%nat -> cancelled E k = false) ->
  cancelled E (length segs) = true ->
  (forall k seg, segs !! k = Some seg -> renders fmt k seg) ->
  run E file_path output_format initial_prompt task w
  = (Ok None,
     interrupted_world E fmt output_path segs
       (started_world file_path output_format initial_prompt task info w)).
Proof.
  intros Hengine Hpoll Hstop Hrender.
  rewrite (run_warm E _ _ _ _ w m warm), Hengine, resolved. cbv zeta.
  rewrite record_event_events, record_events_app. fold fmt.
  fold (started_world file_path output_format initial_prompt task info w).
  set (w2 := started_world _ _ _ _ _ _).
  unfold interrupted_world.
  destruct (String.eqb_spec fmt "json") as [Hjson|Hjson].
  - rewrite Hjson in *. rewrite write_output_json by exact no_io_fault.
    rewrite (consume_prefix E no_io_fault "json" None handle_iff_json segs 0 [] w2)
      by assumption.
    rewrite (consume_cancelled E no_io_fault "json" None handle_iff_json)
      by exact Hstop.
    reflexivity.
  - rewrite write_output_streaming by assumption.
    rewrite (consume_prefix E no_io_fault fmt (Some output_path)
               (handle_iff_streaming output_path Hjson) segs 0 [] _)
      by assumption.
    rewrite (consume_cancelled E no_io_fault fmt (Some output_path)
               (handle_iff_streaming output_path Hjson))
      by exact Hstop.
    reflexivity.
Qed.

End Run.

#[local] Arguments apply_writes : simpl never.

Lemma remove_first_head (p : string) (l : list string) : remove_first p (p :: l) = l.
Proof. simpl. rewrite String.eqb_refl. reflexivity. Qed.

Lemma completed_world_handles (E : env) (fmt p : string) (segs : list segment)
    (w : world) :
  open_handles (completed_world E fmt p segs w) = open_handles w.
Proof.
  unfold completed_world. destruct (String.eqb fmt "json"); simpl.
  - rewrite String.eqb_refl. apply after_segments_handles.
  - rewrite after_segments_handles, apply_writes_handles. simpl.
    rewrite String.eqb_refl. reflexivity.
Qed.

Lemma interrupted_world_handles (E : env) (fmt p : string) (segs : list segment)
    (w : world) :
  open_handles (interrupted_world E fmt p segs w) = open_handles w.
Proof.
  unfold interrupted_world. destruct (String.eqb fmt "json"); simpl.
  - apply after_segments_handles.
  - rewrite after_segments_handles, apply_writes_handles. simpl.
    rewrite String.eqb_refl. reflexivity.
Qed.

Lemma completed_world_disk_streaming (E : env) (fmt p : string)
    (segs : list segment) (w : world) :
  String.eqb fmt "json" = false ->
  disk (completed_world E fmt p segs w)
  = <[p := concat_strings (header fmt) +:+ segments_written fmt 0 segs]> (disk w).
Proof.
  intros Hfmt. unfold completed_world. rewrite Hfmt. simpl.
  rewrite (after_segments_disk E fmt p segs 0 _ (concat_strings (header fmt))).
  - rewrite (apply_writes_disk p (header fmt) _ EmptyString)
      by (simpl; apply lookup_insert_eq).
    simpl. rewrite !insert_insert_eq. reflexivity.
  - rewrite (apply_writes_disk p (header fmt) _ EmptyString)
      by (simpl; apply lookup_insert_eq).
    rewrite lookup_insert_eq. reflexivity.
Qed.

Lemma completed_world_disk_json (E : env) (p : string) (segs : list segment)
    (w : world) :
  disk (completed_world E "json" p segs w)
  = <[p := Json.dumps (float_repr E) (records_from 0 segs)]> (disk w).
Proof.
  unfold completed_world. simpl. rewrite lookup_insert_eq. simpl.
  rewrite insert_insert_eq, after_segments_disk_none. reflexivity.
Qed.

Lemma interrupted_world_disk_streaming (E : env) (fmt p : string)
    (segs : list segment) (w : world) :
  String.eqb fmt "json" = false ->
  disk (interrupted_world E fmt p segs w)
  = <[p := concat_strings (header fmt) +:+ segments_written fmt 0 segs
           +:+ interrupted_marker]> (disk w).
Proof.
  intros Hfmt. unfold interrupted_world. rewrite Hfmt. simpl.
  rewrite (after_segments_disk E fmt p segs 0 _ (concat_strings (header fmt))).
  - rewrite (apply_writes_disk p (header fmt) _ EmptyString)
      by (simpl; apply lookup_insert_eq).
    rewrite lookup_insert_eq. simpl. rewrite !insert_insert_eq, str_app_assoc.
    reflexivity.
  - rewrite (apply_writes_disk p (header fmt) _ EmptyString)
      by (simpl; apply lookup_insert_eq).
    rewrite lookup_insert_eq. reflexivity.
Qed.

Lemma interrupted_world_disk_json (E : env) (p : string) (segs : list segment)
    (w : world) :
  disk (interrupted_world E "json" p segs w) = disk w.
Proof. unfold interrupted_world. simpl. apply after_segments_disk_none. Qed.

Lemma completed_world_trace (E : env) (fmt p : string) (segs : list segment)
    (w : world) :
  trace (completed_world E fmt p segs w)
  = trace w
    ++ (if String.eqb fmt "json" then
          segments_events E fmt None 0 segs
          ++ [EvOpen p; EvWrite p (Json.dumps (float_repr E) (records_from 0 segs));
              EvClose p]
        else
          [EvOpen p] ++ (EvWrite p <$> header fmt)
          ++ segments_events E fmt (Some p) 0 segs ++ [EvClose p])
    ++ end_events p.
Proof.
  unfold completed_world. destruct (String.eqb fmt "json"); simpl.
  - rewrite after_segments_trace, <- !List.app_assoc. reflexivity.
  - rewrite after_segments_trace, apply_writes_trace. simpl.
    rewrite <- !List.app_assoc. reflexivity.
Qed.

Lemma interrupted_world_trace (E : env) (fmt p : string) (segs : list segment)
    (w : world) :
  trace (interrupted_world E fmt p segs w)
  = trace w
    ++ (if String.eqb fmt "json" then
          segments_events E fmt None 0 segs
          ++ [EvYield (length segs)] ++ poll_events E (length segs)
          ++ [EvLog LogCancelled]
        else
          [EvOpen p] ++ (EvWrite p <$> header fmt)
          ++ segments_events E fmt (Some p) 0 segs
          ++ [EvYield (length segs)] ++ poll_events E (length segs)
          ++ [EvLog LogCancelled; EvWrite p interrupted_marker; EvClose p]).
Proof.
  unfold interrupted_world. destruct (String.eqb fmt "json"); simpl.
  - rewrite after_segments_trace, <- !List.app_assoc. reflexivity.
  - rewrite after_segments_trace, apply_writes_trace. simpl.
    rewrite <- !List.app_assoc. simpl. rewrite <- !List.app_assoc. reflexivity.
Qed.

Lemma yields_app (a b : list event) : yields (a ++ b) = yields a ++ yields b.
Proof. apply omap_app. Qed.

Lemma yields_writes (h : string) (chunks : list string) :
  yields (EvWrite h <$> chunks) = [].
Proof. induction chunks as [|d chunks IH]; [reflexivity|exact IH]. Qed.

Lemma yields_poll (E : env) (i : nat) : yields (poll_events E i) = [].
Proof. unfold poll_events. destruct (cancel_check_callback E); reflexivity. Qed.

Lemma yields_segments_events (E : env) (fmt : string) (fh : option string)
    (segs : list segment) :
  forall i,
    (forall k seg, segs !! k = Some seg -> renders fmt (i + k) seg) ->
    yields (segments_events E fmt fh i segs) = seq i (length segs).
Proof.
  induction segs as [|seg segs IH]; intros i Hrender; [reflexivity|].
  simpl. rewrite yields_app, IH.
  - destruct (Hrender 0%nat seg eq_refl) as (ts & chunks & Hts & Hchunks).
    rewrite Nat.add_0_r in Hchunks.
    unfold segment_events. rewrite Hts, Hchunks.
    rewrite !yields_app, yields_poll. simpl.
    destruct fh; [rewrite yields_writes|]; reflexivity.
  - intros k seg' Hk. rewrite Nat.add_succ_l, <- Nat.add_succ_r.
    apply Hrender. exact Hk.
Qed.

(** ** File handles on every exit path *)

Create HintDb handles.

Lemma kept_ret {A} (a : A) : handles_kept (mret a : M A).
Proof. intros w. reflexivity. Qed.

Lemma kept_bind {A B} (m : M A) (k : A -> M B) :
  handles_kept m -> (forall a, handles_kept (k a)) -> handles_kept (m ≫= k).
Proof.
  intros Hm Hk w. rewrite bind_unfold. specialize (Hm w).
  destruct (m w) as [[a|e] w1]; simpl in *.
  - rewrite Hk. exact Hm.
  - exact Hm.
Qed.

Lemma kept_raise {A} (e : exn) : handles_kept (raise e : M A).
Proof. intros w. reflexivity. Qed.

Lemma kept_lift {A} (r : result A) : handles_kept (lift r).
Proof. intros w. reflexivity. Qed.

Lemma kept_get : handles_kept get.
Proof. intros w. reflexivity. Qed.

Lemma kept_emit (ev : event) : handles_kept (emit ev).
Proof. intros w. reflexivity. Qed.

Lemma kept_log (l : log_line) : handles_kept (log_callback l).
Proof. intros w. reflexivity. Qed.

Lemma kept_io_step (E : env) : handles_kept (io_step E).
Proof. intros w. unfold io_step. destruct (io_fault E _); reflexivity. Qed.

Lemma kept_write (E : env) (h data : string) : handles_kept (write E h data).
Proof.
  unfold write. apply kept_bind; [apply kept_io_step|]. intros _.
  apply kept_bind; [intros w; reflexivity|]. intros _. apply kept_emit.
Qed.

Lemma kept_poll (E : env) (i : nat) : handles_kept (poll E i).
Proof.
  unfold poll. destruct (cancel_check_callback E).
  - apply kept_bind; [apply kept_emit|]. intros _. apply kept_ret.
  - apply kept_ret.
Qed.

#[global] Hint Resolve kept_ret kept_raise kept_lift kept_get kept_emit kept_log
  kept_io_step kept_write kept_poll : handles.

Ltac kept :=
  repeat first
    [ progress auto with handles
    | apply kept_bind; [|intros ?]
    | match goal with
      | |- handles_kept (if ?b then _ else _) => destruct b
      | |- handles_kept (match ?x with _ => _ end) => destruct x
      end ].

Lemma kept_process_segment (E : env) (fmt : string) (fh : option string) (i : nat)
    (seg : segment) (acc : list Json.record) :
  handles_kept (process_segment E fmt fh i seg acc).
Proof. unfold process_segment. kept. Qed.

Lemma kept_consume (E : env) (fmt : string) (fh : option string)
    (segments : list seg_event) :
  forall i acc, handles_kept (consume E fmt fh i segments acc).
Proof.
  induction segments as [|[seg|e] segments IH]; intros i acc; simpl.
  - apply kept_ret.
  - apply kept_bind; [apply kept_emit|]. intros _.
    apply kept_bind; [apply kept_poll|]. intros [|].
    + kept.
    + apply kept_bind; [apply kept_process_segment|]. intros acc'. apply IH.
  - apply kept_raise.
Qed.

(** [open] ... [finally: close] keeps the handles, whatever the block
    between them does, as long as that block keeps them. *)
Lemma kept_try_finally_open {A} (E : env) (path : string)
    (body : option string -> M A) :
  (forall fh, handles_kept (body fh)) ->
  handles_kept
    (try_finally (h ← open_w E path; mret (Some h)) body
       (fun fh => match fh with Some h => close h | None => mret tt end)).
Proof.
  intros Hbody w. unfold try_finally, open_w.
  rewrite !bind_unfold. unfold io_step.
  destruct (io_fault E (io_count w)) as [e|]; [reflexivity|].
  cbn beta iota. rewrite !bind_unfold. cbn beta iota.
  unfold modify at 1. cbn beta iota. rewrite !bind_unfold, emit_spec.
  cbn beta iota. rewrite ret_unfold. cbn beta iota. rewrite ret_unfold.
  cbn beta iota.
  match goal with |- context [body (Some path) ?w1] =>
    pose proof (Hbody (Some path) w1) as Hb; destruct (body (Some path) w1) as [r w2]
  end.
  simpl in Hb. rewrite close_spec. simpl. rewrite Hb. simpl.
  rewrite String.eqb_refl. reflexivity.
Qed.

Lemma kept_try_finally_none {A} (body : option string -> M A) :
  handles_kept (body None) ->
  handles_kept
    (try_finally (mret None) body
       (fun fh => match fh with Some h => close h | None => mret tt end)).
Proof.
  intros Hbody w. unfold try_finally. rewrite ret_unfold.
  specialize (Hbody w). destruct (body None w) as [r w2]. simpl in *. exact Hbody.
Qed.

Lemma kept_write_output (E : env) (fmt output_path : string)
    (segments : list seg_event) :
  handles_kept (write_output E fmt output_path segments).
Proof.
  unfold write_output.
  assert (forall fh : option string,
            handles_kept
              (try_finally (f ← open_w E output_path; mret (Some f))
                 (fun f => match f with
                           | Some f => write E f (Json.dumps (float_repr E) [])
                           | None => mret tt
                           end)
                 (fun f => match f with Some f => close f | None => mret tt end)))
    as _ by (intros; apply kept_try_finally_open; intros [|]; kept).
  destruct (negb (String.eqb fmt "json")).
  - apply kept_try_finally_open. intros fh.
    apply kept_bind; [kept|]. intros _.
    apply kept_bind; [apply kept_consume|]. intros [recs|]; [|kept].
    destruct (String.eqb fmt "json"); [|kept].
    apply kept_bind; [|kept]. apply kept_try_finally_open. intros [|]; kept.
  - apply kept_try_finally_none.
    apply kept_bind; [kept|]. intros _.
    apply kept_bind; [apply kept_consume|]. intros [recs|]; [|kept].
    destruct (String.eqb fmt "json"); [|kept].
    apply kept_bind; [|kept]. apply kept_try_finally_open. intros [|]; kept.
Qed.

Lemma kept_load_model (E : env) : handles_kept (load_model E).
Proof.
  intros w. unfold load_model, try_except, log_callback.
  rewrite !bind_unfold, !emit_spec. cbn beta iota.
  rewrite !bind_unfold, !emit_spec. cbn beta iota.
  rewrite !bind_unfold, !emit_spec. cbn beta iota.
  rewrite bind_unfold. unfold lift at 1.
  destruct (new_whisper_model E _ _ _) as [m|e]; cbn beta iota.
  - reflexivity.
  - destruct (is_gpu_library_error _); reflexivity.
Qed.

Lemma kept_run (E : env) (file_path output_format : string)
    (initial_prompt : option string) (task : string) :
  handles_kept (run E file_path output_format initial_prompt task).
Proof.
  unfold run.
  apply kept_bind; [apply kept_get|]. intros w0.
  apply kept_bind; [destruct (self_model w0); [kept|apply kept_load_model]|].
  intros _. do 5 (apply kept_bind; [apply kept_log|]; intros _).
  apply kept_bind; [kept|]. intros _.
  apply kept_bind; [apply kept_get|]. intros w1.
  apply kept_bind; [kept|]. intros model.
  apply kept_bind; [apply kept_emit|]. intros _.
  apply kept_bind; [apply kept_lift|]. intros [segments info].
  apply kept_bind; [apply kept_log|]. intros _.
  apply kept_bind; [apply kept_get|]. intros w2.
  apply kept_bind; [kept|]. intros output_path.
  apply kept_bind; [apply kept_write_output|]. intros [recs|]; kept.
Qed.

(** C9: whatever the engine yields or raises, whatever the cancellation
    poll answers and whichever [open] or [write] fails, a run leaves no
    file handle of its own open: it returns a path, returns [None] or
    raises with the open handles it started with. *)
Theorem run_closes_destination (E : env) (file_path output_format : string)
    (initial_prompt : option string) (task : string) (w : world) :
  open_handles (snd (run E file_path output_format initial_prompt task w))
  = open_handles w.
Proof. apply kept_run. Qed.

Lemma number_until_free_absent (fl : OsPath.flavour) (exists_ : string -> bool)
    (base ext : string) (fuel : nat) :
  forall (c : Z) (p q : string),
    number_until_free fl exists_ base ext fuel c p = Some q -> exists_ q = false.
Proof.
  induction fuel as [|fuel IH]; intros c p q; simpl.
  - destruct (exists_ p) eqn:Hp; [discriminate|]. intros [= <-]. exact Hp.
  - destruct (exists_ p) eqn:Hp.
    + apply IH.
    + intros [= <-]. exact Hp.
Qed.

(** The path a run writes to does not exist when the run resolves it. *)
Lemma resolve_output_path_absent (fl : OsPath.flavour) (w : world) (fuel : nat)
    (file_path task output_format p : string) :
  resolve_output_path fl (path_exists w) fuel file_path task output_format = Some p ->
  disk w !! p = None.
Proof.
  intros H. apply number_until_free_absent in H. unfold path_exists in H.
  apply bool_decide_eq_false in H. apply eq_None_not_Some. exact H.
Qed.

Lemma no_open_start (file_path output_format : string)
    (initial_prompt : option string) (task p : string) :
  EvOpen p ∉ start_events file_path output_format initial_prompt task.
Proof.
  unfold start_events. intros Hp. rewrite !elem_of_app in Hp.
  destruct Hp as [Hp|[Hp|Hp]].
  - repeat (apply elem_of_cons in Hp as [Hp|Hp]; [discriminate|]). inversion Hp.
  - destruct (truthy initial_prompt && String.eqb task "transcribe").
    + apply list_elem_of_singleton in Hp. discriminate.
    + inversion Hp.
  - apply list_elem_of_singleton in Hp. discriminate.
Qed.

(** A [json] run opens nothing while it consumes the segments. *)
Lemma no_open_json_events (E : env) (l : list segment) (p : string) :
  forall i, EvOpen p ∉ segments_events E "json" None i l.
Proof.
  induction l as [|s l IH]; intros i Hin; simpl in Hin.
  - inversion Hin.
  - apply elem_of_app in Hin as [Hin|Hin]; [|exact (IH _ Hin)].
    unfold segment_events in Hin.
    destruct (format_timestamp _ _); [|inversion Hin].
    simpl in Hin.
    apply elem_of_cons in Hin as [Hin|Hin]; [discriminate|].
    apply elem_of_app in Hin as [Hin|Hin].
    + unfold poll_events in Hin. destruct (cancel_check_callback E).
      * apply list_elem_of_singleton in Hin. discriminate.
      * inversion Hin.
    + apply list_elem_of_singleton in Hin. discriminate.
Qed.

Section Cancellation.

Variable E : env.
Variables (file_path output_format : string) (initial_prompt : option string)
  (task : string) (w : world) (m : whisper_model).
Variables (info : transcription_info) (output_path : string).
Variables (segs : list segment) (seg : segment) (rest : list seg_event).

#[local] Abbreviation fmt := (PyStr.lower output_format).
#[local] Abbreviation k := (length segs).

(** C2: the poll says stop for the first time before the segment at
    position [k] (the [k] segments [segs] before it were processed). The
    run returns [None]; the engine has yielded the segments 0..k and is
    asked for no other; in a streaming format the destination holds the
    header, the [k] records and the interruption marker, and is closed;
    in [json] the disk is as before the run, with no file at the output
    path. *)
Theorem run_cancelled_before_segment :
  (forall n, io_fault E n = None) ->
  self_model w = Some m ->
  resolve_output_path (os_flavour E) (path_exists w) (S (size (disk w)))
    file_path task output_format = Some output_path ->
  transcribe m file_path (transcribe_options initial_prompt task)
  = Ok ((Yield <$> segs) ++ Yield seg :: rest, info) ->
  (forall j, (j < k)%nat -> cancelled E j = false) ->
  cancelled E k = true ->
  (forall j s, segs !! j = Some s -> renders fmt j s) ->
  exists w' new,
    run E file_path output_format initial_prompt task w = (Ok None, w')
    /\ trace w' = trace w ++ new
    /\ yields new = seq 0 (S k)
    /\ open_handles w' = open_handles w
    /\ (fmt <> "json" ->
        disk w' = <[output_path :=
                      concat_strings (header fmt) +:+ segments_written fmt 0 segs
                      +:+ interrupted_marker]> (disk w)
        /\ exists before,
             new = before ++ [EvYield k; EvPoll true; EvLog LogCancelled;
                              EvWrite output_path interrupted_marker;
                              EvClose output_path])
    /\ (fmt = "json" ->
        disk w' = disk w /\ disk w' !! output_path = None
        /\ forall p, EvOpen p ∉ new).
Proof.
  intros Hio Hwarm Hpath Hengine Hgo Hstop Hrender.
  assert (poll_events E k = [EvPoll true]) as Hpoll.
  { unfold poll_events, cancelled in *.
    destruct (cancel_check_callback E); [rewrite Hstop; reflexivity|discriminate]. }
  eexists. eexists. split.
  { apply (run_interrupted E Hio file_path output_format initial_prompt task
             w m Hwarm info output_path Hpath segs seg rest Hengine Hgo Hstop Hrender). }
  fold fmt. rewrite interrupted_world_trace, interrupted_world_handles.
  unfold started_world, record_events. cbn [trace open_handles disk].
  rewrite <- List.app_assoc. split; [reflexivity|].
  assert (yields (start_events file_path output_format initial_prompt task) = [])
    as Hstart.
  { unfold start_events. rewrite !yields_app.
    destruct (truthy initial_prompt && String.eqb task "transcribe"); reflexivity. }
  fold k. rewrite Hpoll.
  split; [|split; [reflexivity|split]].
  - rewrite !yields_app, Hstart.
    change (yields [EvLog (LogDetectedLanguage info)]) with (@nil nat).
    destruct (String.eqb fmt "json").
    + rewrite !yields_app, (yields_segments_events E fmt None segs 0 Hrender).
      fold k. rewrite seq_S. reflexivity.
    + rewrite !yields_app, yields_writes,
        (yields_segments_events E fmt (Some output_path) segs 0 Hrender).
      fold k. rewrite seq_S. reflexivity.
  - intros Hne. apply String.eqb_neq in Hne. rewrite Hne. split.
    + rewrite interrupted_world_disk_streaming by exact Hne. reflexivity.
    + exists (start_events file_path output_format initial_prompt task
              ++ [EvLog (LogDetectedLanguage info)] ++ [EvOpen output_path]
              ++ (EvWrite output_path <$> header fmt)
              ++ segments_events E fmt (Some output_path) 0 segs).
      rewrite <- !List.app_assoc. reflexivity.
  - intros Hjson. rewrite Hjson. simpl String.eqb. cbv iota.
    rewrite interrupted_world_disk_json.
    split; [reflexivity|]. split.
    + apply (resolve_output_path_absent _ _ _ _ _ _ _ Hpath).
    + intros p Hp. rewrite !elem_of_app in Hp.
      repeat match type of Hp with _ \/ _ => destruct Hp as [Hp|Hp] end;
        first [ exact (no_open_start _ _ _ _ _ Hp)
              | exact (no_open_json_events _ _ _ _ Hp)
              | repeat (apply elem_of_cons in Hp as [Hp|Hp]; [discriminate|]);
                inversion Hp ].
Qed.

End Cancellation.

Lemma writes_app (a b : list event) : writes (a ++ b) = writes a ++ writes b.
Proof. apply omap_app. Qed.

Lemma writes_start (file_path output_format : string)
    (initial_prompt : option string) (task : string) :
  writes (start_events file_path output_format initial_prompt task) = [].
Proof.
  unfold start_events. rewrite !writes_app.
  destruct (truthy initial_prompt && String.eqb task "transcribe"); reflexivity.
Qed.

Lemma yields_start (file_path output_format : string)
    (initial_prompt : option string) (task : string) :
  yields (start_events file_path output_format initial_prompt task) = [].
Proof.
  unfold start_events. rewrite !yields_app.
  destruct (truthy initial_prompt && String.eqb task "transcribe"); reflexivity.
Qed.

Lemma writes_poll (E : env) (i : nat) : writes (poll_events E i) = [].
Proof. unfold poll_events. destruct (cancel_check_callback E); reflexivity. Qed.

Lemma segment_chunks_unknown (fmt : string) (i : nat) (seg : segment)
    (chunks : list string) :
  unknown_format fmt = true ->
  segment_chunks fmt i seg = Ok chunks -> chunks = [].
Proof.
  unfold unknown_format, segment_chunks. intros Hfmt.
  destruct (String.eqb fmt "srt"); [discriminate|].
  destruct (String.eqb fmt "vtt"); [discriminate|].
  destruct (String.eqb fmt "txt"); [discriminate|].
  destruct (String.eqb fmt "tsv"); [discriminate|].
  destruct (String.eqb fmt "json"); [discriminate|].
  destruct (format_timestamp (seg_start seg) ","); [|discriminate].
  destruct (format_timestamp (seg_end seg) ","); [|discriminate].
  simpl. intros [= <-]. reflexivity.
Qed.

Lemma segments_unknown (E : env) (fmt h : string) (segs : list segment) :
  unknown_format fmt = true ->
  forall i,
    segments_written fmt i segs = EmptyString
    /\ writes (segments_events E fmt (Some h) i segs) = [].
Proof.
  intros Hfmt. induction segs as [|seg segs IH]; intros i; [split; reflexivity|].
  destruct (IH (S i)) as [IHw IHe]. simpl.
  rewrite IHw, writes_app, IHe. unfold segment_written, segment_events.
  destruct (format_timestamp (seg_start seg) ","); [|split; reflexivity].
  destruct (segment_chunks fmt i seg) as [chunks|] eqn:Hc; [|split; reflexivity].
  apply (segment_chunks_unknown fmt i seg chunks Hfmt) in Hc. subst chunks.
  rewrite !writes_app, writes_poll. split; reflexivity.
Qed.

Lemma records_from_lookup (segs : list segment) :
  forall i0 i seg,
    segs !! i = Some seg ->
    records_from i0 segs !! i = Some (segment_record (i0 + i) seg).
Proof.
  induction segs as [|s segs IH]; intros i0 i seg H; [discriminate|].
  destruct i as [|i]; simpl in *.
  - injection H as <-. rewrite Nat.add_0_r. reflexivity.
  - rewrite (IH (S i0) i seg H). rewrite Nat.add_succ_r. reflexivity.
Qed.

(** ** The [json] document *)

Lemma escape_char_plain (c : ascii) :
  json_plain_char c = true -> Json.escape_char c = String c EmptyString.
Proof.
  unfold json_plain_char, Json.escape_char. intros H.
  apply andb_prop in H as [H H92]. apply andb_prop in H as [H32 H34].
  apply negb_true_iff in H92, H34. apply N.leb_le in H32.
  rewrite H34, H92.
  repeat match goal with
         | |- context [N.eqb ?a ?b] =>
           destruct (N.eqb_spec a b) as [Heq|_]; [rewrite Heq in H32; lia|]
         end.
  destruct (N.ltb_spec (N_of_ascii c) 32); [lia|reflexivity].
Qed.

(** A text with nothing to escape is written as it is. *)
Lemma escape_plain (s : string) : json_plain s = true -> Json.escape s = s.
Proof.
  induction s as [|c s IH]; [reflexivity|]. simpl. intros H.
  apply andb_prop in H as [Hc Hs].
  rewrite (escape_char_plain c Hc), (IH Hs). reflexivity.
Qed.

(** The characters are escaped one by one, in place. *)
Lemma escape_app (s t : string) :
  Json.escape (s +:+ t) = Json.escape s +:+ Json.escape t.
Proof.
  induction s as [|c s IH]; [reflexivity|].
  rewrite str_app_cons. simpl. rewrite IH, str_app_assoc. reflexivity.
Qed.

Lemma non_ascii_plain (c : ascii) : (128 <= N_of_ascii c)%N -> json_plain_char c = true.
Proof.
  intros H. unfold json_plain_char.
  apply andb_true_intro. split; [apply andb_true_intro; split|].
  - apply N.leb_le. lia.
  - apply negb_true_iff, N.eqb_neq. lia.
  - apply negb_true_iff, N.eqb_neq. lia.
Qed.

Lemma encode_record_layout (float_repr : float -> string) (i : nat) (seg : segment) :
  "  " +:+ Json.encode_record float_repr (segment_record i seg)
  = json_record Json.escape float_repr i seg.
Proof.
  unfold Json.encode_record, json_record, json_field, Json.key, Json.encode_string,
    segment_record, PyStr.of_int.
  simpl Json.id. simpl Json.start. simpl Json.end_. simpl Json.text.
  rewrite !str_app_assoc. reflexivity.
Qed.

Lemma join_layout (float_repr : float -> string) (segs : list segment) :
  forall (i : nat) (seg : segment),
    "  " +:+ Json.join ("," +:+ nl +:+ "  ")
               (map (Json.encode_record float_repr) (records_from i (seg :: segs)))
    = json_record Json.escape float_repr i seg
      +:+ json_more Json.escape float_repr (S i) segs.
Proof.
  induction segs as [|seg' segs IH]; intros i seg.
  - simpl. rewrite str_app_nil_r. apply encode_record_layout.
  - change (records_from i (seg :: seg' :: segs))
      with (segment_record i seg :: records_from (S i) (seg' :: segs)).
    change (map (Json.encode_record float_repr)
              (segment_record i seg :: records_from (S i) (seg' :: segs)))
      with (Json.encode_record float_repr (segment_record i seg)
            :: map (Json.encode_record float_repr) (records_from (S i) (seg' :: segs))).
    change (records_from (S i) (seg' :: segs))
      with (segment_record (S i) seg' :: records_from (S (S i)) segs) at 1.
    simpl Json.join.
    change (json_more Json.escape float_repr (S i) (seg' :: segs))
      with ("," +:+ nl +:+ json_record Json.escape float_repr (S i) seg'
            +:+ json_more Json.escape float_repr (S (S i)) segs).
    rewrite <- (IH (S i) seg').
    rewrite <- encode_record_layout. rewrite !str_app_assoc. reflexivity.
Qed.

(** What [json.dump] writes for the records of [segs] is the document of
    the description, with the texts escaped. *)
Lemma dumps_document (float_repr : float -> string) (segs : list segment) :
  Json.dumps float_repr (records_from 0 segs)
  = json_document Json.escape float_repr segs.
Proof.
  destruct segs as [|seg segs]; [reflexivity|].
  unfold json_document.
  rewrite <- (str_app_assoc (json_record Json.escape float_repr 0 seg)).
  rewrite <- join_layout.
  unfold Json.dumps. simpl records_from. rewrite !str_app_assoc. reflexivity.
Qed.

Lemma json_record_plain (float_repr : float -> string) (i : nat) (seg : segment) :
  json_plain (PyStr.strip (seg_text seg)) = true ->
  json_record Json.escape float_repr i seg = json_record (fun s => s) float_repr i seg.
Proof. intros H. unfold json_record. rewrite (escape_plain _ H). reflexivity. Qed.

Lemma json_more_plain (float_repr : float -> string) (segs : list segment) :
  forall i,
    Forall (fun seg => json_plain (PyStr.strip (seg_text seg)) = true) segs ->
    json_more Json.escape float_repr i segs = json_more (fun s => s) float_repr i segs.
Proof.
  induction segs as [|seg segs IH]; intros i H; [reflexivity|].
  apply Forall_cons in H as [Hseg Hsegs]. simpl.
  rewrite (json_record_plain float_repr i seg Hseg), (IH (S i) Hsegs). reflexivity.
Qed.

(** When no text has a quote, a backslash or a control character in it,
    the texts stand in the document as they are, byte for byte. *)
Lemma json_document_plain (float_repr : float -> string) (segs : list segment) :
  Forall (fun seg => json_plain (PyStr.strip (seg_text seg)) = true) segs ->
  json_document Json.escape float_repr segs = json_document (fun s => s) float_repr segs.
Proof.
  destruct segs as [|seg segs]; [reflexivity|]. intros H.
  apply Forall_cons in H as [Hseg Hsegs]. unfold json_document.
  rewrite (json_record_plain float_repr 0 seg Hseg), (json_more_plain float_repr segs 1 Hsegs).
  reflexivity.
Qed.

Section Completion.

Variable E : env.
Variables (file_path output_format : string) (initial_prompt : option string)
  (task : string) (w : world) (m : whisper_model).
Variables (info : transcription_info) (output_path : string).
Variables (segs : list segment).

#[local] Abbreviation fmt := (PyStr.lower output_format).

Hypothesis no_io_fault : forall n, io_fault E n = None.
Hypothesis warm : self_model w = Some m.
Hypothesis resolved :
  resolve_output_path (os_flavour E) (path_exists w) (S (size (disk w)))
    file_path task output_format = Some output_path.
Hypothesis engine :
  transcribe m file_path (transcribe_options initial_prompt task)
  = Ok (Yield <$> segs, info).
Hypothesis not_cancelled : forall j, (j < length segs)%nat -> cancelled E j = false.
Hypothesis rendering : forall j s, segs !! j = Some s -> renders fmt j s.

(** C5: a run that consumes the whole sequence. In a streaming format the
    destination is opened once, before the first segment is asked for;
    the header comes first and then, segment after segment, the record
    of each in the order of arrival; the file holds the header and the
    records. In [json] nothing is opened while the segments arrive; the
    list of all records is written once, after the last segment, as one
    document with a 2-space indent in which every byte outside ASCII is
    kept as it is: the document is [json_document], record after record
    for the whole list, with each text escaped character by character, and
    with the texts as they are when none has a quote, a backslash or a
    control character in it. *)
Theorem run_streams_or_buffers :
  exists w',
    run E file_path output_format initial_prompt task w
    = (Ok (Some output_path), w')
    /\ (fmt <> "json" ->
        trace w' = trace w
          ++ start_events file_path output_format initial_prompt task
          ++ [EvLog (LogDetectedLanguage info)]
          ++ [EvOpen output_path] ++ (EvWrite output_path <$> header fmt)
          ++ segments_events E fmt (Some output_path) 0 segs
          ++ [EvClose output_path] ++ end_events output_path
        /\ disk w' = <[output_path :=
                         concat_strings (header fmt)
                         +:+ segments_written fmt 0 segs]> (disk w))
    /\ (fmt = "json" ->
        trace w' = trace w
          ++ start_events file_path output_format initial_prompt task
          ++ [EvLog (LogDetectedLanguage info)]
          ++ segments_events E "json" None 0 segs
          ++ [EvOpen output_path;
              EvWrite output_path (Json.dumps (float_repr E) (records_from 0 segs));
              EvClose output_path]
          ++ end_events output_path
        /\ (forall p, EvOpen p ∉ segments_events E "json" None 0 segs)
        /\ disk w' = <[output_path :=
                         Json.dumps (float_repr E) (records_from 0 segs)]> (disk w))
    /\ (header "srt" = [] /\ header "txt" = []
        /\ header "vtt" = ["WEBVTT" +:+ nl +:+ nl]
        /\ header "tsv" = ["start" +:+ tab +:+ "end" +:+ tab +:+ "text" +:+ nl])
    /\ (forall c, (128 <= N_of_ascii c)%N -> Json.escape_char c = String c EmptyString)
    /\ (forall r,
          Json.dumps (float_repr E) [r]
          = "[" +:+ nl +:+ "  {" +:+ nl
            +:+ "    " +:+ dquote +:+ "id" +:+ dquote +:+ ": "
                +:+ PyStr.of_int (Json.id r) +:+ "," +:+ nl
            +:+ "    " +:+ dquote +:+ "start" +:+ dquote +:+ ": "
                +:+ float_repr E (Json.start r) +:+ "," +:+ nl
            +:+ "    " +:+ dquote +:+ "end" +:+ dquote +:+ ": "
                +:+ float_repr E (Json.end_ r) +:+ "," +:+ nl
            +:+ "    " +:+ dquote +:+ "text" +:+ dquote +:+ ": "
                +:+ dquote +:+ Json.escape (Json.text r) +:+ dquote +:+ nl
            +:+ "  }" +:+ nl +:+ "]")
    /\ Json.dumps (float_repr E) (records_from 0 segs)
       = json_document Json.escape (float_repr E) segs
    /\ (Forall (fun seg => json_plain (PyStr.strip (seg_text seg)) = true) segs ->
        Json.dumps (float_repr E) (records_from 0 segs)
        = json_document (fun text => text) (float_repr E) segs)
    /\ (forall s, json_plain s = true -> Json.escape s = s)
    /\ (forall s t, Json.escape (s +:+ t) = Json.escape s +:+ Json.escape t)
    /\ (forall c, (128 <= N_of_ascii c)%N -> json_plain_char c = true).
Proof.
  eexists. split.
  { apply (run_completes E no_io_fault file_path output_format initial_prompt
             task w m warm info output_path resolved segs engine
             not_cancelled rendering). }
  fold fmt. rewrite completed_world_trace.
  unfold started_world, record_events. cbn [trace disk].
  split; [|split; [|split; [|split; [|split; [|split; [|split; [|split; [|split]]]]]]]];
    [| | | | |apply dumps_document
     |intros Hplain; rewrite dumps_document; apply json_document_plain, Hplain
     |apply escape_plain|apply escape_app|apply non_ascii_plain].
  - intros Hne. apply String.eqb_neq in Hne. rewrite Hne. split.
    + rewrite <- !List.app_assoc. reflexivity.
    + rewrite completed_world_disk_streaming by exact Hne. reflexivity.
  - intros Hjson. rewrite Hjson. split; [|split].
    + change (String.eqb "json" "json") with true. cbv iota.
      rewrite <- !List.app_assoc. reflexivity.
    + intros p. apply no_open_json_events.
    + rewrite completed_world_disk_json. reflexivity.
  - repeat split; reflexivity.
  - intros c Hc. unfold Json.escape_char.
    repeat match goal with
           | |- context [N.eqb ?a ?b] =>
             destruct (N.eqb_spec a b) as [Heq|_]; [rewrite Heq in Hc; lia|]
           end.
    destruct (N.ltb_spec (N_of_ascii c) 32); [lia|reflexivity].
  - intros r. unfold Json.dumps, Json.encode_record, Json.encode_string, Json.key.
    simpl Json.join. rewrite !str_app_assoc. reflexivity.
Qed.

(** C6: in an [srt] run the record of the segment at position [i] starts
    with the cue number [i + 1]; in a [json] run the record at position
    [i] of the serialized list has the id [i]. *)
Theorem srt_cue_is_position_plus_one_json_id_is_position :
  exists w',
    run E file_path output_format initial_prompt task w
    = (Ok (Some output_path), w')
    /\ (fmt = "srt" ->
        disk w' !! output_path = Some (segments_written "srt" 0 segs)
        /\ forall i seg,
             segs !! i = Some seg ->
             exists start_time_str end_time_str,
               segment_written "srt" i seg
               = (PyStr.of_int (Z.of_nat i + 1) +:+ nl)
                 +:+ (start_time_str +:+ " --> " +:+ end_time_str +:+ nl)
                 +:+ (PyStr.strip (seg_text seg) +:+ nl +:+ nl))
    /\ (fmt = "json" ->
        disk w' !! output_path
        = Some (Json.dumps (float_repr E) (records_from 0 segs))
        /\ forall i seg,
             segs !! i = Some seg ->
             exists r, records_from 0 segs !! i = Some r
                       /\ Json.id r = Z.of_nat i
                       /\ Json.text r = PyStr.strip (seg_text seg)).
Proof.
  eexists. split.
  { apply (run_completes E no_io_fault file_path output_format initial_prompt
             task w m warm info output_path resolved segs engine
             not_cancelled rendering). }
  fold fmt. split.
  - intros Hsrt. rewrite Hsrt in *. split.
    + rewrite completed_world_disk_streaming by reflexivity.
      rewrite lookup_insert_eq. reflexivity.
    + intros i seg Hi. destruct (rendering i seg Hi) as (ts & chunks & Hts & Hc).
      unfold segment_written. rewrite Hts. unfold segment_chunks in *.
      simpl String.eqb in *. cbv iota in *.
      destruct (format_timestamp (seg_start seg) ",") as [s|]; [|discriminate].
      destruct (format_timestamp (seg_end seg) ",") as [e|]; [|discriminate].
      exists s, e. simpl. rewrite !str_app_nil_r. reflexivity.
  - intros Hjson. rewrite Hjson in *. split.
    + rewrite completed_world_disk_json, lookup_insert_eq. reflexivity.
    + intros i seg Hi. exists (segment_record i seg).
      rewrite (records_from_lookup segs 0 i seg Hi). repeat split.
Qed.

(** C10: with a format that is none of the five, the run raises no
    format error: it opens the destination, writes nothing to it for the
    header or for any segment, asks the engine for every segment, closes
    the (empty) file and returns its path. *)
Theorem run_with_unknown_format :
  unknown_format fmt = true ->
  exists w' new,
    run E file_path output_format initial_prompt task w
    = (Ok (Some output_path), w')
    /\ trace w' = trace w ++ new
    /\ new = start_events file_path output_format initial_prompt task
             ++ [EvLog (LogDetectedLanguage info)] ++ [EvOpen output_path]
             ++ segments_events E fmt (Some output_path) 0 segs
             ++ [EvClose output_path] ++ end_events output_path
    /\ writes new = []
    /\ yields new = seq 0 (length segs)
    /\ disk w' = <[output_path := EmptyString]> (disk w)
    /\ open_handles w' = open_handles w.
Proof.
  intros Hfmt.
  assert (String.eqb fmt "json" = false) as Hjson.
  { unfold unknown_format in Hfmt. destruct (String.eqb fmt "json"); [|reflexivity].
    rewrite !orb_true_r in Hfmt. discriminate. }
  assert (header fmt = []) as Hheader.
  { unfold unknown_format in Hfmt. unfold header.
    destruct (String.eqb fmt "vtt"); [rewrite ?orb_true_r in Hfmt; discriminate|].
    destruct (String.eqb fmt "tsv"); [rewrite ?orb_true_r in Hfmt; discriminate|].
    reflexivity. }
  destruct (segments_unknown E fmt output_path segs Hfmt 0) as [Hwritten Hwrites].
  eexists. eexists. split.
  { apply (run_completes E no_io_fault file_path output_format initial_prompt
             task w m warm info output_path resolved segs engine
             not_cancelled rendering). }
  fold fmt. rewrite completed_world_trace, completed_world_handles,
    completed_world_disk_streaming by exact Hjson.
  unfold started_world, record_events. cbn [trace disk open_handles].
  rewrite Hjson, Hheader, Hwritten.
  split; [rewrite <- !List.app_assoc; reflexivity|].
  split; [reflexivity|]. split; [|split; [|split; reflexivity]].
  - rewrite !writes_app, writes_start, Hwrites. reflexivity.
  - rewrite !yields_app, yields_start,
      (yields_segments_events E fmt (Some output_path) segs 0 rendering).
    simpl. rewrite List.app_nil_r. reflexivity.
Qed.

End Completion.

(** ** Milliseconds in [tsv] *)

Lemma to_int_truncated (x : float) :
  PyFloat.is_finite x = true ->
  exists t, PyFloat.to_int x = Ok t /\ truncated x t.
Proof.
  destruct x as [s|s| |s m e]; try discriminate; intros _.
  - exists 0. split; reflexivity.
  - simpl. eexists. split; [reflexivity|]. simpl.
    destruct e as [|p|p].
    + exists (Zpos m). rewrite Z.shiftl_0_r. split; [reflexivity|].
      change (2 ^ Z.max 0 (- 0)) with 1. change (2 ^ Z.max 0 0) with 1. lia.
    + exists (Z.shiftl (Zpos m) (Zpos p)). split; [reflexivity|].
      rewrite Z.shiftl_mul_pow2 by lia.
      replace (Z.max 0 (- Zpos p)) with 0 by lia.
      replace (Z.max 0 (Zpos p)) with (Zpos p) by lia.
      assert (0 < 2 ^ Zpos p) by (apply Z.pow_pos_nonneg; lia).
      simpl (2 ^ 0). nia.
    + exists (Z.shiftr (Zpos m) (Zpos p)). split; [reflexivity|].
      rewrite Z.shiftr_div_pow2 by lia.
      replace (Z.max 0 (- Zneg p)) with (Zpos p) by lia.
      replace (Z.max 0 (Zneg p)) with 0 by lia.
      assert (0 < 2 ^ Zpos p) as Hpow by (apply Z.pow_pos_nonneg; lia).
      pose proof (Z.div_mod (Zpos m) (2 ^ Zpos p) ltac:(lia)) as Hdm.
      pose proof (Z.mod_pos_bound (Zpos m) (2 ^ Zpos p) Hpow) as Hmod.
      assert (0 <= Zpos m / 2 ^ Zpos p) by (apply Z.div_pos; lia).
      simpl (2 ^ 0). nia.
Qed.

(** C7: the [tsv] record of a segment whose times scale to finite
    milliseconds is one line: the start and the end, each multiplied by
    1000 in binary64 and rounded toward zero, then the stripped text, with
    tabs between; 1.2345 gives 1234 and 2.0 gives 2000. *)
Theorem tsv_line_truncates_milliseconds (E : env) (h : string) (i : nat)
    (seg : segment) (acc : list Json.record) (w : world) (log_timestamp : string) :
  (forall n, io_fault E n = None) ->
  format_timestamp (seg_start seg) "," = Ok log_timestamp ->
  PyFloat.is_finite (PyFloat.mul (seg_start seg) (PyFloat.of_Z 1000)) = true ->
  PyFloat.is_finite (PyFloat.mul (seg_end seg) (PyFloat.of_Z 1000)) = true ->
  (exists start_ms end_ms,
     truncated (PyFloat.mul (seg_start seg) (PyFloat.of_Z 1000)) start_ms
     /\ truncated (PyFloat.mul (seg_end seg) (PyFloat.of_Z 1000)) end_ms
     /\ process_segment E "tsv" (Some h) i seg acc w
        = (Ok acc,
           apply_write h
             (PyStr.of_int start_ms +:+ tab +:+ PyStr.of_int end_ms +:+ tab
              +:+ PyStr.strip (seg_text seg) +:+ nl)
             (record_event
                (EvLog (LogSegment log_timestamp (PyStr.strip (seg_text seg)))) w)))
  /\ PyFloat.to_int (PyFloat.mul (PyFloat.decimal 12345 4) (PyFloat.of_Z 1000)) = Ok 1234
  /\ PyFloat.to_int (PyFloat.mul (PyFloat.decimal 20 1) (PyFloat.of_Z 1000)) = Ok 2000
  /\ segment_chunks "tsv" 0
       (Segment (PyFloat.decimal 12345 4) (PyFloat.decimal 20 1) " text ")
     = Ok ["1234" +:+ tab +:+ "2000" +:+ tab +:+ "text" +:+ nl].
Proof.
  intros Hio Hts Hstart Hend. split; [|repeat split; vm_compute; reflexivity].
  destruct (to_int_truncated _ Hstart) as (start_ms & Hs & Hst).
  destruct (to_int_truncated _ Hend) as (end_ms & He & Het).
  exists start_ms, end_ms. split; [exact Hst|]. split; [exact Het|].
  rewrite (process_segment_renders E Hio "tsv" (Some h) i seg acc w log_timestamp
             [PyStr.of_int start_ms +:+ tab +:+ PyStr.of_int end_ms +:+ tab
              +:+ PyStr.strip (seg_text seg) +:+ nl]).
  - unfold new_records. simpl. rewrite List.app_nil_r. reflexivity.
  - split; discriminate.
  - exact Hts.
  - unfold segment_chunks. simpl String.eqb. cbv iota. rewrite Hs, He. reflexivity.
Qed.

(** ** The claims at concrete inputs *)

Lemma run_cancelled_before_segment_witness :
  let E := posix_env (fixed_engine (Yield <$> five_segments)) (Some stop_before_third) in
  exists w',
    run E "a.mp4" "srt" None "transcribe"
      (warm_world (fixed_engine (Yield <$> five_segments)))
    = (Ok None, w')
    /\ yields (trace w') = [0; 1; 2]%nat
    /\ open_handles w' = [].
Proof.
  intros E.
  destruct (run_cancelled_before_segment E "a.mp4" "srt" None "transcribe"
              (warm_world (fixed_engine (Yield <$> five_segments)))
              (fixed_engine (Yield <$> five_segments))
              (TranscriptionInfo "en" (PyFloat.of_Z 1)) "a.srt"
              (take 2 five_segments)
              (Segment (PyFloat.decimal 30 1) (PyFloat.decimal 45 1) "three")
              (Yield <$> drop 3 five_segments))
    as (w' & new & Hrun & Htrace & Hyields & Hhandles & _).
  - intros n. reflexivity.
  - reflexivity.
  - vm_compute. reflexivity.
  - reflexivity.
  - intros j Hj. destruct j as [|[|j]]; [reflexivity|reflexivity|simpl in Hj; lia].
  - reflexivity.
  - render_all H.
  - exists w'. split; [exact Hrun|]. split; [|exact Hhandles].
    rewrite Htrace. exact Hyields.
Defined.

Lemma run_streams_or_buffers_witness :
  (exists w',
     run (posix_env (fixed_engine (Yield <$> five_segments)) None)
       "a.mp4" "vtt" None "transcribe"
       (warm_world (fixed_engine (Yield <$> five_segments)))
     = (Ok (Some "a.vtt"), w'))
  /\ (exists w',
        run zh_env "a.mp4" "json" None "transcribe"
          (warm_world zh_engine)
        = (Ok (Some "a.json"), w')
        /\ disk w' !! "a.json"
           = Some ("[" +:+ nl
                   +:+ "  {" +:+ nl
                   +:+ "    " +:+ dquote +:+ "id" +:+ dquote +:+ ": 0," +:+ nl
                   +:+ "    " +:+ dquote +:+ "start" +:+ dquote +:+ ": 0.0," +:+ nl
                   +:+ "    " +:+ dquote +:+ "end" +:+ dquote +:+ ": 1.5," +:+ nl
                   +:+ "    " +:+ dquote +:+ "text" +:+ dquote +:+ ": "
                   +:+ dquote +:+ "你好，世界" +:+ dquote +:+ nl
                   +:+ "  }," +:+ nl
                   +:+ "  {" +:+ nl
                   +:+ "    " +:+ dquote +:+ "id" +:+ dquote +:+ ": 1," +:+ nl
                   +:+ "    " +:+ dquote +:+ "start" +:+ dquote +:+ ": 1.5," +:+ nl
                   +:+ "    " +:+ dquote +:+ "end" +:+ dquote +:+ ": 3.0," +:+ nl
                   +:+ "    " +:+ dquote +:+ "text" +:+ dquote +:+ ": "
                   +:+ dquote +:+ "字幕" +:+ dquote +:+ nl
                   +:+ "  }" +:+ nl
                   +:+ "]")).
Proof.
  split.
  - destruct (run_streams_or_buffers
                (posix_env (fixed_engine (Yield <$> five_segments)) None)
                "a.mp4" "vtt" None "transcribe"
                (warm_world (fixed_engine (Yield <$> five_segments)))
                (fixed_engine (Yield <$> five_segments))
                (TranscriptionInfo "en" (PyFloat.of_Z 1)) "a.vtt" five_segments)
      as (w' & Hrun & _).
    + intros n. reflexivity.
    + reflexivity.
    + vm_compute. reflexivity.
    + reflexivity.
    + intros j _. reflexivity.
    + render_all H.
    + exists w'. exact Hrun.
  - destruct (run_streams_or_buffers zh_env
                "a.mp4" "json" None "transcribe"
                (warm_world zh_engine) zh_engine
                (TranscriptionInfo "zh" (PyFloat.of_Z 1)) "a.json" two_segments_zh)
      as (w' & Hrun & _ & Hjson & _).
    + intros n. reflexivity.
    + reflexivity.
    + vm_compute. reflexivity.
    + reflexivity.
    + intros j _. reflexivity.
    + render_all H.
    + exists w'. split; [exact Hrun|].
      destruct (Hjson eq_refl) as (_ & _ & ->).
      rewrite lookup_insert_eq. vm_compute. reflexivity.
Defined.

Lemma srt_cue_json_id_witness :
  exists w',
    run (posix_env (fixed_engine (Yield <$> five_segments)) None)
      "a.mp4" "json" None "transcribe"
      (warm_world (fixed_engine (Yield <$> five_segments)))
    = (Ok (Some "a.json"), w')
    /\ disk w' !! "a.json" = Some (Json.dumps (fun _ => "0.0") (records_from 0 five_segments)).
Proof.
  destruct (srt_cue_is_position_plus_one_json_id_is_position
              (posix_env (fixed_engine (Yield <$> five_segments)) None)
              "a.mp4" "json" None "transcribe"
              (warm_world (fixed_engine (Yield <$> five_segments)))
              (fixed_engine (Yield <$> five_segments))
              (TranscriptionInfo "en" (PyFloat.of_Z 1)) "a.json" five_segments)
    as (w' & Hrun & _ & Hjson).
  - intros n. reflexivity.
  - reflexivity.
  - vm_compute. reflexivity.
  - reflexivity.
  - intros j _. reflexivity.
  - render_all H.
  - exists w'. split; [exact Hrun|]. apply Hjson. reflexivity.
Defined.

Lemma run_with_unknown_format_witness :
  exists w',
    run (posix_env (fixed_engine (Yield <$> five_segments)) None)
      "a.mp4" "DOCX" None "transcribe"
      (warm_world (fixed_engine (Yield <$> five_segments)))
    = (Ok (Some "a.docx"), w')
    /\ disk w' = {["a.docx" := EmptyString]}.
Proof.
  destruct (run_with_unknown_format
              (posix_env (fixed_engine (Yield <$> five_segments)) None)
              "a.mp4" "DOCX" None "transcribe"
              (warm_world (fixed_engine (Yield <$> five_segments)))
              (fixed_engine (Yield <$> five_segments))
              (TranscriptionInfo "en" (PyFloat.of_Z 1)) "a.docx" five_segments)
    as (w' & new & Hrun & _ & _ & _ & _ & Hdisk & _).
  - intros n. reflexivity.
  - reflexivity.
  - vm_compute. reflexivity.
  - reflexivity.
  - intros j _. reflexivity.
  - render_all H.
  - reflexivity.
  - exists w'. split; [exact Hrun|]. rewrite Hdisk. reflexivity.
Defined.

Lemma tsv_line_truncates_milliseconds_witness :
  exists start_ms end_ms,
    truncated (PyFloat.mul (PyFloat.decimal 12345 4) (PyFloat.of_Z 1000)) start_ms
    /\ truncated (PyFloat.mul (PyFloat.decimal 20 1) (PyFloat.of_Z 1000)) end_ms
    /\ process_segment (posix_env (fixed_engine []) None) "tsv" (Some "a.tsv") 0
         (Segment (PyFloat.decimal 12345 4) (PyFloat.decimal 20 1) " text ") []
         cold_world
       = (Ok [],
          apply_write "a.tsv"
            (PyStr.of_int start_ms +:+ tab +:+ PyStr.of_int end_ms +:+ tab
             +:+ "text" +:+ nl)
            (record_event (EvLog (LogSegment "00:00:01,234" "text")) cold_world)).
Proof.
  destruct (tsv_line_truncates_milliseconds (posix_env (fixed_engine []) None)
              "a.tsv" 0
              (Segment (PyFloat.decimal 12345 4) (PyFloat.decimal 20 1) " text ")
              [] cold_world "00:00:01,234")
    as [(start_ms & end_ms & Hs & He & Hrun) _].
  - intros n. reflexivity.
  - vm_compute. reflexivity.
  - vm_compute. reflexivity.
  - vm_compute. reflexivity.
  - exists start_ms, end_ms. split; [exact Hs|]. split; [exact He|]. exact Hrun.
Defined.

Lemma run_initializes_engine_first_witness :
  run no_gpu_env "a.mp4" "srt" None "transcribe" cold_world
  = (Raise (Exn "RuntimeError" friendly_msg),
     World None ∅ [] 0
       (load_events no_gpu_env ++ [EvLog LogMissingGpuLibrary])).
Proof.
  destruct (run_initializes_engine_first no_gpu_env "a.mp4" "srt" None "transcribe"
              cold_world eq_refl) as [Hfail _].
  exact (Hfail (Exn "RuntimeError" "Library libcublas.so.12 is not found") eq_refl).
Defined.

(** ** Binary64 arithmetic *)

Lemma pow2_succ_pos (d : positive) :
  2 ^ Zpos (Pos.succ d) = 2 * 2 ^ Zpos d
  /\ 2 ^ (Zpos (Pos.succ d) - 1) = 2 * 2 ^ (Zpos d - 1).
Proof.
  rewrite Pos2Z.inj_succ. split.
  - apply Z.pow_succ_r. lia.
  - replace (Z.succ (Zpos d) - 1) with (Z.succ (Zpos d - 1)) by lia.
    apply Z.pow_succ_r. lia.
Qed.

Lemma digits2_pos_bounds (p : positive) :
  2 ^ (Zpos (digits2_pos p) - 1) <= Zpos p < 2 ^ Zpos (digits2_pos p).
Proof.
  induction p as [p [IH1 IH2]|p [IH1 IH2]|]; simpl digits2_pos.
  - destruct (pow2_succ_pos (digits2_pos p)) as [-> ->].
    rewrite (Pos2Z.inj_xI p). pow_atoms. lia.
  - destruct (pow2_succ_pos (digits2_pos p)) as [-> ->].
    rewrite (Pos2Z.inj_xO p). pow_atoms. lia.
  - simpl. lia.
Qed.

(** The number of binary digits of a positive integer is fixed by the
    powers of two around it. *)
Lemma digits2_pos_le (p : positive) (k : Z) :
  Zpos p < 2 ^ k -> Zpos (digits2_pos p) <= k.
Proof.
  intros H. destruct (digits2_pos_bounds p) as [Hlo _].
  destruct (Z.le_gt_cases (Zpos (digits2_pos p)) k) as [|Hgt]; [assumption|].
  exfalso. assert (0 <= k).
  { destruct (Z.le_gt_cases 0 k); [assumption|].
    rewrite Z.pow_neg_r in H by lia. lia. }
  assert (2 ^ k <= 2 ^ (Zpos (digits2_pos p) - 1)) by (apply Z.pow_le_mono_r; lia).
  lia.
Qed.

Lemma digits2_pos_ge (p : positive) (k : Z) :
  2 ^ (k - 1) <= Zpos p -> k <= Zpos (digits2_pos p).
Proof.
  intros H. destruct (digits2_pos_bounds p) as [_ Hhi].
  destruct (Z.le_gt_cases k (Zpos (digits2_pos p))) as [|Hgt]; [assumption|].
  exfalso.
  assert (2 ^ Zpos (digits2_pos p) <= 2 ^ (k - 1)) by (apply Z.pow_le_mono_r; lia).
  lia.
Qed.

Lemma pow2_xO (p : positive) : 2 ^ Zpos p~0 = 2 ^ Zpos p * 2 ^ Zpos p.
Proof. rewrite (Pos2Z.inj_xO p), <- Z.pow_add_r by lia. f_equal. lia. Qed.

Lemma pow2_xI (p : positive) : 2 ^ Zpos p~1 = 2 * (2 ^ Zpos p * 2 ^ Zpos p).
Proof.
  rewrite (Pos2Z.inj_xI p), <- Z.pow_add_r by lia.
  rewrite <- Z.pow_succ_r by lia. f_equal. lia.
Qed.

Lemma shr_1_m (mrs : shr_record) :
  0 <= shr_m mrs -> shr_m (shr_1 mrs) = shr_m mrs / 2.
Proof.
  destruct mrs as [m r s]. simpl. intros Hm.
  destruct m as [|[p|p|]|p]; simpl; try reflexivity; try lia.
  - rewrite (Pos2Z.inj_xI p). apply Z.div_unique with 1; lia.
  - rewrite (Pos2Z.inj_xO p). apply Z.div_unique with 0; lia.
Qed.

Lemma iter_shr_1_m (p : positive) :
  forall mrs, 0 <= shr_m mrs ->
    shr_m (SpecFloat.iter_pos shr_1 p mrs) = shr_m mrs / 2 ^ Zpos p.
Proof.
  induction p as [p IH|p IH|]; intros mrs Hm; simpl SpecFloat.iter_pos.
  - assert (0 <= shr_m (shr_1 mrs)) as H1
      by (rewrite shr_1_m by assumption; apply Z.div_pos; lia).
    assert (0 < 2 ^ Zpos p) as Hp by (apply Z.pow_pos_nonneg; lia).
    assert (0 <= shr_m (SpecFloat.iter_pos shr_1 p (shr_1 mrs))) as H2
      by (rewrite IH by assumption; apply Z.div_pos; lia).
    rewrite IH, IH, shr_1_m by assumption.
    rewrite !Z.div_div by lia. f_equal. symmetry. apply pow2_xI.
  - assert (0 < 2 ^ Zpos p) as Hp by (apply Z.pow_pos_nonneg; lia).
    assert (0 <= shr_m (SpecFloat.iter_pos shr_1 p mrs)) as H2
      by (rewrite IH by assumption; apply Z.div_pos; lia).
    rewrite IH, IH by assumption.
    rewrite !Z.div_div by lia. f_equal. symmetry. apply pow2_xO.
  - rewrite shr_1_m by assumption. reflexivity.
Qed.

Lemma fexp64_eq (x : Z) : fexp64 x = Z.max (x - 53) (-1074).
Proof. reflexivity. Qed.

Lemma shr_record_of_loc_m (m : Z) (l : location) : shr_m (shr_record_of_loc m l) = m.
Proof. destruct l as [|[]]; reflexivity. Qed.

(** [shr_fexp] divides the mantissa by the power of two that brings the
    exponent up to [fexp]. *)
Lemma shr_fexp_spec (m e : Z) (l : location) :
  0 <= m ->
  shr_m (fst (shr_fexp PyFloat.prec PyFloat.emax m e l))
  = m / 2 ^ Z.max 0 (fexp64 (Zdigits2 m + e) - e)
  /\ snd (shr_fexp PyFloat.prec PyFloat.emax m e l)
     = e + Z.max 0 (fexp64 (Zdigits2 m + e) - e).
Proof.
  intros Hm. unfold shr_fexp, shr.
  destruct (fexp64 (Zdigits2 m + e) - e) as [|p|p] eqn:Hn; simpl fst; simpl snd.
  - rewrite shr_record_of_loc_m. change (Z.max 0 0) with 0.
    rewrite Z.div_1_r. split; [reflexivity|lia].
  - rewrite iter_shr_1_m by (rewrite shr_record_of_loc_m; exact Hm).
    rewrite shr_record_of_loc_m. replace (Z.max 0 (Zpos p)) with (Zpos p) by lia.
    split; reflexivity.
  - rewrite shr_record_of_loc_m. replace (Z.max 0 (Zneg p)) with 0 by lia.
    rewrite Z.div_1_r. split; [reflexivity|lia].
Qed.

Lemma round_nearest_even_bounds (m : Z) (l : location) :
  m <= round_nearest_even m l <= m + 1.
Proof.
  destruct l as [|[]]; simpl; try lia. destruct (Z.even m); lia.
Qed.

(** [binary_round_aux] on a positive number: one shift, a rounding that
    adds at most one, and a second shift. *)
Lemma binary_round_aux_spec (m e : Z) (l : location) :
  0 <= m ->
  exists m1,
    let e1 := e + Z.max 0 (fexp64 (Zdigits2 m + e) - e) in
    m / 2 ^ (e1 - e) <= m1 <= m / 2 ^ (e1 - e) + 1
    /\ binary_round_aux PyFloat.prec PyFloat.emax false m e l = fit m1 e1.
Proof.
  intros Hm. unfold binary_round_aux.
  destruct (shr_fexp_spec m e l Hm) as [Hm1 He1].
  destruct (shr_fexp PyFloat.prec PyFloat.emax m e l) as [mrs1 e1].
  simpl fst in Hm1. simpl snd in He1.
  set (m1 := round_nearest_even (shr_m mrs1) (loc_of_shr_record mrs1)).
  assert (0 < 2 ^ Z.max 0 (fexp64 (Zdigits2 m + e) - e)) as Hpow
    by (apply Z.pow_pos_nonneg; lia).
  assert (0 <= shr_m mrs1) as Hpos by (rewrite Hm1; apply Z.div_pos; lia).
  pose proof (round_nearest_even_bounds (shr_m mrs1) (loc_of_shr_record mrs1))
    as Hrne. fold m1 in Hrne.
  exists m1. cbv zeta. rewrite <- He1.
  replace (e1 - e) with (Z.max 0 (fexp64 (Zdigits2 m + e) - e)) by lia.
  rewrite <- Hm1. split; [exact Hrne|].
  destruct (shr_fexp_spec m1 e1 loc_Exact ltac:(lia)) as [Hm2 He2].
  destruct (shr_fexp PyFloat.prec PyFloat.emax m1 e1 loc_Exact) as [mrs2 e2].
  simpl fst in Hm2. simpl snd in He2. unfold fit. rewrite <- He2.
  replace (e2 - e1) with (Z.max 0 (fexp64 (Zdigits2 m1 + e1) - e1)) by lia.
  rewrite <- Hm2. reflexivity.
Qed.

(** A mantissa that already fits its exponent is kept as it is. *)
Lemma binary_round_aux_exact (m : positive) (e : Z) :
  fexp64 (Zpos (digits2_pos m) + e) <= e -> e <= 971 ->
  binary_round_aux PyFloat.prec PyFloat.emax false (Zpos m) e loc_Exact
  = S754_finite false m e.
Proof.
  intros Hfit He. unfold binary_round_aux, shr_fexp, shr. simpl Zdigits2.
  destruct (fexp64 (Zpos (digits2_pos m) + e) - e) as [|p|p] eqn:Hn; try lia;
    simpl; rewrite Hn; simpl;
    change (PyFloat.emax - PyFloat.prec) with 971;
    replace (e <=? 971) with true
      by (symmetry; apply Z.leb_le; exact He); reflexivity.
Qed.

Lemma iter_xO_spec (z d : positive) :
  Zpos (Pos.iter xO z d) = Zpos z * 2 ^ Zpos d
  /\ digits2_pos (Pos.iter xO z d) = (digits2_pos z + d)%positive.
Proof.
  induction d as [|d [IH1 IH2]] using Pos.peano_ind.
  - simpl. split; [lia|]. rewrite Pos.add_1_r. reflexivity.
  - rewrite Pos.iter_succ. simpl digits2_pos. rewrite (Pos2Z.inj_xO _), IH1, IH2.
    destruct (pow2_succ_pos d) as [-> _]. split; [lia|].
    rewrite Pos.add_succ_r. reflexivity.
Qed.

(** [binary_normalize] of a number of at most 53 bits is exact: the same
    value, with the mantissa shifted left. *)
Lemma binary_normalize_exact (z : positive) (e : Z) :
  Zpos (digits2_pos z) <= 53 -> -1074 <= e <= 971 ->
  exists mz ez,
    binary_normalize PyFloat.prec PyFloat.emax (Zpos z) e false
    = S754_finite false mz ez
    /\ ez <= e /\ Zpos mz = Zpos z * 2 ^ (e - ez).
Proof.
  intros Hd He. unfold binary_normalize, binary_round, shl_align.
  set (e' := fexp PyFloat.prec PyFloat.emax (Zpos (digits2_pos z) + e)).
  assert (e' = Z.max (Zpos (digits2_pos z) + e - 53) (-1074)) as He' by reflexivity.
  destruct (e' - e) as [|d|d] eqn:Hn.
  - exists z, e. rewrite binary_round_aux_exact by (fold e'; lia).
    rewrite Z.sub_diag. split; [reflexivity|]. split; lia.
  - lia.
  - destruct (iter_xO_spec z d) as [Hval Hdig].
    exists (Pos.iter xO z d), e'. rewrite binary_round_aux_exact.
    + split; [reflexivity|]. split; [lia|].
      rewrite Hval. f_equal. f_equal. lia.
    + rewrite Hdig, Pos2Z.inj_add.
      replace (Zpos (digits2_pos z) + Zpos d + e') with (Zpos (digits2_pos z) + e) by lia.
      fold e'. lia.
    + lia.
Qed.

Lemma Zdigits2_le (m k : Z) : 0 <= m < 2 ^ k -> 0 <= k -> Zdigits2 m <= k.
Proof.
  intros [Hm Hlt] Hk. destruct m as [|p|p]; simpl; [exact Hk| |lia].
  apply digits2_pos_le. exact Hlt.
Qed.

(** Truncating a float built by [fit] from a number below [2^53]:
    the quotient by the power of two, whatever the shift was. *)
Lemma to_int_fit (m e : Z) :
  0 <= m -> e <= 0 -> fexp64 (Zdigits2 m + e) <= 0 ->
  PyFloat.to_int (fit m e) = Ok (m / 2 ^ (- e)).
Proof.
  intros Hm He Hf. unfold fit.
  set (e' := e + Z.max 0 (fexp64 (Zdigits2 m + e) - e)).
  assert (e <= e' <= 0) as He' by (unfold e'; lia).
  assert (0 < 2 ^ (e' - e)) as Hp1 by (apply Z.pow_pos_nonneg; lia).
  assert (0 < 2 ^ (- e')) as Hp2 by (apply Z.pow_pos_nonneg; lia).
  assert (m / 2 ^ (- e) = m / 2 ^ (e' - e) / 2 ^ (- e')) as ->.
  { rewrite Z.div_div by lia. rewrite <- Z.pow_add_r by lia.
    f_equal. f_equal. lia. }
  assert (0 <= m / 2 ^ (e' - e)) as Hq by (apply Z.div_pos; lia).
  destruct (m / 2 ^ (e' - e)) as [|q|q]; [reflexivity| |lia].
  replace (e' <=? 971) with true by (symmetry; apply Z.leb_le; lia).
  destruct e' as [|p|p]; [|lia|].
  - simpl. rewrite Z.div_1_r. reflexivity.
  - unfold PyFloat.to_int. rewrite Z.shiftr_div_pow2 by lia. reflexivity.
Qed.

(** ** Integer arithmetic behind the roundings *)

(** A quotient shifted right and moved by at most one is off by less than
    two units of the second shift. *)
Lemma two_shift_error (M K1 K2 m1 : Z) :
  0 < K1 -> 0 < K2 -> 0 <= M -> M / K1 <= m1 <= M / K1 + 1 ->
  Z.abs (m1 / K2 * (K1 * K2) - M) < 2 * (K1 * K2).
Proof.
  intros HK1 HK2 HM Hm1.
  pose proof (Z.div_mod M K1 ltac:(lia)) as Hd1.
  pose proof (Z.mod_pos_bound M K1 HK1) as Hb1.
  pose proof (Z.div_mod m1 K2 ltac:(lia)) as Hd2.
  pose proof (Z.mod_pos_bound m1 K2 HK2) as Hb2.
  set (a := M / K1) in *. set (b := M mod K1) in *.
  set (m2 := m1 / K2) in *. set (c := m1 mod K2) in *.
  clearbody a b m2 c.
  assert (m2 * (K1 * K2) - M = K1 * (m1 - a) - K1 * c - b) as ->
    by (rewrite Hd1, Hd2; ring).
  assert (0 <= K1 * (m1 - a) <= K1 * 1)
    by (split; [apply Z.mul_nonneg_nonneg; lia|apply Z.mul_le_mono_nonneg_l; lia]).
  assert (0 <= K1 * c <= K1 * (K2 - 1))
    by (split; [apply Z.mul_nonneg_nonneg; lia|apply Z.mul_le_mono_nonneg_l; lia]).
  assert (K1 * 1 <= K1 * K2) by (apply Z.mul_le_mono_nonneg_l; lia).
  apply Z.abs_lt. lia.
Qed.

Lemma scale_bound (Y W D P c : Z) :
  0 < D -> 0 < P -> Y * D = W * P -> Z.abs W < c * D -> Z.abs Y < c * P.
Proof.
  intros HD HP Heq HW.
  apply Z.mul_lt_mono_pos_r with D; [exact HD|].
  rewrite <- (Z.abs_eq D) at 1 by lia. rewrite <- Z.abs_mul, Heq, Z.abs_mul.
  rewrite (Z.abs_eq P) by lia.
  replace (c * P * D) with (c * D * P) by ring.
  apply Z.mul_lt_mono_pos_r; assumption.
Qed.

(** The quotient [a * S / b], shifted right by [K] and moved up by at most
    one, stays between [a / b] and the next integer at the scale
    [T = S / K], as long as [K * b < S]. *)
Lemma quotient_bracket (a b S K T m1 : Z) :
  0 <= a -> 0 < b -> 0 < K -> 0 < T -> S = K * T -> K * b < S ->
  a * S / b / K <= m1 <= a * S / b / K + 1 ->
  (a / b) * T <= m1 < (a / b + 1) * T.
Proof.
  intros Ha Hb HK HT HS HKb Hm1.
  pose proof (Z.div_mod a b ltac:(lia)) as Hn.
  pose proof (Z.mod_pos_bound a b Hb) as Hn'.
  pose proof (Z.div_mod (a * S) b ltac:(lia)) as Hq.
  pose proof (Z.mod_pos_bound (a * S) b Hb) as Hq'.
  assert (0 <= a / b) as Hn0 by (apply Z.div_pos; lia).
  set (n := a / b) in *. set (r0 := a mod b) in *.
  set (q := a * S / b) in *. set (r1 := (a * S) mod b) in *.
  clearbody n r0 q r1.
  assert (0 < S) as HSp by (subst S; apply Z.mul_pos_pos; lia).
  assert (b * (n * S) <= a * S) as Hlow.
  { replace (b * (n * S)) with ((b * n) * S) by ring.
    apply Z.mul_le_mono_nonneg_r; lia. }
  assert (n * S <= q) as Hlow'.
  { apply Z.mul_le_mono_pos_l with b; [exact Hb|].
    assert (b * q <= a * S) by lia.
    destruct (Z.le_gt_cases (n * S) q) as [H'|H']; [apply Z.mul_le_mono_nonneg_l; lia|].
    assert (b * (q + 1) <= b * (n * S)) by (apply Z.mul_le_mono_nonneg_l; lia).
    lia. }
  assert (q + K < (n + 1) * S) as Hup.
  { apply Z.mul_lt_mono_pos_l with b; [exact Hb|].
    assert (a * S <= (b * (n + 1) - 1) * S) by (apply Z.mul_le_mono_nonneg_r; lia).
    replace (b * (q + K)) with (b * q + K * b) by ring.
    replace (b * ((n + 1) * S)) with (b * (n + 1) * S) by ring.
    replace ((b * (n + 1) - 1) * S) with (b * (n + 1) * S - S) in H by ring.
    lia. }
  split.
  - assert (n * T <= q / K); [|lia].
    apply Z.div_le_lower_bound; [exact HK|].
    replace (K * (n * T)) with (n * S) by (subst S; ring). exact Hlow'.
  - assert (q / K < (n + 1) * T - 1); [|lia].
    apply Z.div_lt_upper_bound; [exact HK|].
    replace (K * ((n + 1) * T - 1)) with ((n + 1) * S - K) by (subst S; ring). lia.
Qed.

(** ** True division of ints, then truncation

    [int(a / b)] is the integer quotient as long as [a] is below [2^52]:
    the correctly rounded quotient never reaches the next integer. *)
Lemma to_int_int_true_div (a b : Z) :
  0 <= a < 2 ^ 52 -> 0 < b < 2 ^ 21 ->
  exists q, PyFloat.int_true_div a b = Ok q /\ PyFloat.to_int q = Ok (a / b).
Proof.
  intros [Ha0 Ha] [Hb0 Hb]. unfold PyFloat.int_true_div.
  destruct b as [|pb|pb]; try lia.
  destruct a as [|pa|pa]; try lia.
  { eexists. split; [reflexivity|]. reflexivity. }
  change (Z.abs (Zpos pa)) with (Zpos pa). change (Z.abs (Zpos pb)) with (Zpos pb).
  change (xorb (Zpos pa <? 0) (Zpos pb <? 0)) with false.
  unfold SFdiv_core_binary.
  change (Zdigits2 (Zpos pa)) with (Zpos (digits2_pos pa)).
  change (Zdigits2 (Zpos pb)) with (Zpos (digits2_pos pb)).
  pose proof (digits2_pos_bounds pa) as [Hda1 Hda2].
  pose proof (digits2_pos_bounds pb) as [Hdb1 Hdb2].
  pose proof (digits2_pos_le pa 52 Ha) as Hd1.
  pose proof (digits2_pos_le pb 21 Hb) as Hd2.
  set (d1 := Zpos (digits2_pos pa)) in *. set (d2 := Zpos (digits2_pos pb)) in *.
  assert (0 < d1) as Hd1p by (unfold d1; lia).
  assert (0 < d2) as Hd2p by (unfold d2; lia).
  rewrite !Z.add_0_r, Z.sub_0_r.
  assert (Z.min (fexp PyFloat.prec PyFloat.emax (d1 - d2)) 0 = d1 - d2 - 53) as ->.
  { change (fexp PyFloat.prec PyFloat.emax (d1 - d2)) with (fexp64 (d1 - d2)).
    rewrite fexp64_eq. lia. }
  replace (0 - (d1 - d2 - 53)) with (53 + d2 - d1) by lia.
  set (s := 53 + d2 - d1). assert (2 <= s) as Hs by (unfold s; lia).
  assert (match s with Z0 => Zpos pa | Zpos _ => Z.shiftl (Zpos pa) s | Zneg _ => 0 end
          = Zpos pa * 2 ^ s) as ->.
  { destruct s; try lia. rewrite Z.shiftl_mul_pow2 by lia. reflexivity. }
  assert (0 < 2 ^ s) as HS by (apply Z.pow_pos_nonneg; lia).
  assert (0 < 2 ^ d1) as Hd1pw by (apply Z.pow_pos_nonneg; lia).
  pose proof (Z_div_mod (Zpos pa * 2 ^ s) (Zpos pb) ltac:(lia)) as Hdiv.
  assert (fst (Z.div_eucl (Zpos pa * 2 ^ s) (Zpos pb)) = Zpos pa * 2 ^ s / Zpos pb)
    as Hfst by reflexivity.
  destruct (Z.div_eucl (Zpos pa * 2 ^ s) (Zpos pb)) as [q r].
  simpl fst in Hfst. destruct Hdiv as [Hq Hr].
  (* the quotient has at most 54 bits *)
  assert (0 <= q < 2 ^ 54) as Hq54.
  { rewrite Hfst. split; [apply Z.div_pos; lia|].
    apply Z.div_lt_upper_bound; [lia|].
    assert (Zpos pa * 2 ^ s < 2 ^ d1 * 2 ^ s) by (apply Z.mul_lt_mono_pos_r; lia).
    assert (2 ^ d1 * 2 ^ s = 2 ^ 54 * 2 ^ (d2 - 1)) as Hpw.
    { rewrite <- !Z.pow_add_r by lia. f_equal. unfold s. lia. }
    assert (2 ^ 54 * 2 ^ (d2 - 1) <= 2 ^ 54 * Zpos pb)
      by (apply Z.mul_le_mono_nonneg_l; lia).
    lia. }
  destruct (binary_round_aux_spec q (d1 - d2 - 53)
              (new_location (Zpos pb) r) ltac:(lia))
    as (m1 & Hm1 & ->).
  cbv zeta in Hm1.
  set (k := Z.max 0 (fexp64 (Zdigits2 q + (d1 - d2 - 53)) - (d1 - d2 - 53))) in *.
  assert (0 <= k <= 1) as Hk.
  { unfold k. rewrite fexp64_eq.
    pose proof (Zdigits2_le q 54 Hq54 ltac:(lia)). lia. }
  replace (d1 - d2 - 53 + k - (d1 - d2 - 53)) with k in Hm1 by lia.
  assert (0 < 2 ^ k <= 2) as HK.
  { destruct (Z.eq_dec k 0) as [->|]; [simpl; lia|].
    replace k with 1 by lia. simpl. lia. }
  assert (2 ^ s = 2 ^ k * 2 ^ (s - k)) as HT.
  { rewrite <- Z.pow_add_r by lia. f_equal. lia. }
  assert (0 < 2 ^ (s - k)) as HTp by (apply Z.pow_pos_nonneg; lia).
  assert (2 ^ k * Zpos pb < 2 ^ s) as HKb.
  { assert (2 ^ (d2 + 1) <= 2 ^ s) as Hle by (apply Z.pow_le_mono_r; unfold s; lia).
    rewrite Z.pow_add_r in Hle by lia. change (2 ^ 1) with 2 in Hle.
    assert (2 ^ k * Zpos pb <= 2 * Zpos pb) by (apply Z.mul_le_mono_nonneg_r; lia).
    lia. }
  rewrite Hfst in Hm1.
  pose proof (quotient_bracket (Zpos pa) (Zpos pb) (2 ^ s) (2 ^ k) (2 ^ (s - k)) m1
                ltac:(lia) ltac:(lia) ltac:(lia) HTp HT HKb Hm1) as [Hbr1 Hbr2].
  set (n := Zpos pa / Zpos pb) in *.
  assert (0 <= n) as Hn0 by (apply Z.div_pos; lia).
  assert (0 <= n * 2 ^ (s - k)) by (apply Z.mul_nonneg_nonneg; lia).
  eexists. split; [reflexivity|].
  rewrite to_int_fit.
  - f_equal. replace (- (d1 - d2 - 53 + k)) with (s - k) by (unfold s; lia).
    symmetry. apply Z.div_unique with (m1 - n * 2 ^ (s - k)); lia.
  - lia.
  - lia.
  - rewrite fexp64_eq.
    assert (Zdigits2 m1 <= 52 + (s - k)); [|unfold s in *; lia].
    apply Zdigits2_le; [|lia]. split; [lia|].
    rewrite Z.pow_add_r by lia.
    assert (n + 1 <= 2 ^ 52) as Hn52.
    { assert (n <= Zpos pa); [|lia].
      apply Z.div_le_upper_bound; [lia|].
      assert (1 * Zpos pa <= Zpos pb * Zpos pa)
        by (apply Z.mul_le_mono_nonneg_r; lia).
      lia. }
    eapply Z.lt_le_trans; [exact Hbr2|].
    apply Z.mul_le_mono_nonneg_r; lia.
Qed.

(** ** Floats in the range of a media time *)

Lemma of_Z_2_32 : PyFloat.of_Z (2 ^ 32) = S754_finite false 4503599627370496 (-20).
Proof. vm_compute. reflexivity. Qed.

Lemma of_Z_us_per_second :
  PyFloat.of_Z Datetime.us_per_second = S754_finite false 8589934592000000 (-33).
Proof. vm_compute. reflexivity. Qed.

Lemma compare_cont_lt (m c : positive) :
  Pos.compare_cont Eq m c = Lt -> Zpos m < Zpos c.
Proof. intros H. exact H. Qed.

(** A valid float in [0, 2^32) is a zero, or a positive mantissa below
    [2^53] with a negative exponent. *)
Lemma media_time_cases (x : float) :
  valid_binary PyFloat.prec PyFloat.emax x = true ->
  PyFloat.nonneg x = true ->
  SFltb x (PyFloat.of_Z (2 ^ 32)) = true ->
  (exists s, x = S754_zero s)
  \/ exists m p, x = S754_finite false m (Zneg p)
       /\ Zpos m < 2 ^ 53 /\ 20 <= Zpos p <= 1074
       /\ Zpos m < 2 ^ 32 * 2 ^ Zpos p.
Proof.
  rewrite of_Z_2_32. intros Hvalid Hnonneg Hlt.
  destruct x as [s|s| |s m e]; try discriminate.
  - left. exists s. reflexivity.
  - destruct s; discriminate.
  - destruct s; [discriminate|]. right.
    unfold valid_binary, bounded, canonical_mantissa in Hvalid.
    apply andb_prop in Hvalid as [Hcanon _].
    apply Z.eqb_eq in Hcanon.
    change (fexp PyFloat.prec PyFloat.emax) with fexp64 in Hcanon.
    rewrite fexp64_eq in Hcanon.
    pose proof (digits2_pos_bounds m) as [_ Hm].
    set (d := Zpos (digits2_pos m)) in *.
    assert (0 < d) as Hd by (unfold d; lia).
    assert (d <= 53 /\ -1074 <= e) as [Hd53 He] by lia.
    assert (Zpos m < 2 ^ 53) as Hm53.
    { eapply Z.lt_le_trans; [exact Hm|]. apply Z.pow_le_mono_r; lia. }
    unfold SFltb, SFcompare in Hlt.
    destruct (Z.compare e (-20)) eqn:Hcmp; try discriminate.
    + apply Z.compare_eq in Hcmp. subst e.
      exists m, 20%positive. split; [reflexivity|]. split; [exact Hm53|].
      split; [lia|].
      destruct (Pos.compare_cont Eq m 4503599627370496) eqn:Hmc; try discriminate.
      apply compare_cont_lt in Hmc. change (2 ^ 32 * 2 ^ 20) with 4503599627370496.
      exact Hmc.
    + rewrite Z.compare_lt_iff in Hcmp. destruct e as [|p|p]; try lia.
      exists m, p. split; [reflexivity|]. split; [exact Hm53|]. split; [lia|].
      eapply Z.lt_le_trans; [exact Hm53|].
      change (2 ^ 53) with (2 ^ 32 * 2 ^ 21).
      apply Z.mul_le_mono_nonneg_l; [lia|]. apply Z.pow_le_mono_r; lia.
Qed.

(** ** [modf] and [int] on what [binary_normalize] builds *)

Lemma to_int_normalize (z : Z) :
  0 <= z < 2 ^ 53 ->
  PyFloat.to_int (binary_normalize PyFloat.prec PyFloat.emax z 0 false) = Ok z.
Proof.
  intros [Hz0 Hz]. destruct z as [|z|z]; [reflexivity| |lia].
  destruct (binary_normalize_exact z 0) as (mz & ez & -> & Hez & Hmz);
    [apply digits2_pos_le; exact Hz|lia|].
  unfold PyFloat.to_int. destruct ez as [|q|q]; [|lia|].
  - rewrite Z.shiftl_0_r. simpl in Hmz. f_equal. lia.
  - rewrite Z.shiftr_div_pow2 by lia. rewrite Hmz.
    replace (0 - Zneg q) with (Zpos q) by lia.
    rewrite Z.div_mul; [reflexivity|].
    assert (0 < 2 ^ Zpos q) by (apply Z.pow_pos_nonneg; lia). lia.
Qed.

Lemma normalize_fraction (l p : positive) :
  Zpos l < 2 ^ 53 -> Zpos p <= 1074 ->
  exists ml pl,
    binary_normalize PyFloat.prec PyFloat.emax (Zpos l) (Zneg p) false
    = S754_finite false ml (Zneg pl)
    /\ Zpos p <= Zpos pl
    /\ Zpos ml = Zpos l * 2 ^ (Zpos pl - Zpos p).
Proof.
  intros Hl Hp.
  destruct (binary_normalize_exact l (Zneg p)) as (ml & el & Heq & Hel & Hml);
    [apply digits2_pos_le; exact Hl|lia|].
  destruct el as [|pl|pl]; try lia.
  exists ml, pl. split; [exact Heq|]. split; [lia|].
  rewrite Hml. f_equal; f_equal; try lia.
Qed.

Lemma compare_scale (a b c : Z) : 0 < c -> (a * c ?= b * c) = (a ?= b).
Proof.
  intros Hc. destruct (Z.compare_spec a b) as [H|H|H].
  - subst. apply Z.compare_refl.
  - apply Z.compare_lt_iff. nia.
  - apply Z.compare_gt_iff. nia.
Qed.

(** The rounding of the left-over fraction [lo / 2^q] of a microsecond:
    down below one half, up above, to the even total at one half. *)
Lemma round_leftover_spec (odd : bool) (lo : Z) (q : positive) :
  0 <= lo < 2 ^ 53 -> Zpos q <= 1074 ->
  Datetime.round_leftover odd
    (binary_normalize PyFloat.prec PyFloat.emax lo (Zneg q) false)
  = match 2 * lo ?= 2 ^ Zpos q with
    | Lt => 0
    | Gt => 1
    | Eq => if odd then 1 else 0
    end.
Proof.
  intros [Hlo0 Hlo] Hq.
  assert (0 < 2 ^ Zpos q) as Hpow by (apply Z.pow_pos_nonneg; lia).
  destruct lo as [|l|l]; [|destruct (normalize_fraction l q Hlo Hq)
                             as (ml & pl & -> & Hpl & Hml)|lia].
  - change (Datetime.round_leftover odd
              (binary_normalize PyFloat.prec PyFloat.emax 0 (Zneg q) false)) with 0.
    replace (2 * 0 ?= 2 ^ Zpos q) with Lt
      by (symmetry; apply Z.compare_lt_iff; lia).
    reflexivity.
  - unfold Datetime.round_leftover, PyFloat.sign, PyFloat.compare_half.
    rewrite Z.shiftl_1_l.
    assert ((Zpos ml~0 ?= 2 ^ Zpos pl) = (2 * Zpos l ?= 2 ^ Zpos q)) as ->;
      [|reflexivity].
    assert (2 ^ Zpos pl = 2 ^ Zpos q * 2 ^ (Zpos pl - Zpos q)) as ->.
    { rewrite <- Z.pow_add_r by lia. f_equal. lia. }
    assert (0 < 2 ^ (Zpos pl - Zpos q)) as Hc by (apply Z.pow_pos_nonneg; lia).
    rewrite (Pos2Z.inj_xO ml), Hml.
    replace (2 * (Zpos l * 2 ^ (Zpos pl - Zpos q)))
      with (2 * Zpos l * 2 ^ (Zpos pl - Zpos q)) by lia.
    apply compare_scale. exact Hc.
Qed.

Lemma fit_finite (m e : Z) :
  Z.max e (fexp64 (Zdigits2 m + e)) <= 971 ->
  fit m e
  = finite_or_zero (m / 2 ^ (Z.max e (fexp64 (Zdigits2 m + e)) - e))
      (Z.max e (fexp64 (Zdigits2 m + e))).
Proof.
  intros He. unfold fit.
  replace (e + Z.max 0 (fexp64 (Zdigits2 m + e) - e))
    with (Z.max e (fexp64 (Zdigits2 m + e))) by lia.
  destruct (m / 2 ^ _) as [|q|q]; try reflexivity. simpl.
  replace (_ <=? 971) with true by (symmetry; apply Z.leb_le; exact He).
  reflexivity.
Qed.

Lemma Zdigits2_bound (m : Z) : 0 <= m -> m < 2 ^ Zdigits2 m /\ 0 <= Zdigits2 m.
Proof.
  intros Hm. destruct m as [|p|p]; simpl; [lia| |lia].
  pose proof (digits2_pos_bounds p). lia.
Qed.

(** After the shift of [fit] the mantissa is below [2^53]. *)
Lemma fit_mantissa_bound (m e : Z) :
  0 <= m ->
  0 <= m / 2 ^ (Z.max e (fexp64 (Zdigits2 m + e)) - e) < 2 ^ 53.
Proof.
  intros Hm. destruct (Zdigits2_bound m Hm) as [Hd Hd0].
  set (k := Z.max e (fexp64 (Zdigits2 m + e)) - e).
  assert (0 <= k /\ Zdigits2 m - 53 <= k) as [Hk Hk'].
  { unfold k. rewrite fexp64_eq. lia. }
  assert (0 < 2 ^ k) by (apply Z.pow_pos_nonneg; lia).
  split; [apply Z.div_pos; lia|].
  apply Z.div_lt_upper_bound; [lia|].
  rewrite <- Z.pow_add_r by lia.
  eapply Z.lt_le_trans; [exact Hd|]. apply Z.pow_le_mono_r; lia.
Qed.

(** ** The fraction of a second, scaled to microseconds

    [1e6 * frac] in floating point, for a fraction [l / 2^p] below one:
    a float [m2 / 2^q] with [q >= 33], off the exact product by less than
    two units of its last place. *)
Lemma scaled_fraction (l p : positive) :
  Zpos l < 2 ^ Zpos p -> Zpos l < 2 ^ 53 -> Zpos p <= 1074 ->
  exists (m2 : Z) (q : positive),
    PyFloat.mul (PyFloat.of_Z Datetime.us_per_second)
      (binary_normalize PyFloat.prec PyFloat.emax (Zpos l) (Zneg p) false)
    = finite_or_zero m2 (Zneg q)
    /\ 0 <= m2 < 2 ^ 53 /\ 33 <= Zpos q <= 1074
    /\ Z.abs (m2 * 2 ^ Zpos p - 1000000 * Zpos l * 2 ^ Zpos q) < 2 * 2 ^ Zpos p.
Proof.
  intros Hl Hl53 Hp.
  destruct (normalize_fraction l p Hl53 Hp) as (mf & pl & -> & Hpl & Hmf).
  rewrite of_Z_us_per_second. unfold PyFloat.mul, SFmul.
  change (xorb false false) with false.
  set (e := -33 + Zneg pl).
  set (M := Zpos (8589934592000000 * mf)).
  assert (0 < 2 ^ Zpos p) as HP by (apply Z.pow_pos_nonneg; lia).
  assert (0 < 2 ^ (Zpos pl - Zpos p)) as HPl by (apply Z.pow_pos_nonneg; lia).
  assert (0 < 2 ^ (- e)) as HE by (apply Z.pow_pos_nonneg; lia).
  assert (2 ^ (- e) = 8589934592 * 2 ^ Zpos p * 2 ^ (Zpos pl - Zpos p)) as HEeq.
  { change 8589934592 with (2 ^ 33). rewrite <- !Z.pow_add_r by lia.
    f_equal. unfold e. lia. }
  assert (M = 1000000 * 8589934592 * Zpos l * 2 ^ (Zpos pl - Zpos p)) as HM.
  { unfold M. rewrite Pos2Z.inj_mul, Hmf. lia. }
  assert (0 < M) as HM0 by (unfold M; lia).
  assert (M * 2 ^ Zpos p = 1000000 * Zpos l * 2 ^ (- e)) as HMP.
  { rewrite HM, HEeq. ring. }
  assert (M < 1000000 * 2 ^ (- e)) as HMlt by nia.
  destruct (binary_round_aux_spec M e loc_Exact ltac:(lia)) as (m1 & Hm1 & ->).
  cbv zeta in Hm1.
  set (e1 := e + Z.max 0 (fexp64 (Zdigits2 M + e) - e)) in *.
  (* the first shift *)
  assert (Zdigits2 M <= 20 - e) as HdM.
  { apply Zdigits2_le; [|unfold e; lia]. split; [lia|].
    replace (20 - e) with (20 + - e) by lia.
    rewrite Z.pow_add_r by (unfold e; lia). change (2 ^ 20) with 1048576. lia. }
  assert (e <= e1 <= -33 /\ -1074 <= e1) as [He1 He1'].
  { unfold e1. rewrite fexp64_eq. unfold e in *. lia. }
  set (k1 := e1 - e) in *.
  assert (0 < 2 ^ k1) as HK1 by (apply Z.pow_pos_nonneg; unfold k1; lia).
  assert (0 < 2 ^ (- e1)) as HE1 by (apply Z.pow_pos_nonneg; lia).
  assert (2 ^ (- e) = 2 ^ (- e1) * 2 ^ k1) as HEk1.
  { rewrite <- Z.pow_add_r by (unfold k1; lia). f_equal. unfold k1. lia. }
  pose proof (Z.div_mod M (2 ^ k1) ltac:(lia)) as Hdm1.
  pose proof (Z.mod_pos_bound M (2 ^ k1) HK1) as Hmod1.
  assert (M / 2 ^ k1 < 1000000 * 2 ^ (- e1)) as Hq1.
  { apply Z.div_lt_upper_bound; [lia|]. rewrite HEk1 in HMlt. lia. }
  assert (0 <= M / 2 ^ k1) as Hq1' by (apply Z.div_pos; lia).
  (* the second shift *)
  assert (Zdigits2 m1 <= 20 - e1) as Hdm1'.
  { apply Zdigits2_le; [|lia]. split; [lia|].
    replace (20 - e1) with (20 + - e1) by lia.
    rewrite Z.pow_add_r by lia. change (2 ^ 20) with 1048576. lia. }
  set (e2 := Z.max e1 (fexp64 (Zdigits2 m1 + e1))).
  assert (e1 <= e2 <= -33 /\ -1074 <= e2) as [He2 He2'].
  { unfold e2. rewrite fexp64_eq. lia. }
  rewrite fit_finite by (fold e2; lia). fold e2.
  pose proof (fit_mantissa_bound m1 e1 ltac:(lia)) as Hm2. fold e2 in Hm2.
  set (k2 := e2 - e1) in *. set (m2 := m1 / 2 ^ k2) in *.
  assert (0 < 2 ^ k2) as HK2 by (apply Z.pow_pos_nonneg; unfold k2; lia).
  pose proof (Z.div_mod m1 (2 ^ k2) ltac:(lia)) as Hdm2. fold m2 in Hdm2.
  pose proof (Z.mod_pos_bound m1 (2 ^ k2) HK2) as Hmod2.
  destruct e2 as [|q|q] eqn:Heq2; try lia.
  exists m2, q. split; [reflexivity|]. split; [exact Hm2|]. split; [lia|].
  (* the error *)
  assert (0 < 2 ^ Zpos q) as HQ by (apply Z.pow_pos_nonneg; lia).
  assert (2 ^ (- e1) = 2 ^ Zpos q * 2 ^ k2) as HEk2.
  { rewrite <- Z.pow_add_r by (unfold k2; lia). f_equal. unfold k2. lia. }
  pose proof (two_shift_error M (2 ^ k1) (2 ^ k2) m1 HK1 HK2 ltac:(lia) Hm1) as Herr.
  fold m2 in Herr.
  set (D := 2 ^ k1 * 2 ^ k2) in *.
  assert (2 ^ (- e) = 2 ^ Zpos q * D) as HED by (unfold D; rewrite HEk1, HEk2; ring).
  assert (0 < D) as HD by (apply Z.mul_pos_pos; assumption).
  apply (scale_bound _ (m2 * D - M) D); [exact HD|exact HP| |exact Herr].
  rewrite Z.mul_sub_distr_r. rewrite (Z.mul_sub_distr_r (m2 * D)).
  rewrite HMP, HED. ring.
Qed.

Lemma modf_finite_or_zero (m2 : Z) (q : positive) :
  0 <= m2 ->
  PyFloat.modf (finite_or_zero m2 (Zneg q))
  = (binary_normalize PyFloat.prec PyFloat.emax (m2 mod 2 ^ Zpos q) (Zneg q) false,
     binary_normalize PyFloat.prec PyFloat.emax (m2 / 2 ^ Zpos q) 0 false).
Proof.
  intros Hm2. destruct m2 as [|m|m]; [|
    |lia].
  - rewrite Z.mod_0_l, Z.div_0_l by (apply Z.pow_nonzero; lia). reflexivity.
  - unfold finite_or_zero, PyFloat.modf.
    rewrite Z.land_ones, Z.shiftr_div_pow2 by lia. reflexivity.
Qed.

Lemma rounding_error (hi lo r m2 Q P L : Z) :
  0 < P -> 8589934592 <= Q -> m2 = Q * hi + lo ->
  2 * Z.abs (r * Q - lo) <= Q ->
  Z.abs (m2 * P - L * Q) < 2 * P ->
  4294967296 * Z.abs ((hi + r) * P - L) < 2147483649 * P.
Proof.
  intros HP HQ Hm2 Hhalf Herr.
  set (X := (hi + r) * P - L).
  assert (X * Q = (r * Q - lo) * P + (m2 * P - L * Q)) as HX
    by (unfold X; rewrite Hm2; ring).
  assert (Z.abs X * Q <= Z.abs (r * Q - lo) * P + Z.abs (m2 * P - L * Q)) as Htri.
  { rewrite <- (Z.abs_eq Q) at 1 by lia. rewrite <- Z.abs_mul, HX.
    eapply Z.le_trans; [apply Z.abs_triangle|].
    rewrite Z.abs_mul, (Z.abs_eq P) by lia. lia. }
  assert (2 * (Z.abs (r * Q - lo) * P) <= Q * P) as Hh.
  { replace (2 * (Z.abs (r * Q - lo) * P)) with (2 * Z.abs (r * Q - lo) * P) by ring.
    apply Z.mul_le_mono_nonneg_r; lia. }
  assert (8589934592 * P <= Q * P) as HQP by (apply Z.mul_le_mono_nonneg_r; lia).
  apply Z.mul_lt_mono_pos_r with Q; [lia|].
  replace (4294967296 * Z.abs X * Q) with (4294967296 * (Z.abs X * Q)) by ring.
  replace (2147483649 * P * Q) with (2147483649 * (Q * P)) by ring.
  lia.
Qed.

(** The microseconds [timedelta(seconds=x)] counts for a positive [x]
    with a negative exponent: within half a microsecond (and [2^-32]) of
    [x], and between the whole seconds of [x] and the next second. *)
Lemma of_seconds_finite (m p : positive) :
  Zpos m < 2 ^ 53 -> Zpos p <= 1074 ->
  exists us,
    Datetime.of_seconds (S754_finite false m (Zneg p))
    = Datetime.microseconds_to_delta us
    /\ (Zpos m / 2 ^ Zpos p) * 1000000 <= us <= (Zpos m / 2 ^ Zpos p) * 1000000 + 1000000
    /\ 2 ^ 32 * Z.abs (us * 2 ^ Zpos p - 1000000 * Zpos m) < (2 ^ 31 + 1) * 2 ^ Zpos p.
Proof.
  intros Hm Hp.
  assert (0 < 2 ^ Zpos p) as HP by (apply Z.pow_pos_nonneg; lia).
  pose proof (Z.div_mod (Zpos m) (2 ^ Zpos p) ltac:(lia)) as Hdm.
  pose proof (Z.mod_pos_bound (Zpos m) (2 ^ Zpos p) HP) as Hmod.
  assert (0 <= Zpos m / 2 ^ Zpos p) as Hip by (apply Z.div_pos; lia).
  assert (Zpos m / 2 ^ Zpos p < 2 ^ 53) as Hip53.
  { apply Z.div_lt_upper_bound; [lia|]. nia. }
  unfold Datetime.of_seconds.
  change (PyFloat.modf (S754_finite false m (Zneg p)))
    with (PyFloat.modf (finite_or_zero (Zpos m) (Zneg p))).
  rewrite modf_finite_or_zero by lia.
  rewrite to_int_normalize by lia.
  change (Ok (Zpos m / 2 ^ Zpos p) ≫= ?k) with (k (Zpos m / 2 ^ Zpos p)).
  cbv beta zeta.
  set (ip := Zpos m / 2 ^ Zpos p) in *. set (l := Zpos m mod 2 ^ Zpos p) in *.
  change Datetime.us_per_second with 1000000 at 1.
  destruct l as [|l'|l'] eqn:Hl; [| |lia].
  - (* no fraction *)
    simpl PyFloat.is_zero. cbv iota.
    exists (ip * 1000000). split; [reflexivity|]. split; [lia|].
    replace (ip * 1000000 * 2 ^ Zpos p - 1000000 * Zpos m) with 0 by lia.
    simpl Z.abs. lia.
  - destruct (scaled_fraction l' p ltac:(lia) ltac:(lia) Hp)
      as (m2 & q & Hdnum & Hm2 & Hq & Herr).
    destruct (normalize_fraction l' p ltac:(lia) Hp) as (mf & pl & Hfrac & _ & _).
    rewrite Hfrac in *. simpl PyFloat.is_zero. cbv iota.
    rewrite Hdnum, modf_finite_or_zero by lia.
    assert (0 < 2 ^ Zpos q) as HQ by (apply Z.pow_pos_nonneg; lia).
    pose proof (Z.div_mod m2 (2 ^ Zpos q) ltac:(lia)) as Hdm2.
    pose proof (Z.mod_pos_bound m2 (2 ^ Zpos q) HQ) as Hmod2.
    assert (0 <= m2 / 2 ^ Zpos q) as Hhi by (apply Z.div_pos; lia).
    assert (m2 / 2 ^ Zpos q < 2 ^ 53) as Hhi53.
    { apply Z.div_lt_upper_bound; [lia|]. nia. }
    rewrite to_int_normalize by lia.
    change (Ok (m2 / 2 ^ Zpos q) ≫= ?k) with (k (m2 / 2 ^ Zpos q)).
    cbv beta zeta.
    rewrite round_leftover_spec by lia.
    set (hi := m2 / 2 ^ Zpos q) in *. set (lo := m2 mod 2 ^ Zpos q) in *.
    set (r := match 2 * lo ?= 2 ^ Zpos q with
              | Eq => if Z.odd (ip * 1000000 + hi) then 1 else 0
              | Lt => 0
              | Gt => 1
              end).
    assert (0 <= r <= 1 /\ 2 * Z.abs (r * 2 ^ Zpos q - lo) <= 2 ^ Zpos q) as [Hr Hhalf].
    { unfold r. destruct (Z.compare_spec (2 * lo) (2 ^ Zpos q)) as [Hc|Hc|Hc];
        [destruct (Z.odd _)| |]; split; lia. }
    exists (ip * 1000000 + hi + r). split; [reflexivity|].
    assert (8589934592 <= 2 ^ Zpos q) as HQ33.
    { change 8589934592 with (2 ^ 33). apply Z.pow_le_mono_r; lia. }
    pose proof (rounding_error hi lo r m2 (2 ^ Zpos q) (2 ^ Zpos p)
                  (1000000 * Zpos l') HP HQ33 Hdm2 Hhalf Herr) as HX.
    replace ((ip * 1000000 + hi + r) * 2 ^ Zpos p - 1000000 * Zpos m)
      with ((hi + r) * 2 ^ Zpos p - 1000000 * Zpos l')
      by (rewrite Hdm; ring).
    change (2 ^ 32) with 4294967296. change (2 ^ 31 + 1) with 2147483649.
    split; [|exact HX].
    split; [lia|].
    assert (hi + r < 1000000 + 1); [|lia].
    apply Z.mul_lt_mono_pos_r with (2 ^ Zpos p); [exact HP|].
    assert (Z.abs ((hi + r) * 2 ^ Zpos p - 1000000 * Zpos l') < 2 ^ Zpos p) as HX1
      by lia.
    apply Z.abs_lt in HX1.
    assert (1000000 * Zpos l' <= 1000000 * 2 ^ Zpos p)
      by (apply Z.mul_le_mono_nonneg_l; lia).
    lia.
Qed.

Lemma microseconds_to_delta_ok (us : Z) :
  0 <= us < 2 ^ 52 ->
  exists td,
    Datetime.microseconds_to_delta us = Ok td
    /\ Datetime.to_microseconds td = us
    /\ Datetime.microseconds td = us mod 1000000.
Proof.
  intros [Hus0 Hus]. unfold Datetime.microseconds_to_delta.
  change Datetime.us_per_second with 1000000.
  change Datetime.seconds_per_day with 86400.
  change Datetime.max_delta_days with 999999999.
  pose proof (Z.div_mod us 1000000 ltac:(lia)) as Hd1.
  pose proof (Z.mod_pos_bound us 1000000 ltac:(lia)) as Hb1.
  pose proof (Z.div_mod (us / 1000000) 86400 ltac:(lia)) as Hd2.
  pose proof (Z.mod_pos_bound (us / 1000000) 86400 ltac:(lia)) as Hb2.
  change (2 ^ 52) with 4503599627370496 in Hus.
  set (s := us / 1000000) in *. set (d := s / 86400) in *.
  assert ((Z.abs d <=? 999999999) = true) as -> by (apply Z.leb_le; lia).
  eexists. split; [reflexivity|].
  unfold Datetime.to_microseconds. simpl.
  change Datetime.us_per_second with 1000000.
  change Datetime.seconds_per_day with 86400.
  split; [lia|reflexivity].
Qed.

(** Once the microseconds are counted, the rest of [format_timestamp] is
    integer arithmetic: the two true divisions are exact after [int]. *)
Lemma format_timestamp_of_microseconds (x : float) (separator : string) (us : Z) :
  Datetime.of_seconds x = Datetime.microseconds_to_delta us ->
  0 <= us < 2 ^ 52 ->
  format_timestamp x separator = Ok (clock us separator).
Proof.
  intros Hx Hus. unfold format_timestamp. rewrite Hx.
  destruct (microseconds_to_delta_ok us Hus) as (td & -> & Htd & Hmicro).
  change (Ok td ≫= ?k) with (k td). cbv beta.
  unfold Datetime.total_seconds. rewrite Htd, Hmicro.
  change Datetime.us_per_second with 1000000.
  destruct (to_int_int_true_div us 1000000 Hus ltac:(simpl; lia)) as (ts & -> & Hts).
  change (Ok ts ≫= ?k) with (k ts). cbv beta. rewrite Hts.
  change (Ok (us / 1000000) ≫= ?k) with (k (us / 1000000)). cbv beta zeta.
  pose proof (Z.mod_pos_bound us 1000000 ltac:(lia)) as Hb.
  destruct (to_int_int_true_div (us mod 1000000) 1000
              ltac:(change (2 ^ 52) with 4503599627370496; lia) ltac:(simpl; lia))
    as (ms & -> & Hms).
  change (Ok ms ≫= ?k) with (k ms). cbv beta. rewrite Hms.
  reflexivity.
Qed.

(** A valid binary64 time in [[0, 2^32)] seconds: the microseconds
    [timedelta] counts for it. *)
Lemma media_time_microseconds (x : float) :
  valid_binary PyFloat.prec PyFloat.emax x = true ->
  PyFloat.nonneg x = true ->
  SFltb x (PyFloat.of_Z (2 ^ 32)) = true ->
  exists us ip,
    Datetime.of_seconds x = Datetime.microseconds_to_delta us
    /\ 0 <= us < 2 ^ 52
    /\ rounds_to_microseconds x us
    /\ PyFloat.to_int x = Ok ip
    /\ 0 <= ip < 2 ^ 32
    /\ ip * 1000000 <= us <= ip * 1000000 + 1000000.
Proof.
  intros Hvalid Hnonneg Hlt.
  destruct (media_time_cases x Hvalid Hnonneg Hlt)
    as [[s ->]|(m & p & -> & Hm & Hp & Hrange)].
  - exists 0, 0. split; [destruct s; reflexivity|].
    split; [split; [lia|reflexivity]|].
    split; [reflexivity|]. split; [reflexivity|]. split; [split; [lia|reflexivity]|lia].
  - destruct (of_seconds_finite m p Hm ltac:(lia)) as (us & Hus & Hbounds & Hnear).
    assert (0 < 2 ^ Zpos p) as HP by (apply Z.pow_pos_nonneg; lia).
    assert (0 <= Zpos m / 2 ^ Zpos p < 2 ^ 32) as Hip.
    { split; [apply Z.div_pos; lia|]. apply Z.div_lt_upper_bound; lia. }
    exists us, (Zpos m / 2 ^ Zpos p).
    split; [exact Hus|]. split.
    { change (2 ^ 32) with 4294967296 in Hip.
      change (2 ^ 52) with 4503599627370496. lia. }
    split; [|split; [|split; [exact Hip|exact Hbounds]]].
    + unfold rounds_to_microseconds.
      replace (Z.max 0 (- Zneg p)) with (Zpos p) by lia.
      replace (Z.max 0 (Zneg p)) with 0 by lia.
      rewrite Z.pow_0_r, Z.mul_1_r. exact Hnear.
    + unfold PyFloat.to_int. rewrite Z.shiftr_div_pow2 by lia. reflexivity.
Qed.

Lemma all_digits_app (s t : string) :
  all_digits (s +:+ t) = all_digits s && all_digits t.
Proof.
  induction s as [|c s IH]; [reflexivity|].
  simpl. rewrite IH, andb_assoc. reflexivity.
Qed.

Lemma all_digits_zeros (n : nat) : all_digits (PyStr.zeros n) = true.
Proof. induction n as [|n IH]; [reflexivity|]. simpl. exact IH. Qed.

Lemma length_zeros (n : nat) : String.length (PyStr.zeros n) = n.
Proof. induction n as [|n IH]; [reflexivity|]. simpl. rewrite IH. reflexivity. Qed.

Lemma is_digit_pretty_N_char (x : N) : is_digit (pretty_N_char x) = true.
Proof.
  unfold pretty_N_char.
  repeat match goal with
         | |- context [match ?y with _ => _ end] => destruct y
         end; reflexivity.
Qed.

Lemma pretty_N_go_digits (x : N) :
  forall s, all_digits s = true -> all_digits (pretty_N_go x s) = true.
Proof.
  induction (N.lt_wf_0 x) as [x _ IH]. intros s Hs.
  destruct (N.eq_dec x 0%N) as [->|Hx]; [exact Hs|].
  rewrite pretty_N_go_step by lia.
  apply IH; [apply N.div_lt; lia|].
  simpl. rewrite is_digit_pretty_N_char. exact Hs.
Qed.

Lemma pretty_N_digits (x : N) : all_digits (pretty x) = true.
Proof.
  unfold pretty, pretty_N. destruct (decide (x = 0%N)); [reflexivity|].
  apply pretty_N_go_digits. reflexivity.
Qed.

Lemma format_zero_nonneg (w : nat) (z : Z) :
  0 <= z ->
  PyStr.format_zero w z
  = PyStr.zeros (w - String.length (pretty (Z.abs_N z))) +:+ pretty (Z.abs_N z).
Proof.
  intros Hz. unfold PyStr.format_zero.
  replace (z <? 0) with false by (symmetry; apply Z.ltb_ge; exact Hz).
  rewrite str_app_nil_l. simpl String.length. rewrite Nat.sub_0_r. reflexivity.
Qed.

(** [f"{z:0w}"] of a non-negative int: digits only, at least [w]. *)
Lemma format_zero_open (w : nat) (z : Z) :
  0 <= z -> field true w (PyStr.format_zero w z) = true.
Proof.
  intros Hz. rewrite format_zero_nonneg by exact Hz. unfold field.
  rewrite all_digits_app, all_digits_zeros, pretty_N_digits.
  rewrite str_length_app, length_zeros. simpl. apply Nat.leb_le. lia.
Qed.

(** The closed fields, checked over their whole range. *)
Lemma format_zero_closed_2 (z : Z) :
  0 <= z < 100 -> field false 2 (PyStr.format_zero 2 z) = true.
Proof.
  intros Hz.
  assert (forallb (fun n => field false 2 (PyStr.format_zero 2 (Z.of_nat n)))
            (seq 0 100) = true) as Hall by (vm_compute; reflexivity).
  rewrite forallb_forall in Hall.
  rewrite <- (Z2Nat.id z) by lia. apply Hall. apply in_seq. lia.
Qed.

Lemma format_zero_closed_3 (z : Z) :
  0 <= z < 1000 -> field false 3 (PyStr.format_zero 3 z) = true.
Proof.
  intros Hz.
  assert (forallb (fun n => field false 3 (PyStr.format_zero 3 (Z.of_nat n)))
            (seq 0 1000) = true) as Hall by (vm_compute; reflexivity).
  rewrite forallb_forall in Hall.
  rewrite <- (Z2Nat.id z) by lia. apply Hall. apply in_seq. lia.
Qed.

Lemma clock_time_code (us : Z) (separator : string) :
  0 <= us -> time_code separator (clock us separator).
Proof.
  intros Hus. unfold clock, time_code. cbv zeta.
  assert (0 <= us / 1000000) as Hs by (apply Z.div_pos; lia).
  pose proof (Z.mod_pos_bound (us / 1000000) 3600 ltac:(lia)) as Hm.
  pose proof (Z.mod_pos_bound (us / 1000000) 60 ltac:(lia)) as Hsec.
  pose proof (Z.mod_pos_bound us 1000000 ltac:(lia)) as Hu.
  eexists _, _, _, _. split; [reflexivity|].
  split; [apply format_zero_open, Z.div_pos; lia|].
  split; [apply format_zero_closed_2|].
  { split; [apply Z.div_pos; lia|]. apply Z.div_lt_upper_bound; lia. }
  split; [apply format_zero_closed_2; lia|].
  apply format_zero_closed_3.
  split; [apply Z.div_pos; lia|]. apply Z.div_lt_upper_bound; lia.
Qed.

(** ** What [format_timestamp] prints *)

(** X1: for a valid binary64 time [x] with [0 <= x < 2^32] seconds,
    [format_timestamp] returns; what it prints is [x] rounded to a whole
    number [us] of microseconds (within half a microsecond and [2^-32] of
    [x], and between the whole seconds of [x] and the next second), with
    the seconds [us div 10^6] split into hours, minutes and seconds and the
    milliseconds [(us mod 10^6) div 1000]. *)
Theorem format_timestamp_rounds_to_microseconds (x : float) (separator : string) :
  valid_binary PyFloat.prec PyFloat.emax x = true ->
  PyFloat.nonneg x = true ->
  SFltb x (PyFloat.of_Z (2 ^ 32)) = true ->
  exists us ip,
    format_timestamp x separator = Ok (clock us separator)
    /\ rounds_to_microseconds x us
    /\ PyFloat.to_int x = Ok ip
    /\ ip * 1000000 <= us <= ip * 1000000 + 1000000.
Proof.
  intros Hvalid Hnonneg Hlt.
  destruct (media_time_microseconds x Hvalid Hnonneg Hlt)
    as (us & ip & Hus & Hrange & Hnear & Hip & _ & Hbounds).
  exists us, ip. split; [|split; [exact Hnear|split; [exact Hip|exact Hbounds]]].
  apply format_timestamp_of_microseconds; assumption.
Qed.

(** X2: for a valid binary64 time in [[0, 2^32)] seconds and any
    separator, the result has the layout [HH:MM:SS<sep>mmm]: decimal
    digits only, two or more for the hours, two for the minutes, two for
    the seconds, three for the milliseconds. *)
Theorem format_timestamp_layout (x : float) (separator : string) :
  valid_binary PyFloat.prec PyFloat.emax x = true ->
  PyFloat.nonneg x = true ->
  SFltb x (PyFloat.of_Z (2 ^ 32)) = true ->
  exists s, format_timestamp x separator = Ok s /\ time_code separator s.
Proof.
  intros Hvalid Hnonneg Hlt.
  destruct (media_time_microseconds x Hvalid Hnonneg Hlt)
    as (us & ip & Hus & Hrange & _).
  exists (clock us separator). split.
  - apply format_timestamp_of_microseconds; assumption.
  - apply clock_time_code. lia.
Qed.

(** X3: a segment whose start time is not finite stops the run in every
    format, the ones that print no time included: the log line needs its
    time code, [timedelta] raises (OverflowError for an infinity, ValueError
    for a NaN), and nothing of the segment is logged or written. *)
Theorem non_finite_start_aborts_segment (E : env) (fmt : string)
    (file_handle : option string) (i : nat) (seg : segment)
    (json_results : list Json.record) (w : world) :
  PyFloat.is_finite (seg_start seg) = false ->
  process_segment E fmt file_handle i seg json_results w
  = (Raise (match seg_start seg with
            | S754_nan => Exn "ValueError" "cannot convert float NaN to integer"
            | _ => Exn "OverflowError" "cannot convert float infinity to integer"
            end), w).
Proof.
  intros Hx. unfold process_segment. rewrite bind_unfold. unfold lift at 1.
  destruct (seg_start seg) as [s|s| |s m e]; try discriminate; reflexivity.
Qed.

Lemma format_timestamp_rounds_to_microseconds_witness :
  exists us ip,
    format_timestamp (PyFloat.decimal 36612505 4) "," = Ok (clock us ",")
    /\ rounds_to_microseconds (PyFloat.decimal 36612505 4) us
    /\ PyFloat.to_int (PyFloat.decimal 36612505 4) = Ok ip
    /\ ip * 1000000 <= us <= ip * 1000000 + 1000000.
Proof.
  apply (format_timestamp_rounds_to_microseconds (PyFloat.decimal 36612505 4) ",");
    vm_compute; reflexivity.
Defined.

Lemma format_timestamp_layout_witness :
  exists s,
    format_timestamp (PyFloat.decimal 9999995 7) "." = Ok s /\ time_code "." s.
Proof.
  apply (format_timestamp_layout (PyFloat.decimal 9999995 7) ".");
    vm_compute; reflexivity.
Defined.

Lemma non_finite_start_aborts_segment_witness :
  process_segment (posix_env (fixed_engine []) None) "txt" (Some "a.txt") 0
    (Segment S754_nan (PyFloat.of_Z 1) "text") [] cold_world
  = (Raise (Exn "ValueError" "cannot convert float NaN to integer"), cold_world).
Proof.
  apply (non_finite_start_aborts_segment (posix_env (fixed_engine []) None) "txt"
           (Some "a.txt") 0 (Segment S754_nan (PyFloat.of_Z 1) "text") [] cold_world).
  reflexivity.
Defined.

(** ** The time code, as the code computes it *)

(** C4 (as the code has it): for every valid binary64 time [x] with
    [0 <= x < 2^32] seconds and every separator, [format_timestamp]
    returns a string of the layout [HH:MM:SS<sep>mmm] (hours of two digits
    or more, not wrapped at 24; minutes and seconds of two digits,
    milliseconds of three). What it shows is not [x] truncated: [timedelta]
    first rounds [x] to a whole number [us] of microseconds, within half a
    microsecond of [x] (and [2^-32], the error of the scaling in floating
    point); the seconds shown are [us div 10^6] and the milliseconds
    [(us mod 10^6) div 1000], so the time shown is between the whole
    seconds of [x] and the next second. *)
Theorem format_timestamp_rounds_then_truncates (x : float) (separator : string) :
  valid_binary PyFloat.prec PyFloat.emax x = true ->
  PyFloat.nonneg x = true ->
  SFltb x (PyFloat.of_Z (2 ^ 32)) = true ->
  exists us ip s,
    format_timestamp x separator = Ok s
    /\ s = clock us separator
    /\ time_code separator s
    /\ rounds_to_microseconds x us
    /\ PyFloat.to_int x = Ok ip
    /\ ip * 1000000 <= us <= ip * 1000000 + 1000000.
Proof.
  intros Hvalid Hnonneg Hlt.
  destruct (media_time_microseconds x Hvalid Hnonneg Hlt)
    as (us & ip & Hus & Hrange & Hnear & Hip & _ & Hbounds).
  exists us, ip, (clock us separator).
  split; [apply format_timestamp_of_microseconds; assumption|].
  split; [reflexivity|]. split; [apply clock_time_code; lia|].
  split; [exact Hnear|]. split; [exact Hip|exact Hbounds].
Qed.

(** C4 as stated fails: 0.9999996 s is shown as one second and no
    millisecond, where truncation gives no second and 999 milliseconds;
    and 10^14 s has no time code at all, [timedelta] overflows. *)
Lemma format_timestamp_counterexample :
  (valid_binary PyFloat.prec PyFloat.emax (PyFloat.decimal 9999996 7) = true
   /\ PyFloat.nonneg (PyFloat.decimal 9999996 7) = true
   /\ PyFloat.to_int (PyFloat.decimal 9999996 7) = Ok 0
   /\ PyFloat.to_int (PyFloat.mul (PyFloat.decimal 9999996 7) (PyFloat.of_Z 1000))
      = Ok 999
   /\ format_timestamp (PyFloat.decimal 9999996 7) "," = Ok "00:00:01,000")
  /\ (valid_binary PyFloat.prec PyFloat.emax (PyFloat.of_Z (10 ^ 14)) = true
      /\ PyFloat.nonneg (PyFloat.of_Z (10 ^ 14)) = true
      /\ format_timestamp (PyFloat.of_Z (10 ^ 14)) ","
         = Raise (Exn "OverflowError"
                    "days=1157407407; must have magnitude <= 999999999")).
Proof. vm_compute. repeat split; reflexivity. Qed.

Lemma format_timestamp_rounds_then_truncates_witness :
  exists us ip s,
    format_timestamp (PyFloat.decimal 36612505 4) "," = Ok s
    /\ s = clock us ","
    /\ time_code "," s
    /\ rounds_to_microseconds (PyFloat.decimal 36612505 4) us
    /\ PyFloat.to_int (PyFloat.decimal 36612505 4) = Ok ip
    /\ ip * 1000000 <= us <= ip * 1000000 + 1000000
    /\ s = "01:01:01,250".
Proof.
  destruct (format_timestamp_rounds_then_truncates (PyFloat.decimal 36612505 4) ",")
    as (us & ip & s & Hs & Hclock & Hcode & Hnear & Hip & Hbounds);
    [vm_compute; reflexivity..|].
  exists us, ip, s. repeat (split; [assumption|]).
  assert (format_timestamp (PyFloat.decimal 36612505 4) "," = Ok "01:01:01,250") as Hex
    by (vm_compute; reflexivity).
  rewrite Hex in Hs. injection Hs as <-. reflexivity.
Defined.

(** ** The output path, for every name *)

Lemma number_until_free_shape (fl : OsPath.flavour) (exists_ : string -> bool)
    (base ext : string) (fuel : nat) :
  forall (c : Z) (p q : string),
    number_until_free fl exists_ base ext fuel c p = Some q ->
    q = p \/ exists n, c <= n /\ q = numbered fl base ext n.
Proof.
  induction fuel as [|fuel IH]; intros c p q; simpl.
  - destruct (exists_ p); [discriminate|]. intros [= <-]. left. reflexivity.
  - destruct (exists_ p).
    + intros H. apply IH in H as [->|(n & Hn & ->)]; right.
      * exists c. split; [lia|reflexivity].
      * exists n. split; [lia|reflexivity].
    + intros [= <-]. left. reflexivity.
Qed.

(** The loop finds a free path before it has tried more paths than the
    disk has files. *)
Lemma resolve_output_path_found (fl : OsPath.flavour) (w : world)
    (file_path task output_format : string) :
  exists p,
    resolve_output_path fl (path_exists w) (S (size (disk w)))
      file_path task output_format = Some p.
Proof.
  unfold resolve_output_path.
  set (base := base_output_path fl file_path task output_format).
  set (ext := ext_of output_format).
  destruct (path_exists w base) eqn:Hbase.
  - destruct (first_false (fun j => path_exists w (numbered fl base ext (1 + Z.of_nat j)))
                (S (size (disk w)))) as [Hall|(k & Hk & Hfree & Hbefore)].
    + exfalso. apply (not_all_exist w (fun j => numbered fl base ext (1 + Z.of_nat j))).
      * intros i j H. apply numbered_inj in H. lia.
      * exact Hall.
    + eexists. apply (number_until_free_first fl (path_exists w) base ext k);
        [exact Hbase|exact Hbefore|exact Hfree|exact Hk].
  - exists base. apply number_until_free_free. exact Hbase.
Qed.

(** X4: whatever the source path, the task and the format are, and
    whatever the disk holds, the numbering loop ends within as many rounds
    as the disk has files plus one; the path it returns does not exist and
    ends with a dot and the lower-cased format. *)
Theorem resolve_output_path_total (fl : OsPath.flavour) (w : world)
    (file_path task output_format : string) :
  exists p,
    resolve_output_path fl (path_exists w) (S (size (disk w)))
      file_path task output_format = Some p
    /\ path_exists w p = false
    /\ exists root, p = root +:+ "." +:+ PyStr.lower output_format.
Proof.
  destruct (resolve_output_path_found fl w file_path task output_format) as [p Hp].
  exists p. split; [exact Hp|]. split.
  - apply (number_until_free_absent _ _ _ _ _ _ _ _ Hp).
  - apply number_until_free_shape in Hp as [->|(n & _ & ->)].
    + exists (fst (OsPath.splitext fl file_path) +:+ suffix_of task).
      unfold base_output_path, ext_of. rewrite !str_app_assoc. reflexivity.
    + exists (fst (OsPath.splitext fl (base_output_path fl file_path task output_format))
              +:+ "_" +:+ PyStr.of_int n).
      unfold numbered, ext_of. rewrite !str_app_assoc. reflexivity.
Qed.

(** [open] returns the path it was given as the handle. *)
Lemma opened_handle (E : env) (path : string) (w : world) (fh : option string)
    (w' : world) :
  (f ← open_w E path; mret (Some f)) w = (Ok fh, w') ->
  forall h, fh = Some h -> h = path.
Proof.
  unfold open_w. rewrite !bind_unfold. unfold io_step.
  destruct (io_fault E (io_count w)); [discriminate|].
  cbn beta iota. rewrite !bind_unfold. cbn beta iota.
  unfold modify at 1. cbn beta iota. rewrite !bind_unfold, emit_spec.
  cbn beta iota. rewrite ret_unfold. cbn beta iota. rewrite ret_unfold.
  intros [= <- _] h [= <-]. reflexivity.
Qed.

(** ** Relations every step keeps *)

Section Keeps.

Variable R : world -> world -> Prop.
Hypothesis R_refl : forall w, R w w.
Hypothesis R_trans : forall a b c, R a b -> R b c -> R a c.

Lemma keeps_ret {A} (a : A) : keeps R (mret a : M A).
Proof. intros w. apply R_refl. Qed.

Lemma keeps_raise {A} (e : exn) : keeps R (raise e : M A).
Proof. intros w. apply R_refl. Qed.

Lemma keeps_lift {A} (r : result A) : keeps R (lift r).
Proof. intros w. apply R_refl. Qed.

Lemma keeps_get : keeps R get.
Proof. intros w. apply R_refl. Qed.

Lemma keeps_bind {A B} (m : M A) (k : A -> M B) :
  keeps R m -> (forall a, keeps R (k a)) -> keeps R (m ≫= k).
Proof.
  intros Hm Hk w. rewrite bind_unfold. specialize (Hm w).
  destruct (m w) as [[a|e] w1]; simpl in *; [|exact Hm].
  eapply R_trans; [exact Hm|apply Hk].
Qed.

Lemma keeps_try_except {A} (body : M A) (handler : exn -> M A) :
  keeps R body -> (forall e, keeps R (handler e)) -> keeps R (try_except body handler).
Proof.
  intros Hb Hh w. unfold try_except. specialize (Hb w).
  destruct (body w) as [[a|e] w1]; simpl in *; [exact Hb|].
  eapply R_trans; [exact Hb|apply Hh].
Qed.

Lemma keeps_try_finally {H A} (acquire : M (option H)) (body : option H -> M A)
    (cleanup : option H -> M unit) :
  keeps R acquire -> (forall h, keeps R (body h)) -> (forall h, keeps R (cleanup h)) ->
  keeps R (try_finally acquire body cleanup).
Proof.
  intros Ha Hb Hc w. unfold try_finally. specialize (Ha w).
  destruct (acquire w) as [[h|e] w1]; simpl in *.
  - specialize (Hb h w1). destruct (body h w1) as [r w2]. simpl in Hb.
    specialize (Hc h w2). destruct (cleanup h w2) as [[u|e'] w3]; simpl in *;
      (eapply R_trans; [exact Ha|]; eapply R_trans; [exact Hb|exact Hc]).
  - specialize (Hc None w1). destruct (cleanup None w1) as [[u|e'] w2]; simpl in *;
      (eapply R_trans; [exact Ha|exact Hc]).
Qed.

(** The same, when the block and the cleanup are only known to keep [R]
    for the handles the acquisition can return. *)
Lemma keeps_try_finally_with {H A} (good : option H -> Prop)
    (acquire : M (option H)) (body : option H -> M A) (cleanup : option H -> M unit) :
  keeps R acquire ->
  (forall w h w', acquire w = (Ok h, w') -> good h) -> good None ->
  (forall h, good h -> keeps R (body h)) ->
  (forall h, good h -> keeps R (cleanup h)) ->
  keeps R (try_finally acquire body cleanup).
Proof.
  intros Ha Hgood Hnone Hb Hc w. unfold try_finally. specialize (Ha w).
  destruct (acquire w) as [[h|e] w1] eqn:Hacq; simpl in *.
  - pose proof (Hgood _ _ _ Hacq) as Hh.
    specialize (Hb h Hh w1). destruct (body h w1) as [r w2]. simpl in Hb.
    specialize (Hc h Hh w2). destruct (cleanup h w2) as [[u|e'] w3]; simpl in *;
      (eapply R_trans; [exact Ha|]; eapply R_trans; [exact Hb|exact Hc]).
  - specialize (Hc None Hnone w1).
    destruct (cleanup None w1) as [[u|e'] w2]; simpl in *;
      (eapply R_trans; [exact Ha|exact Hc]).
Qed.

(** What the relation allows: events, files, and engines. *)
Variable can_emit : event -> Prop.
Variable can_touch : string -> Prop.

Hypothesis R_emit : forall ev w, can_emit ev -> R w (record_event ev w).
Hypothesis R_io : forall w, R w (bump_io w).
Hypothesis R_file : forall path content w, can_touch path -> R w (with_file path content w).
Hypothesis R_handles : forall l w, R w (with_handles l w).

Lemma keeps_emit (ev : event) : can_emit ev -> keeps R (emit ev).
Proof. intros Hev w. apply R_emit. exact Hev. Qed.

Lemma keeps_log (l : log_line) : can_emit (EvLog l) -> keeps R (log_callback l).
Proof. apply keeps_emit. Qed.

Lemma keeps_io_step (E : env) : keeps R (io_step E).
Proof. intros w. unfold io_step. destruct (io_fault E _); apply R_io. Qed.

Lemma keeps_open_w (E : env) (path : string) :
  can_touch path -> can_emit (EvOpen path) -> keeps R (open_w E path).
Proof.
  intros Ht He. unfold open_w.
  apply keeps_bind; [apply keeps_io_step|]. intros _.
  apply keeps_bind.
  { intros w. unfold modify. simpl.
    eapply R_trans; [apply (R_file path EmptyString w Ht)|].
    apply (R_handles (path :: open_handles w) (with_file path EmptyString w)). }
  intros _. apply keeps_bind; [apply keeps_emit; exact He|]. intros _. apply keeps_ret.
Qed.

Lemma keeps_write (E : env) (h data : string) :
  can_touch h -> can_emit (EvWrite h data) -> keeps R (write E h data).
Proof.
  intros Ht He. unfold write.
  apply keeps_bind; [apply keeps_io_step|]. intros _.
  apply keeps_bind; [|intros _; apply keeps_emit; exact He].
  intros w. unfold modify. simpl. apply (R_file h _ w Ht).
Qed.

Lemma keeps_close (h : string) : can_emit (EvClose h) -> keeps R (close h).
Proof.
  intros He. unfold close.
  apply keeps_bind; [|intros _; apply keeps_emit; exact He].
  intros w. unfold modify. simpl. apply (R_handles _ w).
Qed.

Lemma keeps_poll (E : env) (i : nat) :
  (forall b, can_emit (EvPoll b)) -> keeps R (poll E i).
Proof.
  intros He. unfold poll. destruct (cancel_check_callback E).
  - apply keeps_bind; [apply keeps_emit, He|]. intros _. apply keeps_ret.
  - apply keeps_ret.
Qed.

(** The [try] block of a run that writes to [out]. *)
Variable out : string.
Hypothesis touch_out : can_touch out.
Hypothesis emit_output : forall ev, output_event out ev -> can_emit ev.

Lemma keeps_write_out (E : env) (data : string) : keeps R (write E out data).
Proof. apply keeps_write; [exact touch_out|]. apply emit_output. reflexivity. Qed.

Lemma keeps_process_segment (E : env) (fmt : string) (fh : option string) (i : nat)
    (seg : segment) (acc : list Json.record) :
  (forall h, fh = Some h -> h = out) ->
  keeps R (process_segment E fmt fh i seg acc).
Proof.
  intros Hfh. unfold process_segment.
  apply keeps_bind; [apply keeps_lift|]. intros ts.
  apply keeps_bind; [apply keeps_log, emit_output; exact I|]. intros _.
  destruct (String.eqb fmt "json"); [apply keeps_ret|].
  destruct fh as [h|]; [|apply keeps_ret].
  rewrite (Hfh h eq_refl).
  apply keeps_bind; [|intros _; apply keeps_ret].
  destruct (String.eqb fmt "txt"); [apply keeps_write_out|].
  destruct (String.eqb fmt "tsv").
  { apply keeps_bind; [apply keeps_lift|]. intros s.
    apply keeps_bind; [apply keeps_lift|]. intros e. apply keeps_write_out. }
  apply keeps_bind; [apply keeps_lift|]. intros s.
  apply keeps_bind; [apply keeps_lift|]. intros e.
  destruct (String.eqb fmt "srt").
  { apply keeps_bind; [apply keeps_write_out|]. intros _.
    apply keeps_bind; [apply keeps_write_out|]. intros _. apply keeps_write_out. }
  destruct (String.eqb fmt "vtt"); [|apply keeps_ret].
  apply keeps_bind; [apply keeps_write_out|]. intros _. apply keeps_write_out.
Qed.

Lemma keeps_consume (E : env) (fmt : string) (fh : option string)
    (segments : list seg_event) :
  (forall h, fh = Some h -> h = out) ->
  forall i acc, keeps R (consume E fmt fh i segments acc).
Proof.
  intros Hfh. induction segments as [|[seg|e] segments IH]; intros i acc; simpl.
  - apply keeps_ret.
  - apply keeps_bind; [apply keeps_emit, emit_output; exact I|]. intros _.
    apply keeps_bind; [apply keeps_poll; intros b; apply emit_output; exact I|].
    intros [|].
    + apply keeps_bind; [apply keeps_log, emit_output; exact I|]. intros _.
      apply keeps_bind; [|intros _; apply keeps_ret].
      destruct fh as [h|]; [|apply keeps_ret].
      rewrite (Hfh h eq_refl). apply keeps_write_out.
    + apply keeps_bind; [apply keeps_process_segment; exact Hfh|]. intros acc'.
      apply IH.
  - apply keeps_raise.
Qed.

Lemma keeps_acquire (E : env) : keeps R (f ← open_w E out; mret (Some f)).
Proof.
  apply keeps_bind; [|intros f; apply keeps_ret].
  apply keeps_open_w; [exact touch_out|]. apply emit_output. reflexivity.
Qed.

Lemma keeps_release (fh : option string) :
  (forall h, fh = Some h -> h = out) ->
  keeps R (match fh with Some h => close h | None => mret tt end).
Proof.
  intros Hh. destruct fh as [h|]; [|apply keeps_ret]. rewrite (Hh h eq_refl).
  apply keeps_close. apply emit_output. reflexivity.
Qed.

Lemma keeps_dump_body (E : env) (recs : list Json.record) (fh : option string) :
  (forall h, fh = Some h -> h = out) ->
  keeps R (match fh with
           | Some f => write E f (Json.dumps (float_repr E) recs)
           | None => mret tt
           end).
Proof.
  intros Hf. destruct fh as [f|]; [|apply keeps_ret].
  rewrite (Hf f eq_refl). apply keeps_write_out.
Qed.

(** The [with open(...)] block of the [json] format (lines 178-179). *)
Lemma keeps_dump (E : env) (recs : list Json.record) :
  keeps R
    (try_finally (f ← open_w E out; mret (Some f))
       (fun f => match f with
                 | Some f => write E f (Json.dumps (float_repr E) recs)
                 | None => mret tt
                 end)
       (fun f => match f with Some f => close f | None => mret tt end)).
Proof.
  apply (keeps_try_finally_with (fun fh => forall h, fh = Some h -> h = out));
    [apply keeps_acquire|apply opened_handle|discriminate| |exact keeps_release].
  intros fh Hf. apply keeps_dump_body. exact Hf.
Qed.

(** The body of the [try] block, once the handle is bound (lines 123-179). *)
Lemma keeps_try_body (E : env) (fmt : string) (segments : list seg_event)
    (fh : option string) :
  (forall h, fh = Some h -> h = out) ->
  keeps R
    (match fh with
     | Some h =>
       if String.eqb fmt "vtt" then write E h ("WEBVTT" +:+ nl +:+ nl)
       else if String.eqb fmt "tsv" then
         write E h ("start" +:+ tab +:+ "end" +:+ tab +:+ "text" +:+ nl)
       else mret tt
     | None => mret tt
     end;;
     r ← consume E fmt fh 0 segments [];
     match r with
     | Exhausted json_results =>
       if String.eqb fmt "json" then
         try_finally (f ← open_w E out; mret (Some f))
           (fun f => match f with
                     | Some f => write E f (Json.dumps (float_repr E) json_results)
                     | None => mret tt
                     end)
           (fun f => match f with Some f => close f | None => mret tt end);;
         mret r
       else mret r
     | ReturnNone => mret r
     end).
Proof.
  intros Hfh. apply keeps_bind.
  { destruct fh as [h|]; [|apply keeps_ret]. rewrite (Hfh h eq_refl).
    destruct (String.eqb fmt "vtt"); [apply keeps_write_out|].
    destruct (String.eqb fmt "tsv"); [apply keeps_write_out|apply keeps_ret]. }
  intros _. apply keeps_bind; [apply keeps_consume; exact Hfh|].
  intros [recs|]; [|apply keeps_ret].
  destruct (String.eqb fmt "json"); [|apply keeps_ret].
  apply keeps_bind; [apply keeps_dump|]. intros _. apply keeps_ret.
Qed.

Lemma keeps_write_output (E : env) (fmt : string) (segments : list seg_event) :
  keeps R (write_output E fmt out segments).
Proof.
  unfold write_output.
  apply (keeps_try_finally_with (fun fh => forall h, fh = Some h -> h = out));
    [| |discriminate|apply keeps_try_body|exact keeps_release].
  - destruct (negb (String.eqb fmt "json")); [apply keeps_acquire|apply keeps_ret].
  - intros w fh w' Hw h ->.
    destruct (negb (String.eqb fmt "json")); [|discriminate Hw].
    exact (opened_handle E out w (Some h) w' Hw h eq_refl).
Qed.

End Keeps.

(** ** A run, step by step *)

Lemma with_model_warm (w : world) (m : whisper_model) :
  self_model w = Some m -> with_model m w = w.
Proof. destruct w. simpl. intros ->. reflexivity. Qed.

Lemma run_loads (E : env) (file_path output_format : string)
    (initial_prompt : option string) (task : string) (w : world) (m : whisper_model) :
  self_model w = None ->
  new_whisper_model E (model_size E) (device E) (compute_type E) = Ok m ->
  run E file_path output_format initial_prompt task w
  = run E file_path output_format initial_prompt task
      (World (Some m) (disk w) (open_handles w) (io_count w)
         (trace w ++ load_events E ++ [EvLog LogModelLoaded])).
Proof.
  intros Hnone Hm. unfold run at 1. rewrite bind_unfold. unfold get at 1.
  rewrite Hnone. rewrite bind_unfold, (load_model_succeeds E m w Hm).
  unfold run. rewrite bind_unfold. unfold get at 1. simpl self_model.
  rewrite bind_unfold. reflexivity.
Qed.

Lemma run_unfolded (E : env) (file_path output_format : string)
    (initial_prompt : option string) (task : string) (w : world) :
  run E file_path output_format initial_prompt task w
  = run_steps E file_path output_format initial_prompt task w.
Proof.
  unfold run_steps, engine_of, load_part.
  destruct (self_model w) as [m|] eqn:Hm.
  - rewrite (run_warm E _ _ _ _ w m Hm). rewrite (with_model_warm w m Hm).
    cbv zeta. destruct (transcribe m _ _) as [[segments info]|e]; [|reflexivity].
    destruct (resolve_output_path _ _ _ _ _ _) as [p|]; [|reflexivity].
    unfold finish. destruct (write_output _ _ _ _ _) as [[[recs|]|e] w3]; reflexivity.
  - destruct (new_whisper_model E _ _ _) as [m|e] eqn:Hnew.
    + rewrite (run_loads E _ _ _ _ w m Hm Hnew).
      rewrite (run_warm E _ _ _ _
                 (World (Some m) (disk w) (open_handles w) (io_count w)
                    (trace w ++ load_events E ++ [EvLog LogModelLoaded]))
                 m eq_refl).
      cbv zeta. unfold with_model, record_events, record_event.
      cbn [trace disk open_handles io_count self_model].
      rewrite <- !List.app_assoc.
      destruct (transcribe m _ _) as [[segments info]|e]; [|reflexivity].
      change (path_exists (World (Some m) (disk w) (open_handles w) (io_count w)
                             (trace w ++ load_events E ++ [EvLog LogModelLoaded])))
        with (path_exists w).
      destruct (resolve_output_path _ _ _ _ _ _) as [p|]; [|reflexivity].
      unfold finish. destruct (write_output _ _ _ _ _) as [[[recs|]|e] w3]; reflexivity.
    + unfold run. rewrite bind_unfold, get_spec, Hm.
      rewrite bind_unfold, (load_model_fails E e w Hnew). reflexivity.
Qed.

(** ** The disk around a run *)

Lemma same_except_refl (out : string) (w : world) : same_except out w w.
Proof. intros p _. reflexivity. Qed.

Lemma same_except_trans (out : string) (a b c : world) :
  same_except out a b -> same_except out b c -> same_except out a c.
Proof. intros Hab Hbc p Hp. rewrite (Hbc p Hp). apply Hab. exact Hp. Qed.

Lemma same_except_disk (out : string) (w w' : world) :
  disk w' = disk w -> same_except out w w'.
Proof. intros H p _. rewrite H. reflexivity. Qed.

Lemma same_except_write_output (E : env) (fmt out : string) (segments : list seg_event) :
  keeps (same_except out) (write_output E fmt out segments).
Proof.
  apply (keeps_write_output (same_except out) (same_except_refl out)
           (same_except_trans out) (fun _ => True) (fun p => p = out)).
  - intros ev w _. apply same_except_disk. reflexivity.
  - intros w. apply same_except_disk. reflexivity.
  - intros path content w -> p Hp. simpl. apply lookup_insert_ne. congruence.
  - intros l w. apply same_except_disk. reflexivity.
  - reflexivity.
  - intros ev _. exact I.
Qed.

Lemma finish_disk (out : string) (rw : result flow * world) :
  disk (snd (finish out rw)) = disk (snd rw).
Proof. destruct rw as [[[recs|]|e] w]; reflexivity. Qed.

Lemma finish_path (out : string) (rw : result flow * world) (p : string) :
  fst (finish out rw) = Ok (Some p) -> p = out.
Proof. destruct rw as [[[recs|]|e] w]; simpl; congruence. Qed.

(** X5: a run changes the disk at one path at most, and that path did not
    exist when the run started: every file that existed before is left as
    it was, with its content, whatever the engine, the cancellation poll
    and the file system do. The path the run returns, when it returns one,
    is that path. *)
Theorem run_changes_one_fresh_path (E : env) (file_path output_format : string)
    (initial_prompt : option string) (task : string) (w : world) :
  exists out,
    disk w !! out = None
    /\ (forall p, p <> out ->
          disk (snd (run E file_path output_format initial_prompt task w)) !! p
          = disk w !! p)
    /\ (forall p content, disk w !! p = Some content ->
          disk (snd (run E file_path output_format initial_prompt task w)) !! p
          = Some content)
    /\ (forall p, fst (run E file_path output_format initial_prompt task w)
                  = Ok (Some p) -> p = out).
Proof.
  destruct (resolve_output_path_found (os_flavour E) w file_path task output_format)
    as (out & Hout).
  pose proof (resolve_output_path_absent _ _ _ _ _ _ _ Hout) as Hnone.
  exists out. split; [exact Hnone|].
  assert (same_except out w (snd (run E file_path output_format initial_prompt task w))
          /\ forall p, fst (run E file_path output_format initial_prompt task w)
                       = Ok (Some p) -> p = out) as [Hframe Hpath].
  { rewrite run_unfolded. unfold run_steps. rewrite Hout.
    destruct (engine_of E w) as [m|e].
    2:{ split; [apply same_except_disk; reflexivity|discriminate]. }
    cbv zeta. destruct (transcribe m _ _) as [[segments info]|e].
    2:{ split; [apply same_except_disk; reflexivity|discriminate]. }
    split; [|apply finish_path].
    intros p Hp. rewrite finish_disk.
    rewrite (same_except_write_output E _ out segments _ p Hp). reflexivity. }
  split; [exact Hframe|]. split; [|exact Hpath].
  intros p content Hp. rewrite Hframe; [exact Hp|]. congruence.
Qed.

(** ** Results that are not exceptions *)

Lemma bind_ok_inv {A B} (m : M A) (k : A -> M B) (w w' : world) (b : B) :
  (m ≫= k) w = (Ok b, w') ->
  exists a w1, m w = (Ok a, w1) /\ k a w1 = (Ok b, w').
Proof.
  rewrite bind_unfold. destruct (m w) as [[a|e] w1]; [|discriminate].
  intros H. exists a, w1. split; [reflexivity|exact H].
Qed.

Lemma try_finally_ok_inv {H A} (acquire : M (option H)) (body : option H -> M A)
    (cleanup : option H -> M unit) (w w' : world) (a : A) :
  try_finally acquire body cleanup w = (Ok a, w') ->
  exists h w1 w2,
    acquire w = (Ok h, w1) /\ body h w1 = (Ok a, w2)
    /\ cleanup h w2 = (Ok tt, w').
Proof.
  unfold try_finally. destruct (acquire w) as [[h|e] w1].
  - destruct (body h w1) as [r w2] eqn:Hb.
    destruct (cleanup h w2) as [[[]|e'] w3] eqn:Hc; [|discriminate].
    intros [= -> <-]. exists h, w1, w2. split; [reflexivity|].
    split; [exact Hb|exact Hc].
  - destruct (cleanup None w1) as [[u|e'] w2]; discriminate.
Qed.

Lemma files_stay_refl (w : world) : files_stay w w.
Proof. intros p Hp. exact Hp. Qed.

Lemma files_stay_trans (a b c : world) :
  files_stay a b -> files_stay b c -> files_stay a c.
Proof. intros Hab Hbc p Hp. apply Hbc, Hab, Hp. Qed.

Lemma files_stay_disk (w w' : world) : disk w' = disk w -> files_stay w w'.
Proof. intros H p Hp. rewrite H. exact Hp. Qed.

Lemma files_stay_insert (path content : string) (w : world) :
  files_stay w (with_file path content w).
Proof.
  intros p Hp. simpl. destruct (decide (p = path)) as [->|Hne].
  - rewrite lookup_insert_eq. eexists. reflexivity.
  - rewrite lookup_insert_ne by congruence. exact Hp.
Qed.

(** An [open] that succeeds creates the file. *)
Lemma open_w_creates (E : env) (path : string) (w w1 : world) (fh : option string) :
  (f ← open_w E path; mret (Some f)) w = (Ok fh, w1) ->
  is_Some (disk w1 !! path).
Proof.
  unfold open_w. rewrite !bind_unfold. unfold io_step.
  destruct (io_fault E (io_count w)); [discriminate|].
  cbn beta iota. rewrite !bind_unfold. cbn beta iota.
  unfold modify at 1. cbn beta iota. rewrite !bind_unfold, emit_spec.
  cbn beta iota. rewrite ret_unfold. cbn beta iota. rewrite ret_unfold.
  intros [= _ <-]. simpl. rewrite lookup_insert_eq. eexists. reflexivity.
Qed.

Section FilesStay.

Variable out : string.

#[local] Abbreviation stay_try_body :=
  (keeps_try_body files_stay files_stay_refl files_stay_trans
     (fun _ => True) (fun _ => True)
     (fun ev w _ => files_stay_disk w (record_event ev w) eq_refl)
     (fun w => files_stay_disk w (bump_io w) eq_refl)
     (fun path content w _ => files_stay_insert path content w)
     (fun l w => files_stay_disk w (with_handles l w) eq_refl)
     out I (fun _ _ => I)).

Lemma files_stay_release (fh : option string) :
  (forall h, fh = Some h -> h = out) ->
  keeps files_stay (match fh with Some h => close h | None => mret tt end).
Proof.
  apply (keeps_release files_stay files_stay_refl files_stay_trans
           (fun _ => True)
           (fun ev w _ => files_stay_disk w (record_event ev w) eq_refl)
           (fun l w => files_stay_disk w (with_handles l w) eq_refl)
           out (fun _ _ => I)).
Qed.

Lemma files_stay_dump_body (E : env) (recs : list Json.record) (fh : option string) :
  (forall h, fh = Some h -> h = out) ->
  keeps files_stay (match fh with
                    | Some f => write E f (Json.dumps (float_repr E) recs)
                    | None => mret tt
                    end).
Proof.
  apply (keeps_dump_body files_stay files_stay_refl files_stay_trans
           (fun _ => True) (fun _ => True)
           (fun ev w _ => files_stay_disk w (record_event ev w) eq_refl)
           (fun w => files_stay_disk w (bump_io w) eq_refl)
           (fun path content w _ => files_stay_insert path content w)
           out I (fun _ _ => I)).
Qed.

(** When the [try] block ends with the sequence exhausted, the output
    file is there. *)
Lemma write_output_exhausted (E : env) (fmt : string) (segments : list seg_event)
    (w w' : world) (recs : list Json.record) :
  write_output E fmt out segments w = (Ok (Exhausted recs), w') ->
  is_Some (disk w' !! out).
Proof.
  unfold write_output. intros H.
  apply try_finally_ok_inv in H as (fh & w1 & w2 & Hacq & Hbody & Hclean).
  assert (forall h, fh = Some h -> h = out) as Hfh.
  { intros h ->. destruct (negb (String.eqb fmt "json")); [|discriminate Hacq].
    exact (opened_handle E out w (Some h) w1 Hacq h eq_refl). }
  pose proof (files_stay_release fh Hfh w2) as Hrel. rewrite Hclean in Hrel.
  simpl in Hrel. apply Hrel.
  destruct (String.eqb fmt "json") eqn:Hjson; simpl in Hacq.
  - (* json: the file is written after the loop *)
    injection Hacq as <- <-.
    apply bind_ok_inv in Hbody as ([] & wa & _ & Hbody).
    apply bind_ok_inv in Hbody as (r & wb & _ & Hbody).
    destruct r as [recs'|]; [|discriminate Hbody].
    apply bind_ok_inv in Hbody as ([] & wc & Hdump & Hret).
    apply try_finally_ok_inv in Hdump as (f & wd & we & Hopen & Hwrite & Hclose).
    assert (forall h, f = Some h -> h = out) as Hf
      by (intros h ->; exact (opened_handle E out wb (Some h) wd Hopen h eq_refl)).
    apply open_w_creates in Hopen.
    pose proof (files_stay_dump_body E recs' f Hf wd) as H1. rewrite Hwrite in H1.
    pose proof (files_stay_release f Hf we) as H2. rewrite Hclose in H2.
    simpl in H1, H2.
    assert (w2 = wc) as ->.
    { revert Hret. rewrite ret_unfold. intros [= _ <-]. reflexivity. }
    apply H2, H1, Hopen.
  - (* streaming: the file is opened first *)
    pose proof (open_w_creates E out w w1 fh Hacq) as Hopen.
    pose proof (stay_try_body E fmt segments fh Hfh w1) as H1.
    rewrite Hjson in H1. rewrite Hbody in H1. simpl in H1. apply H1, Hopen.
Qed.

End FilesStay.

Lemma finish_some_inv (out p : string) (rw : result flow * world) :
  fst (finish out rw) = Ok (Some p) ->
  p = out
  /\ exists recs w3,
       rw = (Ok (Exhausted recs), w3)
       /\ snd (finish out rw) = record_events (end_events out) w3.
Proof.
  destruct rw as [[[recs|]|e] w3]; simpl; try discriminate.
  intros [= <-]. split; [reflexivity|]. exists recs, w3. split; reflexivity.
Qed.

(** X6: when a run returns a path, that path is the one the numbering
    loop chose; it named no file before the run, names a file after it,
    the run's last log line announces it, and no handle of the run is left
    open: whatever the engine, the poll and the file system did. *)
Theorem run_returns_the_file_it_wrote (E : env) (file_path output_format : string)
    (initial_prompt : option string) (task : string) (w : world) (p : string) :
  fst (run E file_path output_format initial_prompt task w) = Ok (Some p) ->
  resolve_output_path (os_flavour E) (path_exists w) (S (size (disk w)))
    file_path task output_format = Some p
  /\ disk w !! p = None
  /\ is_Some (disk (snd (run E file_path output_format initial_prompt task w)) !! p)
  /\ open_handles (snd (run E file_path output_format initial_prompt task w))
     = open_handles w
  /\ exists before,
       trace (snd (run E file_path output_format initial_prompt task w))
       = before ++ [EvLog (LogSaved p)].
Proof.
  intros Hres.
  pose proof (kept_run E file_path output_format initial_prompt task w) as Hkept.
  revert Hres Hkept. rewrite run_unfolded. unfold run_steps.
  destruct (engine_of E w) as [m|e]; [|discriminate].
  cbv zeta. destruct (transcribe m _ _) as [[segments info]|e]; [|discriminate].
  destruct (resolve_output_path _ _ _ _ _ _) as [out|] eqn:Hout; [|discriminate].
  intros Hres Hkept.
  apply finish_some_inv in Hres as (-> & recs & w3 & Hw & Hfin).
  rewrite Hfin in *. clear Hfin.
  split; [reflexivity|].
  split; [exact (resolve_output_path_absent _ _ _ _ _ _ _ Hout)|].
  split; [|split; [exact Hkept|]].
  - apply (write_output_exhausted out E _ segments _ w3 recs Hw).
  - exists (trace w3 ++ [EvLog LogRule; EvLog LogEndTime; EvLog LogDuration]).
    unfold record_events, end_events. cbn [trace].
    rewrite <- List.app_assoc. reflexivity.
Qed.

(** ** Cancellation is the only way to [None] *)

Lemma consume_none (E : env) (fmt : string) (fh : option string)
    (segments : list seg_event) :
  forall (i : nat) (acc : list Json.record) (w w' : world),
    consume E fmt fh i segments acc w = (Ok ReturnNone, w') ->
    exists f n, cancel_check_callback E = Some f /\ f n = true /\ (i <= n)%nat.
Proof.
  induction segments as [|[seg|e] segments IH]; intros i acc w w'; simpl.
  - rewrite ret_unfold. discriminate.
  - intros H. apply bind_ok_inv in H as ([] & w1 & _ & H).
    apply bind_ok_inv in H as (c & w2 & Hpoll & H).
    destruct c.
    + unfold poll in Hpoll. destruct (cancel_check_callback E) as [f|].
      * apply bind_ok_inv in Hpoll as ([] & w1' & _ & Hpoll).
        rewrite ret_unfold in Hpoll. injection Hpoll as Hf _.
        exists f, i. split; [reflexivity|]. split; [exact Hf|lia].
      * rewrite ret_unfold in Hpoll. discriminate.
    + apply bind_ok_inv in H as (acc' & w3 & _ & H).
      apply IH in H as (f & n & Hf & Hn & Hle).
      exists f, n. split; [exact Hf|]. split; [exact Hn|lia].
  - discriminate.
Qed.

Lemma write_output_none (E : env) (fmt out : string) (segments : list seg_event)
    (w w' : world) :
  write_output E fmt out segments w = (Ok ReturnNone, w') ->
  exists f n, cancel_check_callback E = Some f /\ f n = true.
Proof.
  unfold write_output. intros H.
  apply try_finally_ok_inv in H as (fh & w1 & w2 & _ & Hbody & _).
  apply bind_ok_inv in Hbody as ([] & wa & _ & Hbody).
  apply bind_ok_inv in Hbody as (r & wb & Hloop & Hbody).
  destruct r as [recs|].
  - destruct (String.eqb fmt "json").
    + apply bind_ok_inv in Hbody as ([] & wc & _ & Hret).
      rewrite ret_unfold in Hret. discriminate.
    + rewrite ret_unfold in Hbody. discriminate.
  - apply consume_none in Hloop as (f & n & Hf & Hn & _).
    exists f, n. split; assumption.
Qed.

(** X7: a run returns [None] only when there is a cancellation callback
    and one of its calls answered true; a run without a callback returns
    a path or raises. *)
Theorem run_returns_none_only_when_cancelled (E : env)
    (file_path output_format : string) (initial_prompt : option string)
    (task : string) (w : world) :
  fst (run E file_path output_format initial_prompt task w) = Ok None ->
  exists f n, cancel_check_callback E = Some f /\ f n = true.
Proof.
  rewrite run_unfolded. unfold run_steps.
  destruct (engine_of E w) as [m|e]; [|discriminate].
  cbv zeta. destruct (transcribe m _ _) as [[segments info]|e]; [|discriminate].
  destruct (resolve_output_path _ _ _ _ _ _) as [out|]; [|discriminate].
  destruct (write_output E _ out segments _) as [[[recs|]|e] w3] eqn:Hw;
    try discriminate.
  intros _. exact (write_output_none E _ out segments _ w3 Hw).
Qed.

(** ** The engine in the history of a run *)

Lemma extends_with_refl (P : event -> Prop) (w : world) : extends_with P w w.
Proof. exists []. split; [symmetry; apply List.app_nil_r|constructor]. Qed.

Lemma extends_with_trans (P : event -> Prop) (a b c : world) :
  extends_with P a b -> extends_with P b c -> extends_with P a c.
Proof.
  intros (n1 & H1 & P1) (n2 & H2 & P2). exists (n1 ++ n2). split.
  - rewrite H2, H1, <- List.app_assoc. reflexivity.
  - apply Forall_app. split; assumption.
Qed.

Lemma extends_with_trace (P : event -> Prop) (w w' : world) :
  trace w' = trace w -> extends_with P w w'.
Proof.
  intros H. exists []. split; [rewrite H; symmetry; apply List.app_nil_r|constructor].
Qed.

Lemma extends_with_write_output (E : env) (fmt out : string)
    (segments : list seg_event) :
  keeps (extends_with (output_event out)) (write_output E fmt out segments).
Proof.
  apply (keeps_write_output (extends_with (output_event out))
           (extends_with_refl _) (extends_with_trans _)
           (output_event out) (fun _ => True)).
  - intros ev w Hev. exists [ev]. split; [reflexivity|]. constructor; [exact Hev|constructor].
  - intros w. apply extends_with_trace. reflexivity.
  - intros path content w _. apply extends_with_trace. reflexivity.
  - intros l w. apply extends_with_trace. reflexivity.
  - exact I.
  - intros ev Hev. exact Hev.
Qed.

Lemma same_model_write_output (E : env) (fmt out : string)
    (segments : list seg_event) :
  keeps same_model (write_output E fmt out segments).
Proof.
  apply (keeps_write_output same_model (fun w => eq_refl)
           (fun a b c Hab Hbc => eq_trans Hbc Hab)
           (fun _ => True) (fun _ => True)).
  - intros ev w _. reflexivity.
  - intros w. reflexivity.
  - intros path content w _. reflexivity.
  - intros l w. reflexivity.
  - exact I.
  - intros ev _. exact I.
Qed.

Lemma output_events_no_engine (out : string) (evs : list event) :
  Forall (output_event out) evs -> engine_calls evs = [] /\ engines_built evs = [].
Proof.
  induction 1 as [|ev evs Hev _ [IH1 IH2]]; [split; reflexivity|].
  destruct ev; try contradiction; split; simpl; assumption.
Qed.

Lemma engine_calls_app (a b : list event) :
  engine_calls (a ++ b) = engine_calls a ++ engine_calls b.
Proof. apply omap_app. Qed.

Lemma engines_built_app (a b : list event) :
  engines_built (a ++ b) = engines_built a ++ engines_built b.
Proof. apply omap_app. Qed.

Lemma engine_calls_start (file_path output_format : string)
    (initial_prompt : option string) (task : string) :
  engine_calls (start_events file_path output_format initial_prompt task)
  = [(file_path, transcribe_options initial_prompt task)]
  /\ engines_built (start_events file_path output_format initial_prompt task) = [].
Proof.
  unfold start_events. rewrite !engine_calls_app, !engines_built_app.
  destruct (truthy initial_prompt && String.eqb task "transcribe"); split; reflexivity.
Qed.

Lemma finish_trace (out : string) (rw : result flow * world) :
  exists tail,
    trace (snd (finish out rw)) = trace (snd rw) ++ tail
    /\ engine_calls tail = [] /\ engines_built tail = []
    /\ self_model (snd (finish out rw)) = self_model (snd rw).
Proof.
  destruct rw as [[[recs|]|e] w]; simpl.
  - exists (end_events out). repeat split; reflexivity.
  - exists []. rewrite List.app_nil_r. repeat split; reflexivity.
  - exists []. rewrite List.app_nil_r. repeat split; reflexivity.
Qed.

(** The constructions and the calls of the engine in the history of a
    run, and the engine the run leaves loaded. *)
Lemma run_engine_history (E : env) (file_path output_format : string)
    (initial_prompt : option string) (task : string) (w : world) :
  exists new,
    trace (snd (run E file_path output_format initial_prompt task w)) = trace w ++ new
    /\ engines_built new
       = match self_model w with
         | Some _ => []
         | None => [(model_size E, device E, compute_type E)]
         end
    /\ engine_calls new
       = match engine_of E w with
         | Ok _ => [(file_path, transcribe_options initial_prompt task)]
         | Raise _ => []
         end
    /\ self_model (snd (run E file_path output_format initial_prompt task w))
       = match engine_of E w with
         | Ok m => Some m
         | Raise _ => None
         end.
Proof.
  rewrite run_unfolded. unfold run_steps.
  destruct (engine_calls_start file_path output_format initial_prompt task)
    as [Hcalls Hbuilt].
  assert (engines_built (load_part E w)
          = match self_model w with
            | Some _ => []
            | None => [(model_size E, device E, compute_type E)]
            end /\ engine_calls (load_part E w) = []) as [Hlb Hlc].
  { unfold load_part. destruct (self_model w); split; reflexivity. }
  destruct (engine_of E w) as [m|e] eqn:Heng.
  2:{ unfold engine_of in Heng. destruct (self_model w) eqn:Hm; [discriminate|].
      eexists. split; [reflexivity|]. repeat split; assumption. }
  cbv zeta. destruct (transcribe m _ _) as [[segments info]|e].
  2:{ eexists. split; [reflexivity|].
      rewrite engines_built_app, engine_calls_app, Hlb, Hlc, Hcalls, Hbuilt,
        List.app_nil_r.
      repeat split; reflexivity. }
  destruct (resolve_output_path _ _ _ _ _ _) as [out|].
  2:{ eexists. split; [simpl; rewrite <- List.app_assoc; reflexivity|].
      rewrite !engines_built_app, !engine_calls_app, Hlb, Hlc, Hcalls, Hbuilt,
        !List.app_nil_r.
      repeat split; reflexivity. }
  match goal with |- context [write_output E ?f out segments ?w2] =>
    pose proof (extends_with_write_output E f out segments w2) as (new3 & Htr & Hev);
    pose proof (same_model_write_output E f out segments w2) as Hmodel;
    destruct (finish_trace out (write_output E f out segments w2))
      as (tail & Hfin & Htc & Htb & Hfm)
  end.
  apply output_events_no_engine in Hev as [Hc3 Hb3].
  eexists. split.
  { rewrite Hfin, Htr. simpl. rewrite <- !List.app_assoc. reflexivity. }
  rewrite !engines_built_app, !engine_calls_app.
  rewrite Hlb, Hlc, Hcalls, Hbuilt, Hc3, Hb3, Htc, Htb.
  rewrite Hfm, Hmodel. simpl. rewrite !List.app_nil_r.
  repeat split; reflexivity.
Qed.

(** X8: a run builds an engine only when none is loaded, and then one
    only, with the size, device and compute type of the transcriber; it
    calls the engine once, for the given file with the options built from
    the task and the prompt, unless the engine cannot be built, and then
    not at all. The engine that was loaded or built stays loaded after the
    run, however the run ends. *)
Theorem run_builds_and_calls_the_engine_once (E : env)
    (file_path output_format : string) (initial_prompt : option string)
    (task : string) (w : world) :
  exists new,
    trace (snd (run E file_path output_format initial_prompt task w)) = trace w ++ new
    /\ engines_built new
       = match self_model w with
         | Some _ => []
         | None => [(model_size E, device E, compute_type E)]
         end
    /\ engine_calls new
       = match engine_of E w with
         | Ok _ => [(file_path, transcribe_options initial_prompt task)]
         | Raise _ => []
         end
    /\ self_model (snd (run E file_path output_format initial_prompt task w))
       = match engine_of E w with
         | Ok m => Some m
         | Raise _ => None
         end.
Proof. apply run_engine_history. Qed.

(** ** The engine fails in the middle of the sequence *)

Section EngineFault.

Variable E : env.
Variables (file_path output_format : string) (initial_prompt : option string)
  (task : string) (w : world) (m : whisper_model).
Variables (info : transcription_info) (output_path : string).
Variables (segs : list segment) (e : exn) (rest : list seg_event).

#[local] Abbreviation fmt := (PyStr.lower output_format).

(** X9: the engine raises [e] after it has yielded the segments [segs]
    (each processed without failure, none cancelled). The run raises [e];
    in a streaming format the destination is closed and holds the header
    and the records of [segs], with no marker, as after a complete run
    over [segs]; in [json] nothing is written and no file is created. *)
Theorem run_engine_fault_midstream :
  (forall n, io_fault E n = None) ->
  self_model w = Some m ->
  resolve_output_path (os_flavour E) (path_exists w) (S (size (disk w)))
    file_path task output_format = Some output_path ->
  transcribe m file_path (transcribe_options initial_prompt task)
  = Ok ((Yield <$> segs) ++ EngineFault e :: rest, info) ->
  (forall j, (j < length segs)%nat -> cancelled E j = false) ->
  (forall j s, segs !! j = Some s -> renders fmt j s) ->
  exists w',
    run E file_path output_format initial_prompt task w = (Raise e, w')
    /\ open_handles w' = open_handles w
    /\ (fmt <> "json" ->
        disk w' = <[output_path :=
                      concat_strings (header fmt) +:+ segments_written fmt 0 segs]>
                    (disk w))
    /\ (fmt = "json" -> disk w' = disk w /\ disk w' !! output_path = None).
Proof.
  intros Hio Hwarm Hpath Hengine Hgo Hrender.
  rewrite (run_warm E _ _ _ _ w m Hwarm), Hengine, Hpath. cbv zeta.
  rewrite record_event_events, record_events_app.
  set (w2 := record_events _ w).
  assert (disk w2 = disk w /\ open_handles w2 = open_handles w) as [Hd2 Hh2]
    by (split; reflexivity).
  destruct (String.eqb_spec fmt "json") as [Hjson|Hjson].
  - rewrite Hjson in *. rewrite write_output_json by exact Hio.
    rewrite (consume_prefix E Hio "json" None handle_iff_json segs 0 [] w2)
      by assumption.
    simpl consume. unfold raise.
    eexists. split; [reflexivity|].
    split; [rewrite after_segments_handles; exact Hh2|].
    split; [intros Hne; contradiction|]. intros _.
    rewrite after_segments_disk_none, Hd2. split; [reflexivity|].
    exact (resolve_output_path_absent _ _ _ _ _ _ _ Hpath).
  - rewrite write_output_streaming by assumption.
    rewrite (consume_prefix E Hio fmt (Some output_path)
               (handle_iff_streaming output_format output_path Hjson) segs 0 [] _)
      by assumption.
    simpl consume. unfold raise.
    eexists. split; [reflexivity|].
    apply String.eqb_neq in Hjson.
    pose proof (completed_world_disk_streaming E fmt output_path segs w2 Hjson) as Hdisk.
    pose proof (completed_world_handles E fmt output_path segs w2) as Hhand.
    unfold completed_world in Hdisk, Hhand. rewrite Hjson in Hdisk, Hhand.
    split; [exact Hhand|]. split.
    + intros _. rewrite <- Hd2. exact Hdisk.
    + intros Heq. rewrite Heq in Hjson. discriminate.
Qed.

End EngineFault.

(** ** The properties of whole runs at concrete inputs *)

Lemma run_returns_the_file_it_wrote_witness :
  let E := posix_env (fixed_engine (Yield <$> five_segments)) None in
  let w := warm_world (fixed_engine (Yield <$> five_segments)) in
  resolve_output_path (os_flavour E) (path_exists w) (S (size (disk w)))
    "a.mp4" "transcribe" "srt" = Some "a.srt"
  /\ disk w !! "a.srt" = None
  /\ is_Some (disk (snd (run E "a.mp4" "srt" None "transcribe" w)) !! "a.srt")
  /\ open_handles (snd (run E "a.mp4" "srt" None "transcribe" w)) = open_handles w
  /\ exists before,
       trace (snd (run E "a.mp4" "srt" None "transcribe" w))
       = before ++ [EvLog (LogSaved "a.srt")].
Proof.
  intros E w.
  apply (run_returns_the_file_it_wrote E "a.mp4" "srt" None "transcribe" w "a.srt").
  vm_compute. reflexivity.
Defined.

Lemma run_returns_none_only_when_cancelled_witness :
  exists f n,
    cancel_check_callback
      (posix_env (fixed_engine (Yield <$> five_segments)) (Some stop_before_third))
    = Some f /\ f n = true.
Proof.
  apply (run_returns_none_only_when_cancelled
           (posix_env (fixed_engine (Yield <$> five_segments)) (Some stop_before_third))
           "a.mp4" "srt" None "transcribe"
           (warm_world (fixed_engine (Yield <$> five_segments)))).
  vm_compute. reflexivity.
Defined.

Lemma run_engine_fault_midstream_witness :
  let E := posix_env (fixed_engine two_then_fault) None in
  exists w',
    run E "a.mp4" "vtt" None "transcribe" (warm_world (fixed_engine two_then_fault))
    = (Raise (Exn "RuntimeError" "decoder failed"), w')
    /\ open_handles w' = open_handles (warm_world (fixed_engine two_then_fault))
    /\ (PyStr.lower "vtt" <> "json" ->
        disk w'
        = <["a.vtt" :=
              concat_strings (header (PyStr.lower "vtt"))
              +:+ segments_written (PyStr.lower "vtt") 0 (take 2 five_segments)]>
            (disk (warm_world (fixed_engine two_then_fault))))
    /\ (PyStr.lower "vtt" = "json" ->
        disk w' = disk (warm_world (fixed_engine two_then_fault))
        /\ disk w' !! "a.vtt" = None).
Proof.
  intros E.
  apply (run_engine_fault_midstream E "a.mp4" "vtt" None "transcribe"
           (warm_world (fixed_engine two_then_fault)) (fixed_engine two_then_fault)
           (TranscriptionInfo "en" (PyFloat.of_Z 1)) "a.vtt" (take 2 five_segments)
           (Exn "RuntimeError" "decoder failed") []).
  - intros n. reflexivity.
  - reflexivity.
  - vm_compute. reflexivity.
  - reflexivity.
  - intros j _. reflexivity.
  - render_all H.
Defined.
